(** * Liner cementing job calculator: the calculation engine and its HTTP boundary

    A shallow embedding of [backend/app/engine.py] and [backend/app/main.py].

    Python values are embedded as a JSON-like tree [pyval]; a Python [float]
    is a binary64 number of the kernel ([PrimFloat.float]), so every
    arithmetic step of the engine is the IEEE-754 operation Python performs;
    an exception is the [Raise] branch of the [result] monad, and statements
    are sequenced in source order so that the first exception wins.

    Two things the interpreter leaves to its platform are kept abstract in the
    class [Runtime]: the parser behind [float(str)] and the C library's
    [pow(x, 2.0)], which is not correctly rounded on common platforms.
    Likewise pydantic's scalar coercions are the class [Coercion]. *)

From Stdlib Require Import ZArith Floats.
From stdpp Require Import gmap strings.

Set Warnings "-register-all,-inexact-float".
Local Open Scope Z_scope.

(** ** Exceptions and the result monad *)

Inductive exn : Set :=
| KeyError (key : string)
| TypeError
| ValueError
| AttributeError
| OverflowError.

Inductive result (A : Type) : Type :=
| Ok (a : A)
| Raise (e : exn).
Arguments Ok {A} a.
Arguments Raise {A} e.

#[global] Instance result_ret : MRet result := fun A a => Ok a.
#[global] Instance result_bind : MBind result := fun A B f m =>
  match m with
  | Ok a => f a
  | Raise e => Raise e
  end.

Definition raises {A} (m : result A) : Prop :=
  match m with Ok _ => False | Raise _ => True end.

Definition returns {A} (m : result A) : Prop :=
  match m with Ok _ => True | Raise _ => False end.

(** ** Python values *)

Inductive pyval : Type :=
| PNone
| PBool (b : bool)
| PInt (z : Z)
| PFloat (f : float)
| PStr (s : string)
| PList (l : list pyval)
| PDict (d : gmap string pyval).

(** What the interpreter takes from its platform. [str_to_float s] is
    [float(s)] for a string ([None] when it raises [ValueError]);
    [libm_pow2 x] is C's [pow(x, 2.0)] together with whether it left [errno]
    at [ERANGE]. *)
Class Runtime : Type := {
  str_to_float : string -> option float;
  libm_pow2 : float -> float * bool
}.

Module Py.

(** [d.get(k, dflt)] on a dict. *)
Definition dict_get (d : gmap string pyval) (k : string) (dflt : pyval) : pyval :=
  default dflt (d !! k).

(** [d[k]] on a dict. *)
Definition getitem (d : gmap string pyval) (k : string) : result pyval :=
  match d !! k with
  | Some v => Ok v
  | None => Raise (KeyError k)
  end.

(** [v.get(k, dflt)] on an arbitrary value: only a dict has the method. *)
Definition get (v : pyval) (k : string) (dflt : pyval) : result pyval :=
  match v with
  | PDict d => Ok (dict_get d k dflt)
  | _ => Raise AttributeError
  end.

(** [float(n)] for an int: rounded to nearest even, [OverflowError] past
    the largest finite double. *)
Definition int_to_float (n : Z) : result float :=
  match binary_normalize prec emax n 0 false with
  | S754_infinity _ => Raise OverflowError
  | sf => Ok (SF2Prim sf)
  end.

Definition int_of_bool (b : bool) : Z := if b then 1 else 0.

(** The builtin [float(v)]. *)
Definition float_of {rt : Runtime} (v : pyval) : result float :=
  match v with
  | PFloat f => Ok f
  | PInt n => int_to_float n
  | PBool b => int_to_float (int_of_bool b)
  | PStr s =>
      match str_to_float s with
      | Some f => Ok f
      | None => Raise ValueError
      end
  | PNone | PList _ | PDict _ => Raise TypeError
  end.

(** [a / b] for ints, [b] positive: the correctly rounded quotient,
    [OverflowError] when it is too large for a double. *)
Definition int_truediv (a : Z) (b : positive) : result float :=
  match a with
  | Z0 => Ok 0%float
  | Zpos p | Zneg p =>
      match SFdiv prec emax (S754_finite (a <? 0) p 0) (S754_finite false b 0) with
      | S754_infinity _ => Raise OverflowError
      | sf => Ok (SF2Prim sf)
      end
  end.

(** [v / 12] with the int literal [12] on the right. *)
Definition truediv_12 (v : pyval) : result float :=
  match v with
  | PFloat f => Ok (f / 12)%float
  | PInt n => int_truediv n 12
  | PBool b => int_truediv (int_of_bool b) 12
  | PNone | PStr _ | PList _ | PDict _ => Raise TypeError
  end.

(** [iv ** 2] for a float, after [float_pow] of CPython's floatobject.c at
    the exponent 2.0: the special cases are settled before libm is asked,
    and [errno] is adjusted as [_Py_ADJUST_ERANGE1] does. *)
Definition float_pow2 {rt : Runtime} (iv : float) : result float :=
  if is_nan iv then Ok iv
  else if is_infinity iv then Ok (abs iv)
  else if (iv =? 0)%float then Ok 0%float
  else
    let iv := if (iv <? 0)%float then (- iv)%float else iv in
    if (iv =? 1)%float then Ok 1%float
    else
      let '(ix, erange) := libm_pow2 iv in
      let errno :=
        if erange then negb (ix =? 0)%float
        else is_infinity ix in
      if errno then Raise OverflowError else Ok ix.

(** [max(a, b)] on floats: the first argument stays unless the second
    compares greater. *)
Definition max (a b : float) : float :=
  if (a <? b)%float then b else a.

(** [math.pi]. *)
Definition math_pi : float := 0x1.921fb54442d18p+1%float.

End Py.

(** ** backend/app/engine.py *)

Module PipeSection.

(** The dataclass: the annotations are not enforced, so a field holds
    whatever value the keyword argument had. *)
Record t : Type := mk {
  od : pyval;
  id : pyval;
  wt : pyval;
  length : pyval;
  md : pyval;
  tvd : pyval;
  grade : pyval
}.

End PipeSection.

Module Engine.

Definition required_fields : list string :=
  ["od"; "id"; "wt"; "length"; "md"; "tvd"].

Definition fields : list string := required_fields ++ ["grade"].

(** A keyword the generated [__init__] has no parameter for. *)
Definition unexpected_keyword (kw : gmap string pyval) : bool :=
  negb (bool_decide (dom kw ⊆ list_to_set (C := gset string) fields)).

(** A parameter without default must be passed. *)
Definition required_argument (kw : gmap string pyval) (k : string) : result pyval :=
  match kw !! k with
  | Some v => Ok v
  | None => Raise TypeError
  end.

(** The call [PipeSection] with the keyword arguments unpacked from [v]:
    [v] must be a mapping, and the dataclass stores the arguments as they
    are. *)
Definition new_PipeSection (v : pyval) : result PipeSection.t :=
  match v with
  | PDict kw =>
      if unexpected_keyword kw then Raise TypeError
      else
        od ← required_argument kw "od";
        id ← required_argument kw "id";
        wt ← required_argument kw "wt";
        length ← required_argument kw "length";
        md ← required_argument kw "md";
        tvd ← required_argument kw "tvd";
        Ok (PipeSection.mk od id wt length md tvd
              (Py.dict_get kw "grade" (PStr "")))
  | _ => Raise TypeError
  end.

Definition dp2_default : pyval :=
  PDict (<["od" := PInt 0]> (<["id" := PInt 0]> (<["wt" := PInt 0]>
        (<["length" := PInt 0]> (<["md" := PInt 0]> (<["tvd" := PInt 0]>
        (<["grade" := PStr ""]> ∅))))))).

Definition area_ft2 {rt : Runtime} (d_in : pyval) : result float :=
  q ← Py.truediv_12 d_in;
  s ← Py.float_pow2 q;
  Ok (Py.math_pi * s / 4)%float.

Definition BBL_PER_CUFT : float := 0.1781076%float.

(** The local variables of [Engine.calculate] when it reaches [return]. *)
Record locals : Type := mk_locals {
  casing : PipeSection.t;
  liner : PipeSection.t;
  dp1 : PipeSection.t;
  dp2 : PipeSection.t;
  mud_ppg : float;
  open_hole_id : float;
  annulus_area : float;
  liner_overlap_ft : float;
  shoe_track_ft : float;
  cement_interval : float;
  cement_volume_bbl : float
}.

(** The dict [calculate] returns; its three keys are fixed. *)
Record response : Type := mk_response {
  cementVolume : float;
  mudPPG : float;
  annulusAreaFt2 : float
}.

(** [float(payload.get(outer, {}).get(inner, dflt))]. *)
Definition nested_float {rt : Runtime}
    (payload : gmap string pyval) (outer inner : string) (dflt : pyval)
    : result float :=
  v ← Py.get (Py.dict_get payload outer (PDict ∅)) inner dflt;
  Py.float_of v.

(** The body of [Engine.calculate] up to the [return] statement. *)
Definition calculate_body {rt : Runtime}
    (payload : gmap string pyval) (find_tvd : option (float -> result float))
    : result locals :=
  casing ← Py.getitem payload "casing" ≫= new_PipeSection;
  liner ← Py.getitem payload "liner" ≫= new_PipeSection;
  dp1 ← Py.getitem payload "dp1" ≫= new_PipeSection;
  dp2 ← new_PipeSection (Py.dict_get payload "dp2" dp2_default);
  mud_ppg ← nested_float payload "mud" "ppg" (PFloat 13.0);
  open_hole_id ← nested_float payload "holeOverlap" "openHoleId" (PFloat 8.5);
  a_hole ← area_ft2 (PFloat open_hole_id);
  a_liner ← area_ft2 (PipeSection.od liner);
  let annulus_area := Py.max 0.0 (a_hole - a_liner) in
  liner_overlap_ft ← nested_float payload "holeOverlap" "linerOverlap" (PInt 300);
  shoe_track_ft ← nested_float payload "holeOverlap" "shoeTrackLength" (PInt 200);
  let cement_interval := (liner_overlap_ft + shoe_track_ft)%float in
  let cement_volume_bbl := (annulus_area * cement_interval * BBL_PER_CUFT)%float in
  Ok (mk_locals casing liner dp1 dp2 mud_ppg open_hole_id annulus_area
        liner_overlap_ft shoe_track_ft cement_interval cement_volume_bbl).

Definition calculate {rt : Runtime}
    (payload : gmap string pyval) (find_tvd : option (float -> result float))
    : result response :=
  l ← calculate_body payload find_tvd;
  Ok (mk_response (cement_volume_bbl l) (mud_ppg l) (annulus_area l)).

End Engine.

(** ** backend/app/main.py *)

(** pydantic's coercion of a parsed JSON value to a [float] field and to a
    [str] field ([None] when the value is refused). *)
Class Coercion : Type := {
  validate_float : pyval -> option float;
  validate_str : pyval -> option string
}.

Module PipeModel.

Record t : Type := mk {
  od : float;
  id : float;
  wt : float;
  length : float;
  md : float;
  tvd : float;
  grade : string
}.

End PipeModel.

Module HoleOverlapModel.

(** pydantic does not validate a default, so [linerOverlap] and
    [shoeTrackLength] hold the ints [300] and [200] as written when their
    key is absent, and a validated float otherwise. *)
Record t : Type := mk {
  openHoleId : float;
  linerOverlap : pyval;
  shoeTrackLength : pyval
}.

End HoleOverlapModel.

Module MudModel.

Record t : Type := mk { ppg : float }.

End MudModel.

Module CalcRequest.

Record t : Type := mk {
  casing : PipeModel.t;
  liner : PipeModel.t;
  dp1 : PipeModel.t;
  dp2 : option PipeModel.t;
  mud : MudModel.t;
  holeOverlap : HoleOverlapModel.t
}.

End CalcRequest.

Module Main.

(** A field declared without default: the key must be there. *)
Definition required {A} (d : gmap string pyval) (k : string)
    (validate : pyval -> option A) : option A :=
  d !! k ≫= validate.

(** A field declared with a default: taken as it is when the key is absent. *)
Definition optional {A} (d : gmap string pyval) (k : string)
    (validate : pyval -> option A) (dflt : A) : option A :=
  match d !! k with
  | Some v => validate v
  | None => Some dflt
  end.

Definition validate_PipeModel {co : Coercion} (v : pyval) : option PipeModel.t :=
  match v with
  | PDict d =>
      od ← required d "od" validate_float;
      id ← required d "id" validate_float;
      wt ← required d "wt" validate_float;
      length ← required d "length" validate_float;
      md ← required d "md" validate_float;
      tvd ← required d "tvd" validate_float;
      grade ← optional d "grade" validate_str "";
      Some (PipeModel.mk od id wt length md tvd grade)
  | _ => None
  end.

Definition validate_HoleOverlapModel {co : Coercion} (v : pyval)
    : option HoleOverlapModel.t :=
  match v with
  | PDict d =>
      openHoleId ← optional d "openHoleId" validate_float 8.5%float;
      linerOverlap ← optional d "linerOverlap"
                       (fun v => PFloat <$> validate_float v) (PInt 300);
      shoeTrackLength ← optional d "shoeTrackLength"
                          (fun v => PFloat <$> validate_float v) (PInt 200);
      Some (HoleOverlapModel.mk openHoleId linerOverlap shoeTrackLength)
  | _ => None
  end.

Definition validate_MudModel {co : Coercion} (v : pyval) : option MudModel.t :=
  match v with
  | PDict d =>
      ppg ← optional d "ppg" validate_float 13.0%float;
      Some (MudModel.mk ppg)
  | _ => None
  end.

(** [Optional[PipeModel]]: [null] is accepted as well as a pipe. *)
Definition validate_optional_PipeModel {co : Coercion} (v : pyval)
    : option (option PipeModel.t) :=
  match v with
  | PNone => Some None
  | _ => Some <$> validate_PipeModel v
  end.

Definition validate_CalcRequest {co : Coercion} (body : pyval) : option CalcRequest.t :=
  match body with
  | PDict d =>
      casing ← required d "casing" validate_PipeModel;
      liner ← required d "liner" validate_PipeModel;
      dp1 ← required d "dp1" validate_PipeModel;
      dp2 ← optional d "dp2" validate_optional_PipeModel None;
      mud ← required d "mud" validate_MudModel;
      holeOverlap ← required d "holeOverlap" validate_HoleOverlapModel;
      Some (CalcRequest.mk casing liner dp1 dp2 mud holeOverlap)
  | _ => None
  end.

(** [model_dump(by_alias=True)]: every field is written, an unset
    optional one as [None]; no alias differs from its field's name. *)
Definition dump_PipeModel (m : PipeModel.t) : pyval :=
  PDict (<["od" := PFloat (PipeModel.od m)]>
        (<["id" := PFloat (PipeModel.id m)]>
        (<["wt" := PFloat (PipeModel.wt m)]>
        (<["length" := PFloat (PipeModel.length m)]>
        (<["md" := PFloat (PipeModel.md m)]>
        (<["tvd" := PFloat (PipeModel.tvd m)]>
        (<["grade" := PStr (PipeModel.grade m)]> ∅))))))).

Definition dump_HoleOverlapModel (m : HoleOverlapModel.t) : pyval :=
  PDict (<["openHoleId" := PFloat (HoleOverlapModel.openHoleId m)]>
        (<["linerOverlap" := HoleOverlapModel.linerOverlap m]>
        (<["shoeTrackLength" := HoleOverlapModel.shoeTrackLength m]> ∅))).

Definition dump_MudModel (m : MudModel.t) : pyval :=
  PDict (<["ppg" := PFloat (MudModel.ppg m)]> ∅).

Definition model_dump (req : CalcRequest.t) : gmap string pyval :=
  <["casing" := dump_PipeModel (CalcRequest.casing req)]>
  (<["liner" := dump_PipeModel (CalcRequest.liner req)]>
  (<["dp1" := dump_PipeModel (CalcRequest.dp1 req)]>
  (<["dp2" := from_option dump_PipeModel PNone (CalcRequest.dp2 req)]>
  (<["mud" := dump_MudModel (CalcRequest.mud req)]>
  (<["holeOverlap" := dump_HoleOverlapModel (CalcRequest.holeOverlap req)]> ∅))))).

(** What the route does with a request body: the framework refuses a body
    the request model does not validate and never calls the handler; the
    handler returns the engine's dict or turns any exception into an
    [HTTPException] with status 400. *)
Inductive outcome : Type :=
| Rejected
| Returned (r : Engine.response)
| HTTPException400 (detail : exn).

Definition calculate {rt : Runtime} {co : Coercion} (body : pyval) : outcome :=
  match validate_CalcRequest body with
  | None => Rejected
  | Some req =>
      match Engine.calculate (model_dump req) None with
      | Ok r => Returned r
      | Raise e => HTTPException400 e
      end
  end.

End Main.

(** ** Notions the statements use *)

(** The raw value of a nested field: [payload[outer][inner]] when [outer] is
    a dict that has the key. *)
Definition field (payload : gmap string pyval) (outer inner : string) : option pyval :=
  match payload !! outer with
  | Some (PDict d) => d !! inner
  | _ => None
  end.

(** A keyword set [PipeSection] accepts: no key outside its seven fields and
    the six fields without default all there. *)
Definition accepts (kw : gmap string pyval) : bool :=
  negb (Engine.unexpected_keyword kw)
  && forallb (fun k => bool_decide (is_Some (kw !! k))) Engine.required_fields.

Definition is_section (v : option pyval) : bool :=
  match v with
  | Some (PDict kw) => accepts kw
  | _ => false
  end.

Definition absent_or {A} (ok : option A -> bool) (v : option A) : bool :=
  match v with
  | None => true
  | Some _ => ok v
  end.

Definition is_dict (v : option pyval) : bool :=
  match v with
  | Some (PDict _) => true
  | _ => false
  end.

Definition is_float (v : option pyval) : bool :=
  match v with
  | Some (PFloat _) => true
  | _ => false
  end.

(** A request shaped as the data model says: the three required sections and
    an optional [dp2], each a dict [PipeSection] accepts; [mud] and
    [holeOverlap] dicts when present. *)
Definition well_formed (payload : gmap string pyval) : bool :=
  is_section (payload !! "casing")
  && is_section (payload !! "liner")
  && is_section (payload !! "dp1")
  && absent_or is_section (payload !! "dp2")
  && absent_or is_dict (payload !! "mud")
  && absent_or is_dict (payload !! "holeOverlap").

(** The values the formula reads are floats where they are given. *)
Definition float_valued (payload : gmap string pyval) : bool :=
  is_float (field payload "liner" "od")
  && absent_or is_float (field payload "mud" "ppg")
  && absent_or is_float (field payload "holeOverlap" "openHoleId")
  && absent_or is_float (field payload "holeOverlap" "linerOverlap")
  && absent_or is_float (field payload "holeOverlap" "shoeTrackLength").

(** The five values of a request the formula reads. *)
Definition formula_inputs (payload : gmap string pyval)
    : option pyval * option pyval * option pyval * option pyval * option pyval :=
  (field payload "liner" "od",
   field payload "mud" "ppg",
   field payload "holeOverlap" "openHoleId",
   field payload "holeOverlap" "linerOverlap",
   field payload "holeOverlap" "shoeTrackLength").

(** A key [PipeSection] has no field for, or a required field left out. *)
Definition bad_keys (kw : gmap string pyval) : Prop :=
  (exists k, is_Some (kw !! k) /\ k ∉ Engine.fields)
  \/ (exists k, k ∈ Engine.required_fields /\ kw !! k = None).

(** The section [dp2] is when the request has none: the ints and the empty
    string of the engine's default dict. *)
Definition zero_section : PipeSection.t :=
  PipeSection.mk (PInt 0) (PInt 0) (PInt 0) (PInt 0) (PInt 0) (PInt 0) (PStr "").

(** ** Worked examples *)

(** The runtime of the worked examples: [pow(x, 2.0)] is the correctly
    rounded square and leaves [errno] alone, and no string reads as a number
    (the examples pass none where a number is read). *)
Definition exact_runtime : Runtime := {|
  str_to_float := fun _ => None;
  libm_pow2 := fun x => ((x * x)%float, false)
|}.

(** The coercion of the worked examples: a float field takes a float, a
    string field a string. *)
Definition strict_coercion : Coercion := {|
  validate_float := fun v => match v with PFloat f => Some f | _ => None end;
  validate_str := fun v => match v with PStr s => Some s | _ => None end
|}.

Definition pipe (od : float) : gmap string pyval :=
  <["od" := PFloat od]> (<["id" := PFloat 6.0]> (<["wt" := PFloat 29.0]>
  (<["length" := PFloat 1500.0]> (<["md" := PFloat 9000.0]>
  (<["tvd" := PFloat 8800.0]> ∅))))).

(** Casing, liner and [dp1] only, the liner's outer diameter given. *)
Definition request (liner_od : float) : gmap string pyval :=
  <["casing" := PDict (pipe 9.625)]> (<["liner" := PDict (pipe liner_od)]>
  (<["dp1" := PDict (pipe 5.0)]> ∅)).

Definition with_hole (open_hole_id : float) (payload : gmap string pyval)
    : gmap string pyval :=
  <["holeOverlap" := PDict (<["openHoleId" := PFloat open_hole_id]> ∅)]> payload.

(** The end-to-end scenario with every optional part written out. *)
Definition full_request : gmap string pyval :=
  <["dp2" := PDict (<["grade" := PStr "S-135"]> (pipe 3.5))]>
  (<["mud" := PDict (<["ppg" := PFloat 13.0]> ∅)]>
  (<["holeOverlap" := PDict (<["openHoleId" := PFloat 8.5]>
                            (<["linerOverlap" := PFloat 300.0]>
                            (<["shoeTrackLength" := PFloat 200.0]> ∅)))]>
  (request 7.0))).

(** The degenerate geometry of the spec: the liner wider than the hole. *)
Definition degenerate_request : gmap string pyval := with_hole 8.5 (request 10.0).

(** A negative open-hole diameter below the liner's. *)
Definition negative_hole_request : gmap string pyval :=
  with_hole (-8.5) (request 7.0).

(** A liner diameter whose square is past the largest double. *)
Definition huge_od_request : gmap string pyval := request 1e200.

(** A casing with a key the dataclass has no field for. *)
Definition extra_key_request : gmap string pyval :=
  <["casing" := PDict (<["weight" := PFloat 47.0]> (pipe 9.625))]> (request 7.0).

(** ** Notions of the further properties *)

(** The keys of a payload [Engine.calculate] looks up. *)
Definition engine_keys : list string :=
  ["casing"; "liner"; "dp1"; "dp2"; "mud"; "holeOverlap"].

(** The optional numbers [Engine.calculate] converts with [float], each with
    the default it falls back to. *)
Definition optional_numbers : list (string * string * pyval) :=
  [("mud", "ppg", PFloat 13.0); ("holeOverlap", "openHoleId", PFloat 8.5);
   ("holeOverlap", "linerOverlap", PInt 300);
   ("holeOverlap", "shoeTrackLength", PInt 200)].

(** A binary64 value that does not compare below zero: a NaN, a zero of
    either sign, or a positive number or infinity. *)
Definition not_negative (sf : spec_float) : Prop :=
  match sf with
  | S754_nan | S754_zero _ => True
  | S754_infinity s | S754_finite s _ _ => s = false
  end.

(** A coercion under which a float field takes a float and a string field a
    string as they are. *)
Definition lossless (co : Coercion) : Prop :=
  (forall x : float, validate_float (PFloat x) = Some x)
  /\ (forall s : string, validate_str (PStr s) = Some s).

(** Both lengths of the model came from the body, not from the defaults. *)
Definition float_lengths (h : HoleOverlapModel.t) : Prop :=
  (exists x : float, HoleOverlapModel.linerOverlap h = PFloat x)
  /\ (exists x : float, HoleOverlapModel.shoeTrackLength h = PFloat x).

(** The request model of [full_request]. *)
Definition pipe_model (od : float) (grade : string) : PipeModel.t :=
  PipeModel.mk od 6.0 29.0 1500.0 9000.0 8800.0 grade.

Definition full_model : CalcRequest.t :=
  CalcRequest.mk (pipe_model 9.625 "") (pipe_model 7.0 "") (pipe_model 5.0 "")
    (Some (pipe_model 3.5 "S-135")) (MudModel.mk 13.0)
    (HoleOverlapModel.mk 8.5 (PFloat 300.0) (PFloat 200.0)).

(** A request whose [mud] is [None] rather than absent. *)
Definition null_mud_request : gmap string pyval := <["mud" := PNone]> (request 7.0).

(** The scenario with both diameters negated. *)
Definition mirrored_request : gmap string pyval := with_hole (-8.5) (request (-7.0)).

(** A value Python divides by an int: a float, an int or a bool. *)
Definition is_number (v : option pyval) : bool :=
  match v with
  | Some (PFloat _ | PInt _ | PBool _) => true
  | _ => false
  end.

(** [mud] and [holeOverlap] with the defaults written out. *)
Definition default_mud : pyval := PDict (<["ppg" := PFloat 13.0]> ∅).

Definition default_hole : pyval :=
  PDict (<["openHoleId" := PFloat 8.5]> (<["linerOverlap" := PFloat 300.0]>
        (<["shoeTrackLength" := PFloat 200.0]> ∅))).

(** ** Notions of the clamp and of the errors *)

(** [x <= n] for a float and an int: Python decides it on the exact values,
    without converting the int. *)
Definition float_le_int (x : float) (n : Z) : bool :=
  match Prim2SF x with
  | S754_nan => false
  | S754_infinity s => s
  | S754_zero _ => 0 <=? n
  | S754_finite s m e =>
      let v := if s then Zneg m else Zpos m in
      if 0 <=? e then v * 2 ^ e <=? n else v <=? n * 2 ^ (- e)
  end.

(** [x <= v] for a float and a number (a bool is the int 0 or 1). *)
Definition float_le (x : float) (v : pyval) : bool :=
  match v with
  | PFloat y => (x <=? y)%float
  | PInt n => float_le_int x n
  | PBool b => float_le_int x (Py.int_of_bool b)
  | PNone | PStr _ | PList _ | PDict _ => false
  end.

(** The power operator at 2 does not decrease as a non-negative argument
    grows. C leaves the accuracy of [pow] to the platform and does not
    promise this; the correctly rounded [pow] has it. *)
Definition monotone_pow (rt : Runtime) : Prop :=
  forall x y s t : float,
    (0 <=? x)%float = true -> (x <=? y)%float = true ->
    Py.float_pow2 x = Ok s -> Py.float_pow2 y = Ok t ->
    (s <=? t)%float = true.

(** The values the formula reads are numbers where they are given: floats,
    ints or bools. *)
Definition numeric (payload : gmap string pyval) : bool :=
  is_number (field payload "liner" "od")
  && absent_or is_number (field payload "mud" "ppg")
  && absent_or is_number (field payload "holeOverlap" "openHoleId")
  && absent_or is_number (field payload "holeOverlap" "linerOverlap")
  && absent_or is_number (field payload "holeOverlap" "shoeTrackLength").

(** The degenerate geometry over an infinite liner overlap. *)
Definition infinite_overlap_request : gmap string pyval :=
  <["holeOverlap" := PDict (<["openHoleId" := PFloat 8.5]>
                           (<["linerOverlap" := PFloat infinity]> ∅))]>
  (request 10.0).

(** Both diameters given as ints. *)
Definition int_liner_request (od open_hole_id : Z) : gmap string pyval :=
  <["liner" := PDict (<["od" := PInt od]> (pipe 7.0))]>
  (<["holeOverlap" := PDict (<["openHoleId" := PInt open_hole_id]> ∅)]>
   (request 7.0)).

(** The same int, of 56 bits, for both diameters: [float] rounds the hole's
    up, the liner's is divided as it is. *)
Definition equal_ints_request : gmap string pyval :=
  int_liner_request 37478980489088847 37478980489088847.

Definition int_pipe (od : Z) : gmap string pyval :=
  <["od" := PInt od]> (<["id" := PInt 6]> (<["wt" := PInt 29]>
  (<["length" := PInt 1500]> (<["md" := PInt 9000]> (<["tvd" := PInt 8800]> ∅))))).

(** A request whose numbers are all ints. *)
Definition int_request : gmap string pyval :=
  <["casing" := PDict (int_pipe 10)]> (<["liner" := PDict (int_pipe 7)]>
  (<["dp1" := PDict (int_pipe 5)]>
  (<["mud" := PDict (<["ppg" := PInt 13]> ∅)]>
  (<["holeOverlap" := PDict (<["openHoleId" := PInt 9]>
                             (<["linerOverlap" := PInt 300]>
                             (<["shoeTrackLength" := PInt 200]> ∅)))]> ∅)))).

(** ** Rounding to binary64, in integers

    [SpecFloat] rounds a positive value given as a mantissa, an exponent
    and the position of what was cut off. The definitions below say the same
    on a value [N / K * 2 ^ e] with integers [N >= 0] and [K > 0], which is
    how the statements on the order of rounded values are proved. *)

(** Where a remainder [r] of a division by [K] stands: 0 for none, then
    below, at and above one half. *)
Definition half_position (r K : Z) : Z :=
  if r =? 0 then 0
  else match 2 * r ?= K with Lt => 1 | Eq => 2 | Gt => 3 end.

(** The quotient [N / K] in quarters, the last two bits telling where the
    remainder stands. *)
Definition sticky_quotient (N K : Z) : Z :=
  4 * (N / K) + half_position (N mod K) K.

(** A shift record read as such a quotient. *)
Definition shr_value (mrs : shr_record) : Z :=
  4 * shr_m mrs + (if shr_r mrs then 2 else 0) + (if shr_s mrs then 1 else 0).

(** One more bit shifted out. *)
Definition sticky_half (W : Z) : Z :=
  2 * (W / 4) + (if W mod 4 =? 0 then 0 else 1).

(** To the nearest integer, ties to even. *)
Definition nearest_even (W : Z) : Z :=
  let m := W / 4 in
  let c := W mod 4 in
  if c <=? 1 then m
  else if c =? 2 then (if Z.even m then m else m + 1)
  else m + 1.

Definition location_of (r K : Z) : location :=
  if r =? 0 then loc_Exact else loc_Inexact (2 * r ?= K).

(** The exponent binary64 gives a value of that many digits. *)
Definition rounded_exponent (N K e : Z) : Z :=
  fexp prec emax (Zdigits2 (N / K) + e).

(** The mantissa at that exponent, under a rounding [r] of quotients. *)
Definition rounded (r : Z -> Z -> Z) (N K e : Z) : Z :=
  r N (K * 2 ^ (rounded_exponent N K e - e)).

Definition nearest (N K : Z) : Z := nearest_even (sticky_quotient N K).

(** [binary_round_aux] on the positive value [N / K * 2 ^ e]: rounded to
    nearest, renormalised when the mantissa grew by a bit, and an infinity
    past the largest exponent. *)
Definition round_pos (N K e : Z) : spec_float :=
  let E1 := rounded_exponent N K e in
  let m1 := rounded nearest N K e in
  let E2 := rounded_exponent m1 1 E1 in
  match rounded Z.div m1 1 E1 with
  | Z0 => S754_zero false
  | Zpos m =>
      if E2 <=? emax - prec then S754_finite false m E2 else S754_infinity false
  | Zneg _ => S754_nan
  end.

(** The exponent [SFdiv] divides at. *)
Definition div_exponent (m1 : positive) (e1 : Z) (m2 : positive) (e2 : Z) : Z :=
  Z.min (fexp prec emax (Zpos (digits2_pos m1) + e1 - (Zpos (digits2_pos m2) + e2)))
        (e1 - e2).

(** ** The result monad *)

Lemma bind_Ok {A B} (m : result A) (f : A -> result B) (b : B) :
  m ≫= f = Ok b <-> exists a, m = Ok a /\ f a = Ok b.
Proof.
  destruct m as [a|e]; simpl; split.
  - intros Hf. exists a. split; [reflexivity|exact Hf].
  - intros (a' & Ha & Hf). injection Ha as ->. exact Hf.
  - discriminate.
  - intros (a' & Ha & _). discriminate.
Qed.

Lemma returns_Ok {A} (m : result A) : returns m <-> exists a, m = Ok a.
Proof.
  destruct m as [a|e]; simpl; split; try contradiction.
  - intros _. exists a. reflexivity.
  - intros _. exact I.
  - intros (a & Ha). discriminate.
Qed.

(** Split an equation [x ← m; k = Ok b] into its two steps. *)
Ltac step H :=
  let a := fresh "a" in
  let Ha := fresh "E" in
  apply bind_Ok in H; destruct H as (a & Ha & H).

(** ** Dicts and the dataclass constructor *)

Lemma getitem_Ok (d : gmap string pyval) (k : string) (v : pyval) :
  Py.getitem d k = Ok v <-> d !! k = Some v.
Proof.
  unfold Py.getitem. destruct (d !! k); split; intros Hv;
    first [injection Hv as ->; reflexivity | discriminate].
Qed.

Lemma getitem_missing (d : gmap string pyval) (k : string) :
  d !! k = None -> Py.getitem d k = Raise (KeyError k).
Proof. unfold Py.getitem. intros ->. reflexivity. Qed.

Lemma required_argument_Ok (kw : gmap string pyval) (k : string) (v : pyval) :
  Engine.required_argument kw k = Ok v <-> kw !! k = Some v.
Proof.
  unfold Engine.required_argument. destruct (kw !! k); split; intros Hv;
    first [injection Hv as ->; reflexivity | discriminate].
Qed.

Lemma accepts_required (kw : gmap string pyval) (k : string) :
  accepts kw = true -> k ∈ Engine.required_fields -> is_Some (kw !! k).
Proof.
  unfold accepts. intros [_ Hall]%andb_prop Hk.
  rewrite forallb_forall in Hall.
  apply (bool_decide_eq_true_1 (is_Some (kw !! k))).
  apply Hall. apply list_elem_of_In. exact Hk.
Qed.

(** The constructor returns exactly on the keyword sets [accepts] describes,
    and then stores what was passed. *)
Lemma new_PipeSection_Ok (v : pyval) (s : PipeSection.t) :
  Engine.new_PipeSection v = Ok s <->
  exists kw, v = PDict kw /\ accepts kw = true
    /\ kw !! "od" = Some (PipeSection.od s)
    /\ kw !! "id" = Some (PipeSection.id s)
    /\ kw !! "wt" = Some (PipeSection.wt s)
    /\ kw !! "length" = Some (PipeSection.length s)
    /\ kw !! "md" = Some (PipeSection.md s)
    /\ kw !! "tvd" = Some (PipeSection.tvd s)
    /\ Py.dict_get kw "grade" (PStr "") = PipeSection.grade s.
Proof.
  split.
  - destruct v as [| | | | | |kw]; simpl; try discriminate.
    destruct (Engine.unexpected_keyword kw) eqn:Hunexp; [discriminate|].
    intros Hs. do 6 step Hs. injection Hs as <-. simpl.
    repeat match goal with
           | E : Engine.required_argument _ _ = Ok _ |- _ =>
               apply required_argument_Ok in E
           end.
    exists kw. unfold accepts. rewrite Hunexp. simpl.
    repeat match goal with
           | E : kw !! _ = Some _ |- _ => rewrite E; clear E
           end.
    repeat split; reflexivity.
  - intros (kw & -> & Hacc & Hod & Hid & Hwt & Hlen & Hmd & Htvd & Hgrade).
    simpl. apply andb_prop in Hacc as [Hunexp _].
    apply negb_true_iff in Hunexp. rewrite Hunexp.
    unfold Engine.required_argument.
    rewrite Hod, Hid, Hwt, Hlen, Hmd, Htvd. simpl. rewrite Hgrade.
    destruct s; reflexivity.
Qed.

Lemma new_PipeSection_accepts (kw : gmap string pyval) :
  accepts kw = true -> returns (Engine.new_PipeSection (PDict kw)).
Proof.
  intros Hacc.
  assert (Hreq : forall k, k ∈ Engine.required_fields -> is_Some (kw !! k))
    by (intros k; apply accepts_required; exact Hacc).
  destruct (Hreq "od") as [od Hod]; [set_solver|].
  destruct (Hreq "id") as [id Hid]; [set_solver|].
  destruct (Hreq "wt") as [wt Hwt]; [set_solver|].
  destruct (Hreq "length") as [len Hlen]; [set_solver|].
  destruct (Hreq "md") as [md Hmd]; [set_solver|].
  destruct (Hreq "tvd") as [tvd Htvd]; [set_solver|].
  apply returns_Ok.
  exists (PipeSection.mk od id wt len md tvd (Py.dict_get kw "grade" (PStr ""))).
  apply new_PipeSection_Ok. exists kw. simpl. repeat split; assumption.
Qed.

Lemma new_PipeSection_rejects (v : pyval) :
  is_section (Some v) = false -> Engine.new_PipeSection v = Raise TypeError.
Proof.
  destruct v as [| | | | | |kw]; simpl; try reflexivity.
  intros Hacc.
  destruct (Engine.new_PipeSection (PDict kw)) as [s|e] eqn:Hnew.
  - apply new_PipeSection_Ok in Hnew as (kw' & [= <-] & Hacc' & _). congruence.
  - revert Hnew. simpl. unfold Engine.required_argument.
    repeat case_match; simpl; congruence.
Qed.

(** A required section: the lookup and the constructor in one step. *)
Lemma section_Ok (payload : gmap string pyval) (k : string) (s : PipeSection.t) :
  Py.getitem payload k ≫= Engine.new_PipeSection = Ok s ->
  is_section (payload !! k) = true /\ field payload k "od" = Some (PipeSection.od s).
Proof.
  intros Hs. step Hs. apply getitem_Ok in E.
  apply new_PipeSection_Ok in Hs as (kw & -> & Hacc & Hod & _).
  unfold field. rewrite E. simpl. split; assumption.
Qed.

Lemma section_returns (payload : gmap string pyval) (k : string) :
  is_section (payload !! k) = true ->
  returns (Py.getitem payload k ≫= Engine.new_PipeSection).
Proof.
  unfold Py.getitem. destruct (payload !! k) as [[| | | | | |kw]|]; simpl;
    try discriminate.
  intros Hacc. exact (new_PipeSection_accepts kw Hacc).
Qed.

(** ** The steps of [Engine.calculate] *)

Section Steps.

Context {rt : Runtime}.

(** A nested optional number returns only when its outer structure is
    absent or a dict, and then converts the field or the default. *)
Lemma nested_float_Ok (payload : gmap string pyval) (outer inner : string)
    (dflt : pyval) (x : float) :
  Engine.nested_float payload outer inner dflt = Ok x <->
  absent_or is_dict (payload !! outer) = true
  /\ Py.float_of (default dflt (field payload outer inner)) = Ok x.
Proof.
  unfold Engine.nested_float, field, Py.dict_get.
  destruct (payload !! outer) as [[| | | | | |d]|]; simpl;
    try (split; [discriminate | intros [? _]; discriminate]).
  - unfold Py.dict_get. split; [intros Hx; split; [reflexivity|exact Hx]|].
    intros [_ Hx]. exact Hx.
  - split; [intros Hx; split; [reflexivity|exact Hx]|]. intros [_ Hx]. exact Hx.
Qed.

Lemma nested_float_field (payload : gmap string pyval) (outer inner : string)
    (dflt : pyval) :
  absent_or is_dict (payload !! outer) = true ->
  Engine.nested_float payload outer inner dflt
  = Py.float_of (default dflt (field payload outer inner)).
Proof.
  unfold Engine.nested_float, field, Py.dict_get.
  destruct (payload !! outer) as [[| | | | | |d]|]; simpl; try discriminate.
  - reflexivity.
  - reflexivity.
Qed.

(** Everything [calculate_body] established by the time it returns. *)
Lemma calculate_body_Ok (payload : gmap string pyval)
    (find_tvd : option (float -> result float)) (l : Engine.locals) :
  Engine.calculate_body payload find_tvd = Ok l <->
  exists a_hole a_liner,
    Py.getitem payload "casing" ≫= Engine.new_PipeSection = Ok (Engine.casing l)
    /\ Py.getitem payload "liner" ≫= Engine.new_PipeSection = Ok (Engine.liner l)
    /\ Py.getitem payload "dp1" ≫= Engine.new_PipeSection = Ok (Engine.dp1 l)
    /\ Engine.new_PipeSection (Py.dict_get payload "dp2" Engine.dp2_default)
       = Ok (Engine.dp2 l)
    /\ Engine.nested_float payload "mud" "ppg" (PFloat 13.0)
       = Ok (Engine.mud_ppg l)
    /\ Engine.nested_float payload "holeOverlap" "openHoleId" (PFloat 8.5)
       = Ok (Engine.open_hole_id l)
    /\ Engine.area_ft2 (PFloat (Engine.open_hole_id l)) = Ok a_hole
    /\ Engine.area_ft2 (PipeSection.od (Engine.liner l)) = Ok a_liner
    /\ Engine.annulus_area l = Py.max 0.0 (a_hole - a_liner)
    /\ Engine.nested_float payload "holeOverlap" "linerOverlap" (PInt 300)
       = Ok (Engine.liner_overlap_ft l)
    /\ Engine.nested_float payload "holeOverlap" "shoeTrackLength" (PInt 200)
       = Ok (Engine.shoe_track_ft l)
    /\ Engine.cement_interval l
       = (Engine.liner_overlap_ft l + Engine.shoe_track_ft l)%float
    /\ Engine.cement_volume_bbl l
       = (Engine.annulus_area l * Engine.cement_interval l
          * Engine.BBL_PER_CUFT)%float.
Proof.
  unfold Engine.calculate_body. split.
  - intros Hl. do 10 step Hl. injection Hl as <-. simpl.
    exists a5, a6. repeat split; assumption.
  - intros (a_hole & a_liner & Hc & Hli & Hd1 & Hd2 & Hppg & Hoh & Hah & Hal
            & Han & Hlo & Hst & Hci & Hcv).
    rewrite Hc. simpl. rewrite Hli. simpl. rewrite Hd1. simpl.
    rewrite Hd2. simpl. rewrite Hppg. simpl. rewrite Hoh. simpl.
    rewrite Hah. simpl. rewrite Hal. simpl. rewrite Hlo. simpl.
    rewrite Hst. simpl.
    destruct l. simpl in *. subst. reflexivity.
Qed.

(** The returned dict holds three of the locals. *)
Lemma calculate_Ok (payload : gmap string pyval)
    (find_tvd : option (float -> result float)) (r : Engine.response) :
  Engine.calculate payload find_tvd = Ok r <->
  exists l, Engine.calculate_body payload find_tvd = Ok l
    /\ r = Engine.mk_response (Engine.cement_volume_bbl l) (Engine.mud_ppg l)
             (Engine.annulus_area l).
Proof.
  unfold Engine.calculate. rewrite bind_Ok.
  split; intros (l & Hl & Hr); exists l; split; congruence.
Qed.

End Steps.

(** ** Binary64 facts the clamp relies on *)

Lemma ltb_leb (a b : float) : (a <? b)%float = true -> (a <=? b)%float = true.
Proof.
  rewrite FloatAxioms.ltb_spec, FloatAxioms.leb_spec. unfold SFltb, SFleb.
  destruct (SFcompare (Prim2SF a) (Prim2SF b)) as [[]|]; congruence.
Qed.

(** [max(0.0, x)] is [x] when [x] compares greater than zero and [0.0]
    otherwise, also for a NaN. *)
Lemma max_zero_cases (x : float) :
  ((0 <? x)%float = true /\ Py.max 0 x = x)
  \/ ((0 <? x)%float = false /\ Py.max 0 x = 0%float).
Proof.
  unfold Py.max. destruct (0 <? x)%float; [left|right]; split; reflexivity.
Qed.

Lemma max_zero_nonneg (x : float) : (0 <=? Py.max 0 x)%float = true.
Proof.
  destruct (max_zero_cases x) as [[Hpos ->]|[_ ->]].
  - apply ltb_leb. exact Hpos.
  - reflexivity.
Qed.

Lemma max_zero_not_nan (x : float) : is_nan (Py.max 0 x) = false.
Proof.
  pose proof (max_zero_nonneg x) as Hle.
  unfold is_nan. rewrite FloatAxioms.eqb_spec.
  rewrite FloatAxioms.leb_spec in Hle.
  unfold SFleb in Hle. unfold SFeqb.
  change (Prim2SF 0) with (S754_zero false) in Hle.
  destruct (Prim2SF (Py.max 0 x)) as [s|s| |s m e]; simpl in *;
    try reflexivity; try discriminate.
  - destruct s; reflexivity.
  - destruct s; [discriminate|]. rewrite Z.compare_refl.
    rewrite Pos.compare_cont_refl. reflexivity.
Qed.

(** A zero annulus gives a zero volume over any finite interval: the
    product keeps a zero, of either sign. *)
Lemma zero_volume (interval : float) :
  is_finite interval = true ->
  is_zero (0 * interval * Engine.BBL_PER_CUFT)%float = true.
Proof.
  unfold is_finite, is_nan, is_infinity, is_zero.
  rewrite !FloatAxioms.eqb_spec, abs_spec, !mul_spec.
  change (Prim2SF 0) with (S754_zero false).
  change (Prim2SF zero) with (S754_zero false).
  change (Prim2SF infinity) with (S754_infinity false).
  let sf := eval vm_compute in (Prim2SF Engine.BBL_PER_CUFT) in
  change (Prim2SF Engine.BBL_PER_CUFT) with sf.
  destruct (Prim2SF interval) as [s|s| |s m e]; intros Hfinite;
    try destruct s;
    first [reflexivity | vm_compute in Hfinite; discriminate].
Qed.

(** ** Squaring under the exact runtime *)

Lemma SFeqb_refl (sf : spec_float) : sf <> S754_nan -> SFeqb sf sf = true.
Proof.
  unfold SFeqb. destruct sf as [s|s| |s m e]; simpl; try congruence; intros _.
  - destruct s; reflexivity.
  - rewrite Z.compare_refl, Pos.compare_cont_refl. destruct s; reflexivity.
Qed.

Lemma is_nan_Prim2SF (x : float) : is_nan x = true -> Prim2SF x = S754_nan.
Proof.
  unfold is_nan. rewrite FloatAxioms.eqb_spec. intros Hnan.
  destruct (Prim2SF x) as [s|s| |s m e] eqn:Hx; try reflexivity;
    rewrite SFeqb_refl in Hnan by discriminate; discriminate.
Qed.

Lemma is_infinity_Prim2SF (x : float) :
  is_infinity x = true -> exists s, Prim2SF x = S754_infinity s.
Proof.
  unfold is_infinity. rewrite FloatAxioms.eqb_spec, abs_spec.
  change (Prim2SF infinity) with (S754_infinity false).
  destruct (Prim2SF x) as [s|s| |s m e]; try discriminate. eauto.
Qed.

Lemma eqb_zero_Prim2SF (x : float) :
  (x =? 0)%float = true -> exists s, Prim2SF x = S754_zero s.
Proof.
  rewrite FloatAxioms.eqb_spec. change (Prim2SF 0) with (S754_zero false).
  destruct (Prim2SF x) as [s|s| |s m e]; try discriminate; eauto.
  - destruct s; discriminate.
  - destruct s; discriminate.
Qed.

Lemma eqb_one (x : float) : (x =? 1)%float = true -> x = 1%float.
Proof.
  rewrite FloatAxioms.eqb_spec. intros Heq. apply Prim2SF_inj. revert Heq.
  let sf := eval vm_compute in (Prim2SF 1) in change (Prim2SF 1) with sf.
  unfold SFeqb.
  destruct (Prim2SF x) as [s|s| |s m e]; cbn [SFcompare];
    try (destruct s; discriminate); try discriminate.
  destruct s; [discriminate|].
  destruct (e ?= -52) eqn:He; try discriminate.
  apply Z.compare_eq in He. subst e.
  destruct (PosDef.Pos.compare_cont Eq m 4503599627370496) eqn:Hm;
    try discriminate.
  apply Pos.compare_eq in Hm. subst m. reflexivity.
Qed.

Lemma mul_opp_opp (x : float) : (- x * - x)%float = (x * x)%float.
Proof.
  apply Prim2SF_inj. rewrite !mul_spec, opp_spec. unfold SF64mul.
  destruct (Prim2SF x) as [s|s| |s m e]; simpl; try reflexivity;
    destruct s; reflexivity.
Qed.

Lemma opp_one (x : float) : (- x)%float = 1%float -> x = (-1)%float.
Proof.
  intros Hopp. apply Prim2SF_inj.
  apply (f_equal Prim2SF) in Hopp. rewrite opp_spec in Hopp.
  apply (f_equal SFopp) in Hopp.
  assert (Hinv : forall sf, SFopp (SFopp sf) = sf).
  { intros [s|s| |s m e]; simpl; rewrite ?negb_involutive; reflexivity. }
  rewrite Hinv in Hopp. rewrite Hopp. vm_compute. reflexivity.
Qed.

(** With a correctly rounded libm the power operator at 2 is the float
    product, whenever it returns. *)
Lemma float_pow2_exact (x s : float) :
  Py.float_pow2 (rt := exact_runtime) x = Ok s -> s = (x * x)%float.
Proof.
  unfold Py.float_pow2.
  destruct (is_nan x) eqn:Hnan.
  { intros [= <-]. apply is_nan_Prim2SF in Hnan.
    apply Prim2SF_inj. rewrite mul_spec, Hnan. reflexivity. }
  destruct (is_infinity x) eqn:Hinf.
  { intros [= <-]. apply is_infinity_Prim2SF in Hinf as [sx Hx].
    apply Prim2SF_inj. rewrite mul_spec, abs_spec, Hx. destruct sx; reflexivity. }
  destruct (x =? 0)%float eqn:Hzero.
  { intros [= <-]. apply eqb_zero_Prim2SF in Hzero as [sx Hx].
    apply Prim2SF_inj. rewrite mul_spec, Hx. destruct sx; reflexivity. }
  destruct (x <? 0)%float eqn:Hneg.
  - destruct (- x =? 1)%float eqn:Hone.
    + intros [= <-]. apply eqb_one, opp_one in Hone. subst x. reflexivity.
    + simpl. destruct (is_infinity (- x * - x)); [discriminate|].
      intros [= <-]. apply mul_opp_opp.
  - destruct (x =? 1)%float eqn:Hone.
    + intros [= <-]. apply eqb_one in Hone. subst x. reflexivity.
    + simpl. destruct (is_infinity (x * x)); [discriminate|].
      intros [= <-]. reflexivity.
Qed.

(** ** The volume formula *)



(** ** The mud weight *)



(** ** The depth-lookup callback *)

(** C8. [find_tvd] is never called: the outcome of [Engine.calculate],
    result or exception, is the same under any two callbacks, [None]
    included. *)
Theorem find_tvd_never_invoked {rt : Runtime}
    (payload : gmap string pyval) (f g : option (float -> result float)) :
  Engine.calculate payload f = Engine.calculate payload g.
Proof.
  reflexivity.
Qed.

(** ** Defaults *)

Lemma dp2_default_section : Engine.new_PipeSection Engine.dp2_default = Ok zero_section.
Proof. vm_compute. reflexivity. Qed.

Lemma int_to_float_300 : Py.int_to_float 300 = Ok 300%float.
Proof. vm_compute. reflexivity. Qed.

Lemma int_to_float_200 : Py.int_to_float 200 = Ok 200%float.
Proof. vm_compute. reflexivity. Qed.

Lemma field_absent (payload : gmap string pyval) (outer inner : string) :
  payload !! outer = None -> field payload outer inner = None.
Proof. unfold field. intros ->. reflexivity. Qed.

(** C4. When [Engine.calculate] reaches its return statement, every optional
    part the request left out has its default: 13.0 for the mud weight, 8.5,
    300 and 200 for the hole diameter, the liner overlap and the shoe track,
    each on its own when only that key is missing, and the all-zero section
    with empty grade for [dp2]; with [mud] left out the returned [mudPPG] is
    13.0. *)
Theorem omitted_optionals_default {rt : Runtime}
    (payload : gmap string pyval) (find_tvd : option (float -> result float))
    (l : Engine.locals) :
  Engine.calculate_body payload find_tvd = Ok l ->
  (payload !! "mud" = None -> payload !! "holeOverlap" = None ->
   payload !! "dp2" = None ->
   Engine.mud_ppg l = 13.0%float
   /\ Engine.open_hole_id l = 8.5%float
   /\ Engine.liner_overlap_ft l = 300%float
   /\ Engine.shoe_track_ft l = 200%float
   /\ Engine.dp2 l = zero_section
   /\ exists r, Engine.calculate payload find_tvd = Ok r
        /\ Engine.mudPPG r = 13.0%float)
  /\ (field payload "mud" "ppg" = None -> Engine.mud_ppg l = 13.0%float)
  /\ (field payload "holeOverlap" "openHoleId" = None ->
      Engine.open_hole_id l = 8.5%float)
  /\ (field payload "holeOverlap" "linerOverlap" = None ->
      Engine.liner_overlap_ft l = 300%float)
  /\ (field payload "holeOverlap" "shoeTrackLength" = None ->
      Engine.shoe_track_ft l = 200%float)
  /\ (payload !! "dp2" = None -> Engine.dp2 l = zero_section).
Proof.
  intros Hl.
  assert (Hr : Engine.calculate payload find_tvd
               = Ok (Engine.mk_response (Engine.cement_volume_bbl l)
                       (Engine.mud_ppg l) (Engine.annulus_area l)))
    by (apply calculate_Ok; exists l; split; [exact Hl|reflexivity]).
  apply calculate_body_Ok in Hl
    as (a_hole & a_liner & _ & _ & _ & Hdp2 & Hppg & Hoh & _ & _ & _ & Hlo & Hst & _).
  apply nested_float_Ok in Hppg as [_ Hppg].
  apply nested_float_Ok in Hoh as [_ Hoh].
  apply nested_float_Ok in Hlo as [_ Hlo].
  apply nested_float_Ok in Hst as [_ Hst].
  assert (Hmud : field payload "mud" "ppg" = None -> Engine.mud_ppg l = 13.0%float).
  { intros Hnone. rewrite Hnone in Hppg. simpl in Hppg. congruence. }
  assert (Hhole : field payload "holeOverlap" "openHoleId" = None ->
                  Engine.open_hole_id l = 8.5%float).
  { intros Hnone. rewrite Hnone in Hoh. simpl in Hoh. congruence. }
  assert (Hover : field payload "holeOverlap" "linerOverlap" = None ->
                  Engine.liner_overlap_ft l = 300%float).
  { intros Hnone. rewrite Hnone in Hlo. simpl in Hlo.
    rewrite int_to_float_300 in Hlo. congruence. }
  assert (Hshoe : field payload "holeOverlap" "shoeTrackLength" = None ->
                  Engine.shoe_track_ft l = 200%float).
  { intros Hnone. rewrite Hnone in Hst. simpl in Hst.
    rewrite int_to_float_200 in Hst. congruence. }
  assert (Hzero : payload !! "dp2" = None -> Engine.dp2 l = zero_section).
  { intros Hnone. unfold Py.dict_get in Hdp2. rewrite Hnone in Hdp2.
    simpl default in Hdp2. rewrite dp2_default_section in Hdp2. congruence. }
  repeat split; try assumption.
  - apply Hmud, field_absent. assumption.
  - apply Hhole, field_absent. assumption.
  - apply Hover, field_absent. assumption.
  - apply Hshoe, field_absent. assumption.
  - apply Hzero. assumption.
  - eexists. split; [exact Hr|]. simpl. apply Hmud, field_absent. assumption.
Qed.

Lemma omitted_optionals_default_witness :
  exists l : Engine.locals,
    Engine.calculate_body (rt := exact_runtime) (request 7.0) None = Ok l
    /\ Engine.mud_ppg l = 13.0%float
    /\ Engine.open_hole_id l = 8.5%float
    /\ Engine.liner_overlap_ft l = 300%float
    /\ Engine.shoe_track_ft l = 200%float
    /\ Engine.dp2 l = zero_section
    /\ exists r, Engine.calculate (rt := exact_runtime) (request 7.0) None = Ok r
         /\ Engine.mudPPG r = 13.0%float.
Proof.
  destruct (Engine.calculate_body (rt := exact_runtime) (request 7.0) None)
    as [l|e] eqn:Hl; [|vm_compute in Hl; discriminate].
  exists l. split; [reflexivity|].
  apply (omitted_optionals_default (rt := exact_runtime) (request 7.0) None l Hl);
    vm_compute; reflexivity.
Defined.

(** ** What the result depends on *)

Lemma bind_Ok_eq {A B} (m : result A) (f : A -> result B) (a : A) :
  m = Ok a -> m ≫= f = f a.
Proof. intros ->. reflexivity. Qed.

Lemma optional_section_returns (payload : gmap string pyval) :
  absent_or is_section (payload !! "dp2") = true ->
  returns (Engine.new_PipeSection (Py.dict_get payload "dp2" Engine.dp2_default)).
Proof.
  unfold Py.dict_get. destruct (payload !! "dp2") as [v|] eqn:Hdp2.
  - destruct v as [| | | | | |kw]; try discriminate.
    intros Hacc. exact (new_PipeSection_accepts kw Hacc).
  - intros _. simpl default. rewrite dp2_default_section. exact I.
Qed.

(** The parts of a well-formed request, one hypothesis each. *)
Lemma well_formed_parts (payload : gmap string pyval) :
  well_formed payload = true ->
  is_section (payload !! "casing") = true
  /\ is_section (payload !! "liner") = true
  /\ is_section (payload !! "dp1") = true
  /\ absent_or is_section (payload !! "dp2") = true
  /\ absent_or is_dict (payload !! "mud") = true
  /\ absent_or is_dict (payload !! "holeOverlap") = true.
Proof.
  unfold well_formed. rewrite !andb_true_iff. tauto.
Qed.

Section Dependence.

Context {rt : Runtime}.

(** What is left of [calculate] once the sections are built: a function of
    the liner's diameter and the four optional numbers. *)
Lemma calculate_well_formed (payload : gmap string pyval)
    (find_tvd : option (float -> result float)) :
  well_formed payload = true ->
  exists od : pyval,
    field payload "liner" "od" = Some od
    /\ Engine.calculate payload find_tvd
       = (mud_ppg ← Py.float_of (default (PFloat 13.0) (field payload "mud" "ppg"));
          open_hole_id ← Py.float_of
            (default (PFloat 8.5) (field payload "holeOverlap" "openHoleId"));
          a_hole ← Engine.area_ft2 (PFloat open_hole_id);
          a_liner ← Engine.area_ft2 od;
          liner_overlap_ft ← Py.float_of
            (default (PInt 300) (field payload "holeOverlap" "linerOverlap"));
          shoe_track_ft ← Py.float_of
            (default (PInt 200) (field payload "holeOverlap" "shoeTrackLength"));
          Ok (Engine.mk_response
                (Py.max 0.0 (a_hole - a_liner)
                 * (liner_overlap_ft + shoe_track_ft) * Engine.BBL_PER_CUFT)%float
                mud_ppg
                (Py.max 0.0 (a_hole - a_liner)))).
Proof.
  intros (Hcasing & Hliner & Hdp1 & Hdp2 & Hmud & Hhole)%well_formed_parts.
  apply section_returns, returns_Ok in Hcasing as [casing Hcasing].
  apply section_returns, returns_Ok in Hliner as [liner Hliner].
  apply section_returns, returns_Ok in Hdp1 as [dp1 Hdp1].
  apply optional_section_returns, returns_Ok in Hdp2 as [dp2 Hdp2].
  exists (PipeSection.od liner). split.
  - apply section_Ok in Hliner as [_ Hod]. exact Hod.
  - unfold Engine.calculate, Engine.calculate_body.
    rewrite (bind_Ok_eq _ _ _ Hcasing), (bind_Ok_eq _ _ _ Hliner),
      (bind_Ok_eq _ _ _ Hdp1), (bind_Ok_eq _ _ _ Hdp2).
    rewrite !nested_float_field by assumption.
    destruct (Py.float_of (default (PFloat 13) (field payload "mud" "ppg")));
      [simpl|reflexivity].
    destruct (Py.float_of
                (default (PFloat 8.5) (field payload "holeOverlap" "openHoleId")));
      [simpl|reflexivity].
    destruct (Engine.area_ft2 (PFloat a0)); [simpl|reflexivity].
    destruct (Engine.area_ft2 (PipeSection.od liner)); [simpl|reflexivity].
    destruct (Py.float_of
                (default (PInt 300) (field payload "holeOverlap" "linerOverlap")));
      [simpl|reflexivity].
    destruct (Py.float_of
                (default (PInt 200) (field payload "holeOverlap" "shoeTrackLength")));
      reflexivity.
Qed.

End Dependence.

(** C5. Two well-formed requests that agree on [liner.od], [mud.ppg] and the
    three [holeOverlap] fields have the same outcome, the same three result
    fields or the same exception, however their casing, [dp1], [dp2] and the
    other liner fields differ (and whatever callback is passed). *)
Theorem result_depends_on_five_inputs {rt : Runtime}
    (payload1 payload2 : gmap string pyval)
    (f g : option (float -> result float)) :
  well_formed payload1 = true ->
  well_formed payload2 = true ->
  formula_inputs payload1 = formula_inputs payload2 ->
  Engine.calculate payload1 f = Engine.calculate payload2 g.
Proof.
  intros Hwf1 Hwf2 Hsame.
  destruct (calculate_well_formed payload1 f Hwf1) as (od1 & Hod1 & ->).
  destruct (calculate_well_formed payload2 g Hwf2) as (od2 & Hod2 & ->).
  unfold formula_inputs in Hsame.
  injection Hsame as Hod Hppg Hoh Hlo Hst.
  rewrite Hppg, Hoh, Hlo, Hst.
  rewrite Hod1, Hod2 in Hod. injection Hod as ->. reflexivity.
Qed.

(** Two requests that share the liner diameter and leave the optional
    numbers out, but differ in the casing, in the liner's other fields and
    in [dp2]. *)
Lemma result_depends_on_five_inputs_witness :
  Engine.calculate (rt := exact_runtime) (request 7.0) None
  = Engine.calculate (rt := exact_runtime)
      (<["casing" := PDict (<["grade" := PStr "L-80"]> (pipe 13.375))]>
       (<["liner" := PDict (<["wt" := PFloat 32.0]> (pipe 7.0))]>
        (<["dp2" := PDict (pipe 3.5)]> (request 7.0))))
      (Some (fun md => Ok md)).
Proof.
  apply (result_depends_on_five_inputs (rt := exact_runtime));
    vm_compute; reflexivity.
Defined.

(** ** Exceptions *)

Section Exceptions.

Context {rt : Runtime}.

(** Squaring raises nothing but [OverflowError]. *)
Lemma float_pow2_raises (x : float) (e : exn) :
  Py.float_pow2 x = Raise e -> e = OverflowError.
Proof.
  unfold Py.float_pow2. repeat case_match; congruence.
Qed.

Lemma area_ft2_float (d : float) :
  Engine.area_ft2 (PFloat d)
  = (s ← Py.float_pow2 (d / 12)%float; Ok (Py.math_pi * s / 4)%float).
Proof. reflexivity. Qed.

(** The first statement of [calculate] fails: so does the call. *)
Lemma calculate_casing_raises (payload : gmap string pyval)
    (find_tvd : option (float -> result float)) (e : exn) :
  Py.getitem payload "casing" ≫= Engine.new_PipeSection = Raise e ->
  Engine.calculate payload find_tvd = Raise e.
Proof.
  intros Hc. unfold Engine.calculate, Engine.calculate_body.
  rewrite Hc. reflexivity.
Qed.

Lemma calculate_liner_raises (payload : gmap string pyval)
    (find_tvd : option (float -> result float)) (e : exn) :
  is_section (payload !! "casing") = true ->
  Py.getitem payload "liner" ≫= Engine.new_PipeSection = Raise e ->
  Engine.calculate payload find_tvd = Raise e.
Proof.
  intros [casing Hc]%section_returns%returns_Ok Hl.
  unfold Engine.calculate, Engine.calculate_body.
  rewrite (bind_Ok_eq _ _ _ Hc), Hl. reflexivity.
Qed.

Lemma calculate_dp1_raises (payload : gmap string pyval)
    (find_tvd : option (float -> result float)) (e : exn) :
  is_section (payload !! "casing") = true ->
  is_section (payload !! "liner") = true ->
  Py.getitem payload "dp1" ≫= Engine.new_PipeSection = Raise e ->
  Engine.calculate payload find_tvd = Raise e.
Proof.
  intros [casing Hc]%section_returns%returns_Ok
         [liner Hl]%section_returns%returns_Ok Hd.
  unfold Engine.calculate, Engine.calculate_body.
  rewrite (bind_Ok_eq _ _ _ Hc), (bind_Ok_eq _ _ _ Hl), Hd. reflexivity.
Qed.

(** One of the first four statements fails: the call raises, with the
    exception of the earliest failure. *)
Lemma calculate_section_raises (payload : gmap string pyval)
    (find_tvd : option (float -> result float)) :
  raises (Py.getitem payload "casing" ≫= Engine.new_PipeSection)
  \/ raises (Py.getitem payload "liner" ≫= Engine.new_PipeSection)
  \/ raises (Py.getitem payload "dp1" ≫= Engine.new_PipeSection)
  \/ raises (Engine.new_PipeSection (Py.dict_get payload "dp2" Engine.dp2_default)) ->
  raises (Engine.calculate payload find_tvd).
Proof.
  unfold Engine.calculate, Engine.calculate_body.
  destruct (Py.getitem payload "casing" ≫= Engine.new_PipeSection);
    [simpl|intros _; exact I].
  destruct (Py.getitem payload "liner" ≫= Engine.new_PipeSection);
    [simpl|intros _; exact I].
  destruct (Py.getitem payload "dp1" ≫= Engine.new_PipeSection);
    [simpl|intros _; exact I].
  destruct (Engine.new_PipeSection (Py.dict_get payload "dp2" Engine.dp2_default));
    [simpl|intros _; exact I].
  tauto.
Qed.

Lemma missing_section (payload : gmap string pyval) (k : string) :
  payload !! k = None ->
  Py.getitem payload k ≫= Engine.new_PipeSection = Raise (KeyError k).
Proof. intros Hk. rewrite (getitem_missing _ _ Hk). reflexivity. Qed.

End Exceptions.

Lemma float_given (v : option pyval) :
  is_float v = true -> exists x : float, v = Some (PFloat x).
Proof.
  destruct v as [[| | |x| | |]|]; try discriminate. intros _. exists x. reflexivity.
Qed.

Lemma float_or_default {rt : Runtime} (v : option pyval) (dflt : pyval) :
  absent_or is_float v = true -> returns (Py.float_of dflt) ->
  returns (Py.float_of (default dflt v)).
Proof.
  destruct v as [[| | |x| | |]|]; try discriminate; simpl; trivial.
Qed.

(** ** Keys of a pipe section *)

(** [accepts] says in a boolean what [bad_keys] says in words. *)
Lemma bad_keys_accepts (kw : gmap string pyval) :
  bad_keys kw <-> accepts kw = false.
Proof.
  unfold bad_keys, accepts, Engine.unexpected_keyword.
  rewrite negb_involutive, andb_false_iff, bool_decide_eq_false. split.
  - intros [(k & Hin & Hout)|(k & Hreq & Hnone)].
    + left. intros Hsub. apply Hout.
      apply elem_of_dom in Hin. apply Hsub in Hin.
      apply elem_of_list_to_set in Hin. exact Hin.
    + right. apply not_true_iff_false. intros Hall.
      rewrite forallb_forall in Hall.
      apply list_elem_of_In, Hall in Hreq.
      apply (bool_decide_eq_true_1 (is_Some (kw !! k))) in Hreq.
      rewrite Hnone in Hreq. destruct Hreq as [v Hv]. discriminate.
  - intros [Hsub|Hall].
    + left.
      destruct (set_choose_or_empty
                  (dom kw ∖ list_to_set (C := gset string) Engine.fields))
        as [[k Hk]|Hempty].
      * apply elem_of_difference in Hk as [Hin Hout].
        exists k. split; [apply elem_of_dom; exact Hin|].
        intros Hfield. apply Hout. apply elem_of_list_to_set. exact Hfield.
      * exfalso. apply Hsub. intros k Hin.
        destruct (decide (k ∈ list_to_set (C := gset string) Engine.fields))
          as [Hyes|Hno]; [exact Hyes|].
        exfalso. apply (proj1 (elem_of_equiv_empty _) Hempty k).
        apply elem_of_difference. split; assumption.
    + right.
      assert (Hex : exists k, In k Engine.required_fields
                              /\ bool_decide (is_Some (kw !! k)) = false).
      { revert Hall. generalize Engine.required_fields.
        induction l as [|k l IH]; simpl; [discriminate|].
        rewrite andb_false_iff. intros [Hk|Hl].
        - exists k. split; [left; reflexivity|exact Hk].
        - destruct (IH Hl) as (k' & Hin & Hk'). exists k'.
          split; [right; exact Hin|exact Hk']. }
      destruct Hex as (k & Hin & Hk). exists k.
      split; [apply list_elem_of_In; exact Hin|].
      apply bool_decide_eq_false in Hk.
      destruct (kw !! k) as [v|]; [|reflexivity].
      exfalso. apply Hk. exists v. reflexivity.
Qed.

Lemma bad_keys_rejected (kw : gmap string pyval) :
  bad_keys kw -> Engine.new_PipeSection (PDict kw) = Raise TypeError.
Proof.
  intros Hbad%bad_keys_accepts. apply new_PipeSection_rejects. exact Hbad.
Qed.

(** C9. [PipeSection] raises [TypeError] on exactly the keyword sets that
    have a key outside its seven fields or lack one of the six required
    ones, and [Engine.calculate] raises for every payload whose [casing],
    [liner], [dp1] or supplied [dp2] is such a dict: no key is ignored and
    none is filled in. *)
Theorem pipe_section_rejects_bad_keys {rt : Runtime} :
  (forall kw : gmap string pyval,
      bad_keys kw <-> Engine.new_PipeSection (PDict kw) = Raise TypeError)
  /\ (forall kw : gmap string pyval,
         bad_keys kw \/ returns (Engine.new_PipeSection (PDict kw)))
  /\ (forall (payload : gmap string pyval)
        (find_tvd : option (float -> result float))
        (k : string) (kw : gmap string pyval),
         k ∈ ["casing"; "liner"; "dp1"; "dp2"] ->
         payload !! k = Some (PDict kw) ->
         bad_keys kw ->
         raises (Engine.calculate payload find_tvd)).
Proof.
  split; [|split].
  - intros kw. split; [apply bad_keys_rejected|].
    intros Hraise. apply bad_keys_accepts.
    destruct (accepts kw) eqn:Hacc; [|reflexivity].
    apply new_PipeSection_accepts in Hacc. rewrite Hraise in Hacc.
    contradiction.
  - intros kw. destruct (accepts kw) eqn:Hacc.
    + right. apply new_PipeSection_accepts. exact Hacc.
    + left. apply bad_keys_accepts. exact Hacc.
  - intros payload find_tvd k kw Hk Hlookup Hbad%bad_keys_rejected.
    apply calculate_section_raises.
    apply list_elem_of_In in Hk. simpl in Hk.
    destruct Hk as [<-|[<-|[<-|[<-|[]]]]].
    + left. rewrite (bind_Ok_eq _ _ (PDict kw)), Hbad;
        [exact I|apply getitem_Ok; exact Hlookup].
    + right; left. rewrite (bind_Ok_eq _ _ (PDict kw)), Hbad;
        [exact I|apply getitem_Ok; exact Hlookup].
    + right; right; left. rewrite (bind_Ok_eq _ _ (PDict kw)), Hbad;
        [exact I|apply getitem_Ok; exact Hlookup].
    + right; right; right. unfold Py.dict_get. rewrite Hlookup. simpl default.
      rewrite Hbad. exact I.
Qed.

Lemma pipe_section_rejects_bad_keys_witness :
  raises (Engine.calculate (rt := exact_runtime) extra_key_request None).
Proof.
  apply (proj2 (proj2 (pipe_section_rejects_bad_keys (rt := exact_runtime)))
           extra_key_request None "casing"
           (<["weight" := PFloat 47.0]> (pipe 9.625))).
  - apply list_elem_of_In. simpl. tauto.
  - vm_compute. reflexivity.
  - left. exists "weight". split; [vm_compute; eauto|].
    intros Hfield%list_elem_of_In. simpl in Hfield.
    repeat (destruct Hfield as [Hfield|Hfield]; [discriminate|]).
    exact Hfield.
Defined.

(** ** The HTTP boundary *)

Section Boundary.

Context {rt : Runtime} {co : Coercion}.

Lemma required_Some {A} (d : gmap string pyval) (k : string)
    (validate : pyval -> option A) (a : A) :
  Main.required d k validate = Some a -> is_Some (d !! k).
Proof.
  unfold Main.required. destruct (d !! k) as [v|]; [eauto|discriminate].
Qed.

(** A validated request had all five keys declared without default. *)
Lemma validate_CalcRequest_Some (body : gmap string pyval) (req : CalcRequest.t) :
  Main.validate_CalcRequest (PDict body) = Some req ->
  is_Some (body !! "casing") /\ is_Some (body !! "liner")
  /\ is_Some (body !! "dp1") /\ is_Some (body !! "mud")
  /\ is_Some (body !! "holeOverlap").
Proof.
  simpl.
  destruct (Main.required body "casing" Main.validate_PipeModel)
    as [casing|] eqn:Hcasing; [simpl|discriminate].
  destruct (Main.required body "liner" Main.validate_PipeModel)
    as [liner|] eqn:Hliner; [simpl|discriminate].
  destruct (Main.required body "dp1" Main.validate_PipeModel)
    as [dp1|] eqn:Hdp1; [simpl|discriminate].
  destruct (Main.optional body "dp2" Main.validate_optional_PipeModel None)
    as [dp2|]; [simpl|discriminate].
  destruct (Main.required body "mud" Main.validate_MudModel)
    as [mud|] eqn:Hmud; [simpl|discriminate].
  destruct (Main.required body "holeOverlap" Main.validate_HoleOverlapModel)
    as [hole|] eqn:Hhole; [simpl|discriminate].
  intros _. eauto 10 using required_Some.
Qed.

(** A validated pipe had its six numeric keys; only [grade] may be left
    out, and is then the empty string. *)
Lemma validate_PipeModel_Some (d : gmap string pyval) (m : PipeModel.t) :
  Main.validate_PipeModel (PDict d) = Some m ->
  (forall k : string, k ∈ Engine.required_fields -> is_Some (d !! k))
  /\ (d !! "grade" = None -> PipeModel.grade m = "").
Proof.
  simpl.
  destruct (Main.required d "od" validate_float) as [od|] eqn:Hod;
    [simpl|discriminate].
  destruct (Main.required d "id" validate_float) as [id|] eqn:Hid;
    [simpl|discriminate].
  destruct (Main.required d "wt" validate_float) as [wt|] eqn:Hwt;
    [simpl|discriminate].
  destruct (Main.required d "length" validate_float) as [len|] eqn:Hlen;
    [simpl|discriminate].
  destruct (Main.required d "md" validate_float) as [md|] eqn:Hmd;
    [simpl|discriminate].
  destruct (Main.required d "tvd" validate_float) as [tvd|] eqn:Htvd;
    [simpl|discriminate].
  unfold Main.optional.
  destruct (d !! "grade") as [g|] eqn:Hgrade.
  - destruct (validate_str g); [simpl|discriminate]. intros [= <-]. split.
    + intros k Hk%list_elem_of_In. simpl in Hk.
      destruct Hk as [<-|[<-|[<-|[<-|[<-|[<-|[]]]]]]]; eauto using required_Some.
    + discriminate.
  - simpl. intros [= <-]. split.
    + intros k Hk%list_elem_of_In. simpl in Hk.
      destruct Hk as [<-|[<-|[<-|[<-|[<-|[<-|[]]]]]]]; eauto using required_Some.
    + reflexivity.
Qed.

Lemma missing_key_rejected (body : gmap string pyval) (k : string) :
  k ∈ ["casing"; "liner"; "dp1"; "mud"; "holeOverlap"] ->
  body !! k = None ->
  Main.calculate (PDict body) = Main.Rejected.
Proof.
  intros Hk Hnone. unfold Main.calculate.
  destruct (Main.validate_CalcRequest (PDict body)) as [req|] eqn:Hreq;
    [|reflexivity].
  apply validate_CalcRequest_Some in Hreq
    as (Hcasing & Hliner & Hdp1 & Hmud & Hhole).
  apply list_elem_of_In in Hk. simpl in Hk.
  destruct Hk as [<-|[<-|[<-|[<-|[<-|[]]]]]];
    rewrite Hnone in *;
    match goal with Habs : is_Some None |- _ => destruct Habs; discriminate end.
Qed.

(** The dumped request always carries [mud] and [holeOverlap] in full, so
    the engine reads the model's values whatever its own defaults are. *)
Lemma dumped_numbers (req : CalcRequest.t) (dflt : pyval) :
  Engine.nested_float (Main.model_dump req) "mud" "ppg" dflt
  = Ok (MudModel.ppg (CalcRequest.mud req))
  /\ Engine.nested_float (Main.model_dump req) "holeOverlap" "openHoleId" dflt
     = Ok (HoleOverlapModel.openHoleId (CalcRequest.holeOverlap req))
  /\ Engine.nested_float (Main.model_dump req) "holeOverlap" "linerOverlap" dflt
     = Py.float_of (HoleOverlapModel.linerOverlap (CalcRequest.holeOverlap req))
  /\ Engine.nested_float (Main.model_dump req) "holeOverlap" "shoeTrackLength" dflt
     = Py.float_of (HoleOverlapModel.shoeTrackLength (CalcRequest.holeOverlap req)).
Proof.
  repeat split; reflexivity.
Qed.

End Boundary.

(** C10. At the route, [mud] and [holeOverlap] are required like [casing],
    [liner] and [dp1]: a body without one of them is rejected before the
    handler, hence the engine, runs. Of the request's keys only [dp2] may be
    left out (it then validates as a null [dp2]), and of a pipe's keys only
    [grade]. For every request that validates, the payload handed to the
    engine carries [mud.ppg] and the three [holeOverlap] fields (filled by
    the models' own defaults where the body had an empty [mud] or
    [holeOverlap]), so the engine's defaults for them are never used. *)
Theorem endpoint_requires_mud_and_hole_overlap {rt : Runtime} {co : Coercion} :
  (forall (body : gmap string pyval) (k : string),
      k ∈ ["casing"; "liner"; "dp1"; "mud"; "holeOverlap"] ->
      body !! k = None ->
      Main.validate_CalcRequest (PDict body) = None
      /\ Main.calculate (PDict body) = Main.Rejected)
  /\ (forall body : gmap string pyval,
         body !! "dp2" = None ->
         Main.validate_CalcRequest (PDict body)
         = Main.validate_CalcRequest (PDict (<["dp2" := PNone]> body)))
  /\ (forall (d : gmap string pyval) (m : PipeModel.t),
         Main.validate_PipeModel (PDict d) = Some m ->
         (forall k : string, k ∈ Engine.required_fields -> is_Some (d !! k))
         /\ (d !! "grade" = None -> PipeModel.grade m = ""))
  /\ Main.validate_MudModel (PDict ∅) = Some (MudModel.mk 13.0)
  /\ Main.validate_HoleOverlapModel (PDict ∅)
     = Some (HoleOverlapModel.mk 8.5 (PInt 300) (PInt 200))
  /\ (forall (req : CalcRequest.t) (dflt : pyval),
         is_dict (Main.model_dump req !! "mud") = true
         /\ is_dict (Main.model_dump req !! "holeOverlap") = true
         /\ Engine.nested_float (Main.model_dump req) "mud" "ppg" dflt
            = Ok (MudModel.ppg (CalcRequest.mud req))
         /\ Engine.nested_float (Main.model_dump req) "holeOverlap" "openHoleId" dflt
            = Ok (HoleOverlapModel.openHoleId (CalcRequest.holeOverlap req))
         /\ Engine.nested_float (Main.model_dump req) "holeOverlap" "linerOverlap" dflt
            = Py.float_of (HoleOverlapModel.linerOverlap (CalcRequest.holeOverlap req))
         /\ Engine.nested_float (Main.model_dump req) "holeOverlap" "shoeTrackLength"
              dflt
            = Py.float_of
                (HoleOverlapModel.shoeTrackLength (CalcRequest.holeOverlap req))).
Proof.
  split; [|split; [|split; [|split; [|split]]]].
  - intros body k Hk Hnone.
    pose proof (missing_key_rejected body k Hk Hnone) as Hrejected.
    split; [|exact Hrejected].
    unfold Main.calculate in Hrejected.
    destruct (Main.validate_CalcRequest (PDict body)); [|reflexivity].
    destruct (Engine.calculate _ _); discriminate.
  - intros body Hnone. simpl. unfold Main.required, Main.optional.
    rewrite Hnone, lookup_insert_eq.
    rewrite !lookup_insert_ne by discriminate. reflexivity.
  - apply validate_PipeModel_Some.
  - reflexivity.
  - reflexivity.
  - intros req dflt.
    split; [reflexivity|]. split; [reflexivity|]. apply dumped_numbers.
Qed.

Lemma endpoint_requires_mud_and_hole_overlap_witness :
  Main.calculate (rt := exact_runtime) (co := strict_coercion) (PDict full_request)
  = Main.Returned (Engine.mk_response 11.292830311825385 13 0.126809078465213)
  /\ Main.validate_CalcRequest (co := strict_coercion)
       (PDict (delete "mud" full_request)) = None
  /\ Main.calculate (rt := exact_runtime) (co := strict_coercion)
       (PDict (delete "mud" full_request)) = Main.Rejected.
Proof.
  split; [vm_compute; reflexivity|].
  apply (proj1 (endpoint_requires_mud_and_hole_overlap
                  (rt := exact_runtime) (co := strict_coercion))
           (delete "mud" full_request) "mud").
  - apply list_elem_of_In. simpl. tauto.
  - vm_compute. reflexivity.
Defined.

(** X1. The engine's default for [dp2] is out of reach on this path as well:
    for a body without [dp2] the dump writes [dp2] as [None], the engine
    unpacks that value instead of its default dict, and the handler answers
    400 with [TypeError], whatever else the body holds. *)
Lemma omitted_dp2_fails_in_engine {rt : Runtime} {co : Coercion}
    (body : gmap string pyval) (req : CalcRequest.t) :
  Main.validate_CalcRequest (PDict body) = Some req ->
  body !! "dp2" = None \/ body !! "dp2" = Some PNone ->
  Main.calculate (PDict body) = Main.HTTPException400 TypeError.
Proof.
  intros Hreq Hdp2. unfold Main.calculate. rewrite Hreq.
  assert (Hnone : CalcRequest.dp2 req = None).
  { revert Hreq. simpl. unfold Main.optional.
    destruct (Main.required body "casing" _); [simpl|discriminate].
    destruct (Main.required body "liner" _); [simpl|discriminate].
    destruct (Main.required body "dp1" _); [simpl|discriminate].
    destruct Hdp2 as [-> | ->]; simpl;
      (destruct (Main.required body "mud" _); [simpl|discriminate]);
      (destruct (Main.required body "holeOverlap" _); [simpl|discriminate]);
      intros [= <-]; reflexivity. }
  unfold Engine.calculate, Engine.calculate_body, Main.model_dump.
  rewrite Hnone. reflexivity.
Qed.

Lemma omitted_dp2_fails_in_engine_witness :
  Main.validate_CalcRequest (co := strict_coercion)
    (PDict (delete "dp2" full_request)) <> None
  /\ Main.calculate (rt := exact_runtime) (co := strict_coercion)
       (PDict (delete "dp2" full_request))
     = Main.HTTPException400 TypeError.
Proof.
  destruct (Main.validate_CalcRequest (co := strict_coercion)
              (PDict (delete "dp2" full_request))) as [req|] eqn:Hreq;
    [|vm_compute in Hreq; discriminate].
  split; [discriminate|].
  apply (omitted_dp2_fails_in_engine (rt := exact_runtime) (co := strict_coercion)
           (delete "dp2" full_request) req Hreq).
  left. vm_compute. reflexivity.
Defined.

(** ** What the route can answer *)

Section Route.

Context {rt : Runtime} {co : Coercion}.

(** A validated length is a float of the body or the int default. *)
Lemma validate_HoleOverlapModel_numbers (v : pyval) (h : HoleOverlapModel.t) :
  Main.validate_HoleOverlapModel v = Some h ->
  ((exists x : float, HoleOverlapModel.linerOverlap h = PFloat x)
   \/ HoleOverlapModel.linerOverlap h = PInt 300)
  /\ ((exists x : float, HoleOverlapModel.shoeTrackLength h = PFloat x)
      \/ HoleOverlapModel.shoeTrackLength h = PInt 200).
Proof.
  destruct v as [| | | | | |d]; simpl; try discriminate.
  unfold Main.optional. intros Hh.
  destruct (d !! "openHoleId") as [v1|];
    [destruct (validate_float v1) as [x1|]; [|discriminate]|];
    simpl in Hh;
    (destruct (d !! "linerOverlap") as [v2|];
     [destruct (validate_float v2) as [x2|]; [|discriminate]|]);
    simpl in Hh;
    (destruct (d !! "shoeTrackLength") as [v3|];
     [destruct (validate_float v3) as [x3|]; [|discriminate]|]);
    simpl in Hh; injection Hh as <-; simpl;
    (split; [first [left; eexists; reflexivity|right; reflexivity]
            |first [left; eexists; reflexivity|right; reflexivity]]).
Qed.

Lemma validate_CalcRequest_numbers (body : pyval) (req : CalcRequest.t) :
  Main.validate_CalcRequest body = Some req ->
  returns (Py.float_of (HoleOverlapModel.linerOverlap (CalcRequest.holeOverlap req)))
  /\ returns (Py.float_of
                (HoleOverlapModel.shoeTrackLength (CalcRequest.holeOverlap req))).
Proof.
  destruct body as [| | | | | |d]; simpl; try discriminate.
  destruct (Main.required d "casing" _); [simpl|discriminate].
  destruct (Main.required d "liner" _); [simpl|discriminate].
  destruct (Main.required d "dp1" _); [simpl|discriminate].
  destruct (Main.optional d "dp2" _ _); [simpl|discriminate].
  destruct (Main.required d "mud" _); [simpl|discriminate].
  destruct (Main.required d "holeOverlap" Main.validate_HoleOverlapModel)
    as [h|] eqn:Hh; [simpl|discriminate].
  intros [= <-]. simpl.
  unfold Main.required in Hh. destruct (d !! "holeOverlap") as [v|]; [|discriminate].
  apply validate_HoleOverlapModel_numbers in Hh as [[[x ->]| ->] [[y ->]| ->]];
    simpl; rewrite ?int_to_float_300, ?int_to_float_200; split; exact I.
Qed.

(** What the engine computes on a dumped request that has a [dp2]. *)
Lemma calculate_dumped (req : CalcRequest.t) (p : PipeModel.t)
    (find_tvd : option (float -> result float)) :
  CalcRequest.dp2 req = Some p ->
  Engine.calculate (Main.model_dump req) find_tvd
  = (a_hole ← Engine.area_ft2
       (PFloat (HoleOverlapModel.openHoleId (CalcRequest.holeOverlap req)));
     a_liner ← Engine.area_ft2 (PFloat (PipeModel.od (CalcRequest.liner req)));
     liner_overlap_ft ← Py.float_of
       (HoleOverlapModel.linerOverlap (CalcRequest.holeOverlap req));
     shoe_track_ft ← Py.float_of
       (HoleOverlapModel.shoeTrackLength (CalcRequest.holeOverlap req));
     Ok (Engine.mk_response
           (Py.max 0.0 (a_hole - a_liner)
            * (liner_overlap_ft + shoe_track_ft) * Engine.BBL_PER_CUFT)%float
           (MudModel.ppg (CalcRequest.mud req))
           (Py.max 0.0 (a_hole - a_liner)))).
Proof.
  intros Hdp2.
  assert (Hwf : well_formed (Main.model_dump req) = true).
  { unfold Main.model_dump. rewrite Hdp2. reflexivity. }
  destruct (calculate_well_formed (Main.model_dump req) find_tvd Hwf)
    as (od & Hod & ->).
  change (field (Main.model_dump req) "liner" "od")
    with (Some (PFloat (PipeModel.od (CalcRequest.liner req)))) in Hod.
  injection Hod as <-. reflexivity.
Qed.

(** The request model drops a key it does not declare. *)
Lemma validate_PipeModel_extra (d : gmap string pyval) (k : string) (v : pyval) :
  k ∉ Engine.fields ->
  Main.validate_PipeModel (PDict (<[k := v]> d)) = Main.validate_PipeModel (PDict d).
Proof.
  unfold Engine.fields, Engine.required_fields. simpl app. intros Hk.
  repeat (apply not_elem_of_cons in Hk as [? Hk]).
  simpl. unfold Main.required, Main.optional.
  rewrite !lookup_insert_ne by congruence. reflexivity.
Qed.

End Route.

(** X2. For a body that validates and carries a [dp2], the route either
    returns the engine's result, whose [mudPPG] is the model's [ppg], or
    answers 400 with [OverflowError]; it returns exactly when neither
    square overflows. No [KeyError], [TypeError], [AttributeError] or
    [ValueError] of the engine is reachable there. *)
Theorem route_fails_only_by_overflow {rt : Runtime} {co : Coercion}
    (body : pyval) (req : CalcRequest.t) (p : PipeModel.t) :
  Main.validate_CalcRequest body = Some req ->
  CalcRequest.dp2 req = Some p ->
  (exists r, Main.calculate body = Main.Returned r
             /\ Engine.mudPPG r = MudModel.ppg (CalcRequest.mud req)
             /\ returns (Py.float_pow2
                  (HoleOverlapModel.openHoleId (CalcRequest.holeOverlap req) / 12))
             /\ returns (Py.float_pow2 (PipeModel.od (CalcRequest.liner req) / 12)))
  \/ (Main.calculate body = Main.HTTPException400 OverflowError
      /\ (raises (Py.float_pow2
            (HoleOverlapModel.openHoleId (CalcRequest.holeOverlap req) / 12))
          \/ raises (Py.float_pow2 (PipeModel.od (CalcRequest.liner req) / 12)))).
Proof.
  intros Hreq Hdp2. unfold Main.calculate. rewrite Hreq.
  rewrite (calculate_dumped req p None Hdp2).
  apply validate_CalcRequest_numbers in Hreq
    as [[lo Hlo]%returns_Ok [st Hst]%returns_Ok].
  rewrite Hlo, Hst, !area_ft2_float.
  destruct (Py.float_pow2
              (HoleOverlapModel.openHoleId (CalcRequest.holeOverlap req) / 12))
    as [s1|e1] eqn:Hs1; simpl.
  - destruct (Py.float_pow2 (PipeModel.od (CalcRequest.liner req) / 12))
      as [s2|e2] eqn:Hs2; simpl.
    + left. eexists. split; [reflexivity|]. simpl. repeat split; exact I.
    + apply float_pow2_raises in Hs2 as ->. right. split; [reflexivity|].
      right. exact I.
  - apply float_pow2_raises in Hs1 as ->. right. split; [reflexivity|].
    left. exact I.
Qed.

Lemma route_fails_only_by_overflow_witness :
  (exists r, Main.calculate (rt := exact_runtime) (co := strict_coercion)
               (PDict full_request) = Main.Returned r
             /\ Engine.mudPPG r = 13.0%float
             /\ returns (Py.float_pow2 (rt := exact_runtime) (8.5 / 12))
             /\ returns (Py.float_pow2 (rt := exact_runtime) (7.0 / 12)))
  \/ (Main.calculate (rt := exact_runtime) (co := strict_coercion)
        (PDict full_request) = Main.HTTPException400 OverflowError
      /\ (raises (Py.float_pow2 (rt := exact_runtime) (8.5 / 12))
          \/ raises (Py.float_pow2 (rt := exact_runtime) (7.0 / 12)))).
Proof.
  apply (route_fails_only_by_overflow (rt := exact_runtime) (co := strict_coercion)
           (PDict full_request) full_model (pipe_model 3.5 "S-135")).
  - vm_compute. reflexivity.
  - reflexivity.
Defined.

(** X3. The route drops a key of a pipe that the request model does not
    declare: the body with the key and the body without it have the same
    answer, although the engine called directly rejects such a section. *)
Theorem route_drops_unknown_pipe_keys {rt : Runtime} {co : Coercion}
    (body d : gmap string pyval) (pipe_name k : string) (v : pyval) :
  pipe_name ∈ ["casing"; "liner"; "dp1"; "dp2"] ->
  k ∉ Engine.fields ->
  Main.calculate (PDict (<[pipe_name := PDict (<[k := v]> d)]> body))
  = Main.calculate (PDict (<[pipe_name := PDict d]> body)).
Proof.
  intros Hname Hk. unfold Main.calculate.
  assert (Hsame : Main.validate_CalcRequest
                    (PDict (<[pipe_name := PDict (<[k := v]> d)]> body))
                  = Main.validate_CalcRequest (PDict (<[pipe_name := PDict d]> body))).
  { pose proof (validate_PipeModel_extra d k v Hk) as Hpipe.
    apply list_elem_of_In in Hname. simpl in Hname.
    destruct Hname as [<-|[<-|[<-|[<-|[]]]]];
      unfold Main.validate_CalcRequest, Main.required, Main.optional,
        Main.validate_optional_PipeModel;
      rewrite ?lookup_insert_eq, ?(lookup_insert_ne _ _ _ _) by discriminate;
      cbn [mbind option_bind fmap option_fmap option_map];
      rewrite ?Hpipe; reflexivity. }
  rewrite Hsame. reflexivity.
Qed.

Lemma route_drops_unknown_pipe_keys_witness :
  Main.calculate (rt := exact_runtime) (co := strict_coercion)
    (PDict (<["casing" := PDict (<["weight" := PFloat 47.0]> (pipe 9.625))]>
              full_request))
  = Main.calculate (rt := exact_runtime) (co := strict_coercion)
      (PDict (<["casing" := PDict (pipe 9.625)]> full_request)).
Proof.
  apply (route_drops_unknown_pipe_keys (rt := exact_runtime) (co := strict_coercion)).
  - apply list_elem_of_In. simpl. tauto.
  - intros Hfield%list_elem_of_In. simpl in Hfield.
    repeat (destruct Hfield as [Hfield|Hfield]; [discriminate|]).
    exact Hfield.
Defined.

(** ** Dump and validate *)

Lemma validate_dump_PipeModel {co : Coercion} (m : PipeModel.t) :
  lossless co -> Main.validate_PipeModel (Main.dump_PipeModel m) = Some m.
Proof.
  intros [Hfloat Hstr]. destruct m.
  unfold Main.dump_PipeModel, Main.validate_PipeModel, Main.required, Main.optional.
  cbn [PipeModel.od PipeModel.id PipeModel.wt PipeModel.length PipeModel.md
       PipeModel.tvd PipeModel.grade].
  repeat (rewrite ?lookup_insert_eq, ?(lookup_insert_ne _ _ _ _) by discriminate;
          cbn [mbind option_bind]; rewrite ?Hfloat, ?Hstr).
  reflexivity.
Qed.

(** X4. Dumping a request model and validating the dump gives the model
    back, for every model whose two lengths are floats and under every
    coercion that takes a float and a string as they are: [model_dump] loses
    nothing the validation needs, an unset [dp2] included. *)
Theorem dump_then_validate {co : Coercion} (req : CalcRequest.t) :
  lossless co ->
  float_lengths (CalcRequest.holeOverlap req) ->
  Main.validate_CalcRequest (PDict (Main.model_dump req)) = Some req.
Proof.
  intros Hco [[lo Hlo] [st Hst]].
  pose proof (fun m => validate_dump_PipeModel m Hco) as Hpipe.
  destruct Hco as [Hfloat Hstr].
  destruct req as [casing liner dp1 dp2 [ppg] [oh lo' st']].
  simpl in Hlo, Hst. subst lo' st'.
  unfold Main.model_dump, Main.validate_CalcRequest, Main.required, Main.optional.
  cbn [CalcRequest.casing CalcRequest.liner CalcRequest.dp1 CalcRequest.dp2
       CalcRequest.mud CalcRequest.holeOverlap].
  repeat (rewrite ?lookup_insert_eq, ?(lookup_insert_ne _ _ _ _) by discriminate;
          cbn [mbind option_bind]; rewrite ?Hpipe).
  assert (Hdp2 : Main.validate_optional_PipeModel
                   (from_option Main.dump_PipeModel PNone dp2) = Some dp2).
  { destruct dp2 as [p|]; simpl from_option; [|reflexivity].
    change (Main.validate_optional_PipeModel (Main.dump_PipeModel p))
      with (Some <$> Main.validate_PipeModel (Main.dump_PipeModel p)).
    rewrite Hpipe. reflexivity. }
  rewrite Hdp2. cbn [mbind option_bind].
  unfold Main.dump_MudModel, Main.validate_MudModel, Main.dump_HoleOverlapModel,
    Main.validate_HoleOverlapModel, Main.optional.
  cbn [MudModel.ppg HoleOverlapModel.openHoleId HoleOverlapModel.linerOverlap
       HoleOverlapModel.shoeTrackLength].
  repeat (rewrite ?lookup_insert_eq, ?(lookup_insert_ne _ _ _ _) by discriminate;
          cbn [mbind option_bind fmap option_fmap option_map]; rewrite ?Hfloat).
  reflexivity.
Qed.

Lemma dump_then_validate_witness :
  Main.validate_CalcRequest (co := strict_coercion) (PDict (Main.model_dump full_model))
  = Some full_model.
Proof.
  apply (dump_then_validate (co := strict_coercion) full_model).
  - split; reflexivity.
  - split; eexists; reflexivity.
Defined.

(** ** Which exception, and why *)

Lemma bind_Raise_inv {A B} (m : result A) (f : A -> result B) (e : exn) :
  m ≫= f = Raise e -> m = Raise e \/ exists a, m = Ok a /\ f a = Raise e.
Proof.
  destruct m as [a|e']; simpl; intros Hm; [right; eauto|left; congruence].
Qed.

Lemma new_PipeSection_Raise (v : pyval) (e : exn) :
  Engine.new_PipeSection v = Raise e -> e = TypeError.
Proof.
  destruct v as [| | | | | |kw]; simpl; try congruence.
  unfold Engine.required_argument. repeat case_match; simpl; congruence.
Qed.

(** A required section fails with [KeyError] when the key is missing and
    with [TypeError] otherwise. *)
Lemma section_Raise (payload : gmap string pyval) (k : string) (e : exn) :
  Py.getitem payload k ≫= Engine.new_PipeSection = Raise e ->
  (e = KeyError k /\ payload !! k = None) \/ e = TypeError.
Proof.
  unfold Py.getitem. destruct (payload !! k) as [v|]; simpl.
  - intros He%new_PipeSection_Raise. right. exact He.
  - intros [= <-]. left. split; reflexivity.
Qed.

Lemma int_to_float_Raise (n : Z) (e : exn) :
  Py.int_to_float n = Raise e -> e = OverflowError.
Proof. unfold Py.int_to_float. case_match; congruence. Qed.

Lemma int_truediv_Raise (a : Z) (b : positive) (e : exn) :
  Py.int_truediv a b = Raise e -> e = OverflowError.
Proof. unfold Py.int_truediv. repeat case_match; congruence. Qed.

Section Taxonomy.

Context {rt : Runtime}.

(** [float(v)] refuses a string the parser refuses with [ValueError], a
    value that is no number with [TypeError], and an int too large with
    [OverflowError]. *)
Lemma float_of_Raise (v : pyval) (e : exn) :
  Py.float_of v = Raise e ->
  match e with
  | ValueError => exists s, v = PStr s /\ str_to_float s = None
  | TypeError | OverflowError => True
  | KeyError _ | AttributeError => False
  end.
Proof.
  destruct v as [|b|n|x|s|l|d]; simpl; try congruence.
  - intros [= <-]. exact I.
  - intros ->%int_to_float_Raise. exact I.
  - intros ->%int_to_float_Raise. exact I.
  - destruct (str_to_float s) eqn:Hs; [discriminate|].
    intros [= <-]. exists s. split; [reflexivity|exact Hs].
  - intros [= <-]. exact I.
  - intros [= <-]. exact I.
Qed.

Lemma nested_float_Raise (payload : gmap string pyval) (outer inner : string)
    (dflt : pyval) (e : exn) :
  Engine.nested_float payload outer inner dflt = Raise e ->
  match e with
  | AttributeError => absent_or is_dict (payload !! outer) = false
  | ValueError =>
      exists s, default dflt (field payload outer inner) = PStr s
                /\ str_to_float s = None
  | TypeError | OverflowError => True
  | KeyError _ => False
  end.
Proof.
  unfold Engine.nested_float, field, Py.dict_get.
  destruct (payload !! outer) as [[| | | | | |d]|]; simpl;
    try (intros [= <-]; reflexivity).
  - intros He. apply float_of_Raise in He. destruct e; try contradiction; trivial.
  - intros He. apply float_of_Raise in He. destruct e; try contradiction; trivial.
Qed.

Lemma nested_float_not_dict (payload : gmap string pyval) (outer inner : string)
    (dflt : pyval) :
  absent_or is_dict (payload !! outer) = false ->
  Engine.nested_float payload outer inner dflt = Raise AttributeError.
Proof.
  unfold Engine.nested_float, Py.dict_get.
  destruct (payload !! outer) as [[| | | | | |d]|]; simpl;
    first [discriminate | reflexivity].
Qed.

Lemma area_ft2_Raise (v : pyval) (e : exn) :
  Engine.area_ft2 v = Raise e -> e = TypeError \/ e = OverflowError.
Proof.
  unfold Engine.area_ft2. intros [Hq|(q & _ & Hs)]%bind_Raise_inv.
  - destruct v; simpl in Hq; try (injection Hq as <-; left; reflexivity);
      try (apply int_truediv_Raise in Hq; right; exact Hq); discriminate.
  - apply bind_Raise_inv in Hs as [Hs|(s & _ & Hs)]; [|discriminate].
    apply float_pow2_raises in Hs. right. exact Hs.
Qed.

End Taxonomy.

(** X5. The exception of [Engine.calculate] tells its cause: [KeyError]
    names a required section that is missing, [AttributeError] means that
    [mud] or [holeOverlap] is there but is no dict, and [ValueError] means
    that one of the four optional numbers is a string [float] refuses. *)
Theorem exception_tells_the_cause {rt : Runtime}
    (payload : gmap string pyval) (find_tvd : option (float -> result float))
    (e : exn) :
  Engine.calculate payload find_tvd = Raise e ->
  match e with
  | KeyError k => k ∈ ["casing"; "liner"; "dp1"] /\ payload !! k = None
  | AttributeError =>
      absent_or is_dict (payload !! "mud") = false
      \/ absent_or is_dict (payload !! "holeOverlap") = false
  | ValueError =>
      exists (outer inner : string) (dflt : pyval) (s : string),
        (outer, inner, dflt) ∈ optional_numbers
        /\ field payload outer inner = Some (PStr s)
        /\ str_to_float s = None
  | TypeError | OverflowError => True
  end.
Proof.
  unfold Engine.calculate, Engine.calculate_body. intros Hraise.
  assert (Hsection : forall k e',
             k ∈ ["casing"; "liner"; "dp1"] ->
             Py.getitem payload k ≫= Engine.new_PipeSection = Raise e' ->
             match e' with
             | KeyError k' => k' ∈ ["casing"; "liner"; "dp1"] /\ payload !! k' = None
             | TypeError => True
             | _ => False
             end).
  { intros k e' Hk [[-> Hnone]| ->]%section_Raise; [split; assumption|exact I]. }
  assert (Hnumber : forall outer inner dflt e',
             (outer, inner, dflt) ∈ optional_numbers ->
             (forall s, dflt <> PStr s) ->
             Engine.nested_float payload outer inner dflt = Raise e' ->
             match e' with
             | KeyError _ => False
             | AttributeError => absent_or is_dict (payload !! outer) = false
             | ValueError =>
                 exists (outer inner : string) (dflt : pyval) (s : string),
                   (outer, inner, dflt) ∈ optional_numbers
                   /\ field payload outer inner = Some (PStr s)
                   /\ str_to_float s = None
             | TypeError | OverflowError => True
             end).
  { intros outer inner dflt e' Hin Hdflt He. apply nested_float_Raise in He.
    destruct e'; try exact He.
    destruct He as (s & Hs & Hparse). exists outer, inner, dflt, s.
    split; [exact Hin|]. split; [|exact Hparse].
    destruct (field payload outer inner) as [v|]; simpl in Hs;
      [congruence|]. exfalso. exact (Hdflt s Hs). }
  apply bind_Raise_inv in Hraise as [Hraise|(l & Hbody & Hraise)];
    [|discriminate].
  apply bind_Raise_inv in Hraise as [He|(casing & _ & Hraise)].
  { apply Hsection in He; [|repeat constructor].
    destruct e; try contradiction; trivial. }
  apply bind_Raise_inv in Hraise as [He|(liner & _ & Hraise)].
  { apply Hsection in He; [|repeat constructor].
    destruct e; try contradiction; trivial. }
  apply bind_Raise_inv in Hraise as [He|(dp1 & _ & Hraise)].
  { apply Hsection in He; [|repeat constructor].
    destruct e; try contradiction; trivial. }
  apply bind_Raise_inv in Hraise as [He|(dp2 & _ & Hraise)].
  { apply new_PipeSection_Raise in He. subst e. exact I. }
  apply bind_Raise_inv in Hraise as [He|(mud_ppg & _ & Hraise)].
  { apply Hnumber in He; [|repeat constructor|discriminate].
    destruct e; try contradiction; auto. }
  apply bind_Raise_inv in Hraise as [He|(open_hole_id & _ & Hraise)].
  { apply Hnumber in He; [|repeat constructor|discriminate].
    destruct e; try contradiction; auto. }
  apply bind_Raise_inv in Hraise as [He|(a_hole & _ & Hraise)].
  { apply area_ft2_Raise in He as [-> | ->]; exact I. }
  apply bind_Raise_inv in Hraise as [He|(a_liner & _ & Hraise)].
  { apply area_ft2_Raise in He as [-> | ->]; exact I. }
  apply bind_Raise_inv in Hraise as [He|(liner_overlap_ft & _ & Hraise)].
  { apply Hnumber in He; [|repeat constructor|discriminate].
    destruct e; try contradiction; auto. }
  apply bind_Raise_inv in Hraise as [He|(shoe_track_ft & _ & Hraise)].
  { apply Hnumber in He; [|repeat constructor|discriminate].
    destruct e; try contradiction; auto. }
  discriminate.
Qed.

Lemma exception_tells_the_cause_witness :
  Engine.calculate (rt := exact_runtime) null_mud_request None = Raise AttributeError
  /\ (absent_or is_dict (null_mud_request !! "mud") = false
      \/ absent_or is_dict (null_mud_request !! "holeOverlap") = false).
Proof.
  split; [vm_compute; reflexivity|].
  apply (exception_tells_the_cause (rt := exact_runtime) null_mud_request None
           AttributeError).
  vm_compute. reflexivity.
Defined.

(** X6. A [mud] or [holeOverlap] that is present but is no dict, a JSON
    [null] for one, is not treated as absent: once the four sections are
    built the call raises [AttributeError] instead of taking the default. *)
Theorem non_dict_is_not_defaulted {rt : Runtime}
    (payload : gmap string pyval) (find_tvd : option (float -> result float)) :
  is_section (payload !! "casing") = true ->
  is_section (payload !! "liner") = true ->
  is_section (payload !! "dp1") = true ->
  absent_or is_section (payload !! "dp2") = true ->
  (absent_or is_dict (payload !! "mud") = false ->
   Engine.calculate payload find_tvd = Raise AttributeError)
  /\ (returns (Engine.nested_float payload "mud" "ppg" (PFloat 13.0)) ->
      absent_or is_dict (payload !! "holeOverlap") = false ->
      Engine.calculate payload find_tvd = Raise AttributeError).
Proof.
  intros [casing Hc]%section_returns%returns_Ok
         [liner Hl]%section_returns%returns_Ok
         [dp1 Hd1]%section_returns%returns_Ok
         [dp2 Hd2]%optional_section_returns%returns_Ok.
  unfold Engine.calculate, Engine.calculate_body.
  rewrite (bind_Ok_eq _ _ _ Hc), (bind_Ok_eq _ _ _ Hl), (bind_Ok_eq _ _ _ Hd1),
    (bind_Ok_eq _ _ _ Hd2).
  split.
  - intros Hmud.
    rewrite (nested_float_not_dict payload "mud" "ppg" (PFloat 13.0) Hmud).
    reflexivity.
  - intros [ppg Hppg]%returns_Ok Hhole.
    rewrite (bind_Ok_eq _ _ _ Hppg),
      (nested_float_not_dict payload "holeOverlap" "openHoleId" (PFloat 8.5) Hhole).
    reflexivity.
Qed.

Lemma non_dict_is_not_defaulted_witness :
  Engine.calculate (rt := exact_runtime) null_mud_request None = Raise AttributeError
  /\ Engine.calculate (rt := exact_runtime)
       (<["holeOverlap" := PList []]> (request 7.0)) None
     = Raise AttributeError.
Proof.
  split.
  - destruct (non_dict_is_not_defaulted (rt := exact_runtime) null_mud_request None)
      as [Hmud _]; [vm_compute; reflexivity ..|].
    apply Hmud. vm_compute. reflexivity.
  - destruct (non_dict_is_not_defaulted (rt := exact_runtime)
                (<["holeOverlap" := PList []]> (request 7.0)) None)
      as [_ Hhole]; [vm_compute; reflexivity ..|].
    apply Hhole; [vm_compute; exact I|vm_compute; reflexivity].
Defined.

(** ** Keys the engine does not read *)

(** X7. A top-level key other than the six the engine looks up changes
    nothing: the outcome with it is the outcome without it. *)
Theorem unread_key_has_no_effect {rt : Runtime}
    (payload : gmap string pyval) (find_tvd : option (float -> result float))
    (k : string) (v : pyval) :
  k ∉ engine_keys ->
  Engine.calculate (<[k := v]> payload) find_tvd = Engine.calculate payload find_tvd.
Proof.
  unfold engine_keys. intros Hk.
  repeat (apply not_elem_of_cons in Hk as [? Hk]).
  unfold Engine.calculate, Engine.calculate_body, Engine.nested_float,
    Py.getitem, Py.dict_get.
  rewrite !lookup_insert_ne by congruence. reflexivity.
Qed.

Lemma unread_key_has_no_effect_witness :
  Engine.calculate (rt := exact_runtime)
    (<["units" := PStr "imperial"]> full_request) None
  = Engine.calculate (rt := exact_runtime) full_request None.
Proof.
  apply (unread_key_has_no_effect (rt := exact_runtime)).
  unfold engine_keys. intros Hin%list_elem_of_In. simpl in Hin.
  repeat (destruct Hin as [Hin|Hin]; [discriminate|]). exact Hin.
Defined.

(** X8. Inside [mud] and [holeOverlap] the engine reads [ppg],
    [openHoleId], [linerOverlap] and [shoeTrackLength] only: any other key
    there is ignored, where the same key inside a pipe section is refused. *)
Theorem unread_nested_key_has_no_effect {rt : Runtime}
    (payload d : gmap string pyval) (find_tvd : option (float -> result float))
    (outer k : string) (v : pyval) :
  outer ∈ ["mud"; "holeOverlap"] ->
  k ∉ ["ppg"; "openHoleId"; "linerOverlap"; "shoeTrackLength"] ->
  Engine.calculate (<[outer := PDict (<[k := v]> d)]> payload) find_tvd
  = Engine.calculate (<[outer := PDict d]> payload) find_tvd.
Proof.
  intros Houter Hk.
  repeat (apply not_elem_of_cons in Hk as [? Hk]).
  apply list_elem_of_In in Houter. simpl in Houter.
  destruct Houter as [<-|[<-|[]]];
    unfold Engine.calculate, Engine.calculate_body, Engine.nested_float,
      Py.getitem, Py.dict_get;
    rewrite ?lookup_insert_eq, ?(lookup_insert_ne _ _ _ _) by discriminate;
    simpl; unfold Py.dict_get;
    rewrite ?lookup_insert_ne by congruence; reflexivity.
Qed.

Lemma unread_nested_key_has_no_effect_witness :
  Engine.calculate (rt := exact_runtime)
    (<["mud" := PDict (<["type" := PStr "OBM"]> (<["ppg" := PFloat 13.0]> ∅))]>
       (request 7.0)) None
  = Engine.calculate (rt := exact_runtime)
      (<["mud" := PDict (<["ppg" := PFloat 13.0]> ∅)]> (request 7.0)) None.
Proof.
  apply (unread_nested_key_has_no_effect (rt := exact_runtime)).
  - apply list_elem_of_In. simpl. tauto.
  - intros Hin%list_elem_of_In. simpl in Hin.
    repeat (destruct Hin as [Hin|Hin]; [discriminate|]). exact Hin.
Defined.

(** ** Converted inputs *)

(** X9. The outcome depends on the optional numbers only through their
    conversion by [float]: two well-formed requests with the same
    [liner.od] whose four optional numbers convert alike have the same
    outcome, so a default written out, or an int for its float, behaves as
    the field left out. *)
Theorem result_depends_on_converted_inputs {rt : Runtime}
    (payload1 payload2 : gmap string pyval)
    (f g : option (float -> result float)) :
  well_formed payload1 = true ->
  well_formed payload2 = true ->
  field payload1 "liner" "od" = field payload2 "liner" "od" ->
  (forall (outer inner : string) (dflt : pyval),
      (outer, inner, dflt) ∈ optional_numbers ->
      Py.float_of (default dflt (field payload1 outer inner))
      = Py.float_of (default dflt (field payload2 outer inner))) ->
  Engine.calculate payload1 f = Engine.calculate payload2 g.
Proof.
  intros Hwf1 Hwf2 Hod Hsame.
  destruct (calculate_well_formed payload1 f Hwf1) as (od1 & Hod1 & ->).
  destruct (calculate_well_formed payload2 g Hwf2) as (od2 & Hod2 & ->).
  rewrite Hod1, Hod2 in Hod. injection Hod as ->.
  rewrite (Hsame "mud" "ppg" (PFloat 13.0)) by repeat constructor.
  rewrite (Hsame "holeOverlap" "openHoleId" (PFloat 8.5)) by repeat constructor.
  rewrite (Hsame "holeOverlap" "linerOverlap" (PInt 300)) by repeat constructor.
  rewrite (Hsame "holeOverlap" "shoeTrackLength" (PInt 200)) by repeat constructor.
  reflexivity.
Qed.

(** The scenario with every default written out as a float against the
    request that leaves them out. *)
Lemma result_depends_on_converted_inputs_witness :
  Engine.calculate (rt := exact_runtime) full_request None
  = Engine.calculate (rt := exact_runtime) (request 7.0) None.
Proof.
  apply (result_depends_on_converted_inputs (rt := exact_runtime));
    try (vm_compute; reflexivity).
  intros outer inner dflt Hin%list_elem_of_In. simpl in Hin.
  destruct Hin as [[= <- <- <-]|[[= <- <- <-]|[[= <- <- <-]|[[= <- <- <-]|[]]]]];
    vm_compute; reflexivity.
Defined.

(** ** Signs in binary64 *)

(** Rounding keeps the sign it is given. *)
Lemma binary_round_aux_opp (s : bool) (m e : Z) (l : location) :
  binary_round_aux prec emax (negb s) m e l
  = SFopp (binary_round_aux prec emax s m e l).
Proof.
  unfold binary_round_aux.
  destruct (shr_fexp prec emax m e l) as [mrs' e'].
  destruct (shr_fexp prec emax _ e' loc_Exact) as [mrs'' e''].
  destruct (shr_m mrs''); [reflexivity| |reflexivity].
  destruct (e'' <=? emax - prec); reflexivity.
Qed.

Lemma SFopp_involutive (sf : spec_float) : SFopp (SFopp sf) = sf.
Proof. destruct sf; simpl; rewrite ?negb_involutive; reflexivity. Qed.

Lemma opp_involutive (x : float) : (- - x)%float = x.
Proof. apply Prim2SF_inj. rewrite !opp_spec. apply SFopp_involutive. Qed.

Lemma abs_opp (x : float) : abs (- x) = abs x.
Proof.
  apply Prim2SF_inj. rewrite !abs_spec, opp_spec.
  destruct (Prim2SF x); reflexivity.
Qed.

Lemma is_nan_opp (x : float) : is_nan (- x) = is_nan x.
Proof.
  unfold is_nan. rewrite !FloatAxioms.eqb_spec, opp_spec.
  destruct (Prim2SF x) as [s|s| |s m e]; cbn [SFopp];
    [destruct s; reflexivity|destruct s; reflexivity|reflexivity|].
  rewrite !SFeqb_refl by discriminate. reflexivity.
Qed.

Lemma is_infinity_opp (x : float) : is_infinity (- x) = is_infinity x.
Proof. unfold is_infinity. rewrite abs_opp. reflexivity. Qed.

Lemma eqb_zero_opp (x : float) : (- x =? 0)%float = (x =? 0)%float.
Proof.
  rewrite !FloatAxioms.eqb_spec, opp_spec.
  change (Prim2SF 0) with (S754_zero false).
  destruct (Prim2SF x) as [s|s| |s m e]; try destruct s; reflexivity.
Qed.

(** A NaN is its own opposite. *)
Lemma opp_nan (x : float) : is_nan x = true -> (- x)%float = x.
Proof.
  intros Hnan%is_nan_Prim2SF. apply Prim2SF_inj.
  rewrite opp_spec, Hnan. reflexivity.
Qed.

(** The magnitude the power operator hands to libm. *)
Lemma magnitude_opp (x : float) :
  is_nan x = false -> (x =? 0)%float = false ->
  (if (- x <? 0)%float then (- - x)%float else (- x)%float)
  = (if (x <? 0)%float then (- x)%float else x).
Proof.
  intros Hnan Hzero. rewrite opp_involutive.
  rewrite !FloatAxioms.ltb_spec, opp_spec.
  unfold is_nan in Hnan. rewrite !FloatAxioms.eqb_spec in Hnan, Hzero.
  revert Hnan Hzero.
  change (Prim2SF 0) with (S754_zero false).
  destruct (Prim2SF x) as [s|s| |s m e]; try destruct s;
    try reflexivity; try discriminate.
Qed.

Lemma div_12_opp (x : float) : (- x / 12)%float = (- (x / 12))%float.
Proof.
  apply Prim2SF_inj. rewrite opp_spec, !div_spec, opp_spec.
  let sf := eval vm_compute in (Prim2SF 12) in change (Prim2SF 12) with sf.
  unfold SF64div, SFdiv.
  destruct (Prim2SF x) as [s|s| |s m e]; cbn [SFopp];
    [destruct s; reflexivity|destruct s; reflexivity|reflexivity|].
  destruct (SFdiv_core_binary prec emax (Z.pos m) e _ _) as [[mz ez] lz].
  destruct s; cbn [negb xorb].
  - apply (binary_round_aux_opp true).
  - apply (binary_round_aux_opp false).
Qed.

Lemma float_pow2_opp {rt : Runtime} (x : float) :
  Py.float_pow2 (- x) = Py.float_pow2 x.
Proof.
  unfold Py.float_pow2.
  rewrite is_nan_opp, is_infinity_opp, eqb_zero_opp, abs_opp.
  destruct (is_nan x) eqn:Hnan; [rewrite (opp_nan x Hnan); reflexivity|].
  destruct (is_infinity x); [reflexivity|].
  destruct (x =? 0)%float eqn:Hzero; [reflexivity|].
  rewrite (magnitude_opp x Hnan Hzero). reflexivity.
Qed.

(** The area does not see the sign of the diameter, on any platform. *)
Lemma area_ft2_opp {rt : Runtime} (d : float) :
  Engine.area_ft2 (PFloat (- d)) = Engine.area_ft2 (PFloat d).
Proof.
  rewrite !area_ft2_float, div_12_opp, float_pow2_opp. reflexivity.
Qed.

Lemma ltb_zero_false (x : float) :
  (x <? 0)%float = false <-> not_negative (Prim2SF x).
Proof.
  rewrite FloatAxioms.ltb_spec. change (Prim2SF 0) with (S754_zero false).
  destruct (Prim2SF x) as [s|s| |s m e]; simpl; try destruct s;
    split; try reflexivity; try discriminate; trivial.
Qed.

Lemma binary_round_aux_not_negative (m e : Z) (l : location) :
  not_negative (binary_round_aux prec emax false m e l).
Proof.
  unfold binary_round_aux.
  destruct (shr_fexp prec emax m e l) as [mrs' e'].
  destruct (shr_fexp prec emax _ e' loc_Exact) as [mrs'' e''].
  destruct (shr_m mrs''); [exact I| |exact I].
  destruct (e'' <=? emax - prec); reflexivity.
Qed.

Lemma binary_normalize_pos_not_negative (p : positive) (e : Z) :
  not_negative (binary_normalize prec emax (Z.pos p) e false).
Proof.
  unfold binary_normalize, binary_round.
  destruct (shl_align p e _) as [mz ez].
  apply binary_round_aux_not_negative.
Qed.

(** Neither factor below zero: the product is not below zero. *)
Lemma mul_not_negative (a b : float) :
  (a <? 0)%float = false -> (b <? 0)%float = false ->
  (a * b <? 0)%float = false.
Proof.
  rewrite !ltb_zero_false, mul_spec. unfold SF64mul, SFmul.
  destruct (Prim2SF a) as [sa|sa| |sa ma ea], (Prim2SF b) as [sb|sb| |sb mb eb];
    simpl; intros Ha Hb; subst; trivial.
  apply binary_round_aux_not_negative.
Qed.

(** Neither term below zero: the sum is not below zero. *)
Lemma add_not_negative (a b : float) :
  (a <? 0)%float = false -> (b <? 0)%float = false ->
  (a + b <? 0)%float = false.
Proof.
  rewrite !ltb_zero_false, add_spec. unfold SF64add, SFadd.
  destruct (Prim2SF a) as [sa|sa| |sa ma ea], (Prim2SF b) as [sb|sb| |sb mb eb];
    simpl not_negative; intros Ha Hb; subst; trivial.
  - destruct sa, sb; exact I.
  - reflexivity.
  - unfold cond_Zopp. apply (binary_normalize_pos_not_negative (_ + _)).
Qed.

Lemma max_zero_not_negative (x : float) : (Py.max 0 x <? 0)%float = false.
Proof.
  destruct (max_zero_cases x) as [[Hpos ->]|[_ ->]]; [|reflexivity].
  apply ltb_zero_false. revert Hpos.
  rewrite FloatAxioms.ltb_spec. change (Prim2SF 0) with (S754_zero false).
  destruct (Prim2SF x) as [s|s| |s m e]; simpl; try destruct s;
    try reflexivity; try discriminate; trivial.
Qed.

(** A difference of a number with itself is a zero or a NaN. *)
Lemma sub_diag_not_positive (a : float) : (0 <? a - a)%float = false.
Proof.
  rewrite FloatAxioms.ltb_spec, sub_spec.
  change (Prim2SF 0) with (S754_zero false). unfold SF64sub, SFsub.
  destruct (Prim2SF a) as [s|s| |s m e]; try destruct s; try reflexivity;
    unfold cond_Zopp; rewrite Z.sub_diag; reflexivity.
Qed.

(** ** Diameters *)

(** X10. The engine does not see the sign of a diameter: two well-formed
    requests that differ only in the signs of [liner.od] and [openHoleId]
    have the same outcome, on every platform. *)
Theorem result_ignores_diameter_signs {rt : Runtime}
    (payload1 payload2 : gmap string pyval)
    (f g : option (float -> result float)) (od open_hole_id : float) :
  well_formed payload1 = true ->
  well_formed payload2 = true ->
  field payload1 "liner" "od" = Some (PFloat od) ->
  field payload2 "liner" "od" = Some (PFloat (- od)) ->
  field payload1 "holeOverlap" "openHoleId" = Some (PFloat open_hole_id) ->
  field payload2 "holeOverlap" "openHoleId" = Some (PFloat (- open_hole_id)) ->
  field payload1 "mud" "ppg" = field payload2 "mud" "ppg" ->
  field payload1 "holeOverlap" "linerOverlap"
  = field payload2 "holeOverlap" "linerOverlap" ->
  field payload1 "holeOverlap" "shoeTrackLength"
  = field payload2 "holeOverlap" "shoeTrackLength" ->
  Engine.calculate payload1 f = Engine.calculate payload2 g.
Proof.
  intros Hwf1 Hwf2 Hod1 Hod2 Hoh1 Hoh2 Hppg Hlo Hst.
  destruct (calculate_well_formed payload1 f Hwf1) as (od1 & Hod1' & ->).
  destruct (calculate_well_formed payload2 g Hwf2) as (od2 & Hod2' & ->).
  rewrite Hod1 in Hod1'. rewrite Hod2 in Hod2'.
  injection Hod1' as <-. injection Hod2' as <-.
  rewrite Hoh1, Hoh2, Hppg, Hlo, Hst. simpl default.
  destruct (Py.float_of (default (PFloat 13) (field payload2 "mud" "ppg")));
    [|reflexivity].
  change (Py.float_of (PFloat open_hole_id)) with (Ok open_hole_id).
  change (Py.float_of (PFloat (- open_hole_id))) with (Ok (- open_hole_id)%float).
  cbn [mbind result_bind].
  rewrite !area_ft2_opp. reflexivity.
Qed.

Lemma result_ignores_diameter_signs_witness :
  Engine.calculate (rt := exact_runtime) (with_hole 8.5 (request 7.0)) None
  = Engine.calculate (rt := exact_runtime) mirrored_request None.
Proof.
  apply (result_ignores_diameter_signs (rt := exact_runtime)
           (with_hole 8.5 (request 7.0)) mirrored_request None None 7.0 8.5);
    vm_compute; reflexivity.
Defined.

(** X11. A liner exactly as wide as the hole, up to sign, leaves no
    annulus: whenever the call returns, [annulusAreaFt2] is [0.0], on every
    platform and also when both areas are infinite. *)
Theorem equal_diameters_leave_no_annulus {rt : Runtime}
    (payload : gmap string pyval) (find_tvd : option (float -> result float))
    (r : Engine.response) (d : float) :
  Engine.calculate payload find_tvd = Ok r ->
  field payload "liner" "od" = Some (PFloat d) ->
  Py.float_of (default (PFloat 8.5) (field payload "holeOverlap" "openHoleId"))
  = Ok d
  \/ Py.float_of (default (PFloat 8.5) (field payload "holeOverlap" "openHoleId"))
     = Ok (- d)%float ->
  Engine.annulusAreaFt2 r = 0%float.
Proof.
  intros Hr Hod Hoh. apply calculate_Ok in Hr as (l & Hl & ->).
  apply calculate_body_Ok in Hl
    as (a_hole & a_liner & _ & Hliner & _ & _ & _ & Hoh' & Hah & Hal & Han & _).
  apply section_Ok in Hliner as [_ Hod']. rewrite Hod in Hod'.
  injection Hod' as Hod'. rewrite <- Hod' in Hal.
  apply nested_float_Ok in Hoh' as [_ Hoh'].
  assert (Hsame : a_hole = a_liner).
  { destruct Hoh as [Hoh|Hoh]; rewrite Hoh in Hoh'; injection Hoh' as Hoh';
      rewrite <- Hoh' in Hah; rewrite ?area_ft2_opp in Hah; congruence. }
  simpl. rewrite Han, Hsame. unfold Py.max.
  rewrite sub_diag_not_positive. reflexivity.
Qed.

(** A liner of 8.5 in the default hole of 8.5. *)
Lemma equal_diameters_leave_no_annulus_witness :
  Engine.calculate (rt := exact_runtime) (request 8.5) None
  = Ok (Engine.mk_response 0 13 0)
  /\ Engine.annulusAreaFt2 (Engine.mk_response 0 13 0) = 0%float.
Proof.
  split; [vm_compute; reflexivity|].
  apply (equal_diameters_leave_no_annulus (rt := exact_runtime) (request 8.5) None
           (Engine.mk_response 0 13 0) 8.5).
  - vm_compute. reflexivity.
  - vm_compute. reflexivity.
  - left. vm_compute. reflexivity.
Defined.

(** X12. The cement volume never compares below zero when neither length
    does: with a liner overlap and a shoe track that are not negative, the
    returned [cementVolume] is zero, positive or a NaN, but never negative. *)
Theorem volume_is_never_negative {rt : Runtime}
    (payload : gmap string pyval) (find_tvd : option (float -> result float))
    (r : Engine.response) (liner_overlap shoe_track : float) :
  Engine.calculate payload find_tvd = Ok r ->
  Py.float_of (default (PInt 300) (field payload "holeOverlap" "linerOverlap"))
  = Ok liner_overlap ->
  Py.float_of (default (PInt 200) (field payload "holeOverlap" "shoeTrackLength"))
  = Ok shoe_track ->
  (liner_overlap <? 0)%float = false ->
  (shoe_track <? 0)%float = false ->
  (Engine.cementVolume r <? 0)%float = false.
Proof.
  intros Hr Hlo Hst Hlo0 Hst0.
  apply calculate_Ok in Hr as (l & Hl & ->).
  apply calculate_body_Ok in Hl
    as (a_hole & a_liner & _ & _ & _ & _ & _ & _ & _ & _ & Han & Hlo' & Hst'
        & Hci & Hcv).
  apply nested_float_Ok in Hlo' as [_ Hlo'].
  apply nested_float_Ok in Hst' as [_ Hst'].
  rewrite Hlo in Hlo'. rewrite Hst in Hst'.
  injection Hlo' as Hlo'. injection Hst' as Hst'.
  simpl. rewrite Hcv, Hci, Han, <- Hlo', <- Hst'.
  apply mul_not_negative; [|reflexivity].
  apply mul_not_negative; [apply max_zero_not_negative|].
  apply add_not_negative; assumption.
Qed.

Lemma volume_is_never_negative_witness :
  Engine.calculate (rt := exact_runtime) full_request None
  = Ok (Engine.mk_response 11.292830311825385 13 0.126809078465213)
  /\ (11.292830311825385 <? 0)%float = false.
Proof.
  split; [vm_compute; reflexivity|].
  apply (volume_is_never_negative (rt := exact_runtime) full_request None
           (Engine.mk_response 11.292830311825385 13 0.126809078465213)
           300 200);
    vm_compute; reflexivity.
Defined.

(** X13. A call that returns had a number for [liner.od]: the diameter is
    divided as it is, not converted by [float], so a string there never
    gets through, even one that reads as a number. *)
Theorem liner_od_must_be_a_number {rt : Runtime}
    (payload : gmap string pyval) (find_tvd : option (float -> result float))
    (r : Engine.response) :
  Engine.calculate payload find_tvd = Ok r ->
  is_number (field payload "liner" "od") = true.
Proof.
  intros Hr. apply calculate_Ok in Hr as (l & Hl & _).
  apply calculate_body_Ok in Hl
    as (a_hole & a_liner & _ & Hliner & _ & _ & _ & _ & _ & Hal & _).
  apply section_Ok in Hliner as [_ ->].
  unfold Engine.area_ft2 in Hal. step Hal.
  destruct (PipeSection.od (Engine.liner l)); simpl in E;
    first [reflexivity | discriminate].
Qed.

Lemma liner_od_must_be_a_number_witness :
  is_number (field full_request "liner" "od") = true.
Proof.
  apply (liner_od_must_be_a_number (rt := exact_runtime) full_request None
           (Engine.mk_response 11.292830311825385 13 0.126809078465213)).
  vm_compute. reflexivity.
Defined.

(** ** The mud *)

(** X14. The mud has no part in the geometry: two calls on requests that
    differ only in [mud], when both return, give the same [cementVolume]
    and the same [annulusAreaFt2]. *)
Theorem mud_affects_only_mud_ppg {rt : Runtime}
    (payload : gmap string pyval) (mud1 mud2 : pyval)
    (f g : option (float -> result float)) (r1 r2 : Engine.response) :
  Engine.calculate (<["mud" := mud1]> payload) f = Ok r1 ->
  Engine.calculate (<["mud" := mud2]> payload) g = Ok r2 ->
  Engine.cementVolume r1 = Engine.cementVolume r2
  /\ Engine.annulusAreaFt2 r1 = Engine.annulusAreaFt2 r2.
Proof.
  intros Hr1 Hr2.
  apply calculate_Ok in Hr1 as (l1 & Hl1 & ->).
  apply calculate_Ok in Hr2 as (l2 & Hl2 & ->).
  apply calculate_body_Ok in Hl1
    as (ah1 & al1 & _ & Hli1 & _ & _ & _ & Hoh1 & Hah1 & Hal1 & Han1 & Hlo1 & Hst1
        & Hci1 & Hcv1).
  apply calculate_body_Ok in Hl2
    as (ah2 & al2 & _ & Hli2 & _ & _ & _ & Hoh2 & Hah2 & Hal2 & Han2 & Hlo2 & Hst2
        & Hci2 & Hcv2).
  unfold Engine.nested_float, Py.getitem, Py.dict_get in *.
  rewrite !lookup_insert_ne in * by discriminate.
  assert (Hliner : Engine.liner l1 = Engine.liner l2) by congruence.
  assert (Hoh : Engine.open_hole_id l1 = Engine.open_hole_id l2) by congruence.
  assert (Hlo : Engine.liner_overlap_ft l1 = Engine.liner_overlap_ft l2) by congruence.
  assert (Hst : Engine.shoe_track_ft l1 = Engine.shoe_track_ft l2) by congruence.
  rewrite Hliner in Hal1. rewrite Hoh in Hah1.
  assert (Hah : ah1 = ah2) by congruence.
  assert (Hal : al1 = al2) by congruence.
  simpl. rewrite Hcv1, Hcv2, Hci1, Hci2, Han1, Han2, Hah, Hal, Hlo, Hst.
  split; reflexivity.
Qed.

Lemma mud_affects_only_mud_ppg_witness :
  exists r1 r2 : Engine.response,
    Engine.calculate (rt := exact_runtime)
      (<["mud" := PDict (<["ppg" := PFloat 9.5]> ∅)]> (request 7.0)) None = Ok r1
    /\ Engine.calculate (rt := exact_runtime)
         (<["mud" := PDict (<["ppg" := PFloat 16.0]> ∅)]> (request 7.0)) None = Ok r2
    /\ Engine.mudPPG r1 = 9.5%float /\ Engine.mudPPG r2 = 16.0%float
    /\ Engine.cementVolume r1 = Engine.cementVolume r2
    /\ Engine.annulusAreaFt2 r1 = Engine.annulusAreaFt2 r2.
Proof.
  exists (Engine.mk_response 11.292830311825385 9.5 0.126809078465213),
    (Engine.mk_response 11.292830311825385 16.0 0.126809078465213).
  split; [vm_compute; reflexivity|]. split; [vm_compute; reflexivity|].
  split; [reflexivity|]. split; [reflexivity|].
  apply (mud_affects_only_mud_ppg (rt := exact_runtime) (request 7.0)
           (PDict (<["ppg" := PFloat 9.5]> ∅)) (PDict (<["ppg" := PFloat 16.0]> ∅))
           None None);
    vm_compute; reflexivity.
Defined.

(** ** Defaults on both sides of the boundary *)

(** X15. The defaults of the request model and of the engine agree: through
    the route an empty [mud] and an empty [holeOverlap] have the answer of
    the body that writes out 13.0, 8.5, 300.0 and 200.0, although the model
    keeps the two lengths as the ints 300 and 200. *)
Theorem empty_structures_take_the_defaults {rt : Runtime} {co : Coercion}
    (body : gmap string pyval) :
  lossless co ->
  Main.calculate (PDict (<["mud" := PDict ∅]> (<["holeOverlap" := PDict ∅]> body)))
  = Main.calculate
      (PDict (<["mud" := default_mud]> (<["holeOverlap" := default_hole]> body))).
Proof.
  intros [Hfloat _]. unfold Main.calculate, Main.validate_CalcRequest.
  unfold Main.required, Main.optional.
  rewrite !lookup_insert_eq.
  rewrite !(lookup_insert_ne _ "mud") by discriminate.
  rewrite !lookup_insert_eq.
  rewrite !(lookup_insert_ne _ "holeOverlap") by discriminate.
  destruct (body !! "casing" ≫= Main.validate_PipeModel) as [casing|];
    [|reflexivity].
  destruct (body !! "liner" ≫= Main.validate_PipeModel) as [liner|];
    [|reflexivity].
  destruct (body !! "dp1" ≫= Main.validate_PipeModel) as [dp1|];
    [|reflexivity].
  cbn [mbind option_bind].
  destruct (match body !! "dp2" with
            | Some v => Main.validate_optional_PipeModel v
            | None => Some None
            end) as [dp2|]; [|reflexivity].
  cbn [mbind option_bind].
  unfold default_mud, default_hole, Main.validate_MudModel,
    Main.validate_HoleOverlapModel, Main.optional.
  repeat (rewrite ?lookup_insert_eq, ?(lookup_insert_ne _ _ _ _), ?lookup_empty
            by discriminate;
          cbn [mbind option_bind fmap option_fmap option_map]; rewrite ?Hfloat).
  destruct dp2 as [p|].
  - rewrite !(calculate_dumped _ p None) by reflexivity. reflexivity.
  - reflexivity.
Qed.

Lemma empty_structures_take_the_defaults_witness :
  Main.calculate (rt := exact_runtime) (co := strict_coercion)
    (PDict (<["mud" := PDict ∅]> (<["holeOverlap" := PDict ∅]> full_request)))
  = Main.Returned (Engine.mk_response 11.292830311825385 13 0.126809078465213)
  /\ Main.calculate (rt := exact_runtime) (co := strict_coercion)
       (PDict (<["mud" := PDict ∅]> (<["holeOverlap" := PDict ∅]> full_request)))
     = Main.calculate (rt := exact_runtime) (co := strict_coercion)
         (PDict (<["mud" := default_mud]>
                   (<["holeOverlap" := default_hole]> full_request))).
Proof.
  split; [vm_compute; reflexivity|].
  apply (empty_structures_take_the_defaults (rt := exact_runtime)
           (co := strict_coercion) full_request).
  split; reflexivity.
Defined.

(** ** Quotients with a sticky bit *)

Lemma half_position_range (r K : Z) : 0 <= half_position r K <= 3.
Proof.
  unfold half_position. destruct (r =? 0); [lia|]. destruct (2 * r ?= K); lia.
Qed.

Lemma half_position_mono (r1 r2 K : Z) :
  0 <= r1 <= r2 -> half_position r1 K <= half_position r2 K.
Proof.
  intros H. unfold half_position.
  destruct (Z.eqb_spec r1 0), (Z.eqb_spec r2 0); try lia.
  - destruct (2 * r2 ?= K); lia.
  - destruct (Z.compare_spec (2 * r1) K), (Z.compare_spec (2 * r2) K); lia.
Qed.

Lemma sticky_quotient_div (N K : Z) : sticky_quotient N K / 4 = N / K.
Proof.
  unfold sticky_quotient. pose proof (half_position_range (N mod K) K).
  symmetry. apply (Z.div_unique _ 4 _ (half_position (N mod K) K)); lia.
Qed.

Lemma sticky_quotient_mod (N K : Z) :
  sticky_quotient N K mod 4 = half_position (N mod K) K.
Proof.
  unfold sticky_quotient. pose proof (half_position_range (N mod K) K).
  symmetry. apply (Z.mod_unique _ 4 (N / K)); lia.
Qed.

(** The sticky quotient grows with the numerator, does not see a common
    factor, and is exact on a multiple. *)
Lemma sticky_quotient_mono (N1 N2 K : Z) :
  0 < K -> N1 <= N2 -> sticky_quotient N1 K <= sticky_quotient N2 K.
Proof.
  intros HK HN. unfold sticky_quotient.
  pose proof (Z.div_le_mono N1 N2 K HK HN) as Hq.
  pose proof (half_position_range (N1 mod K) K).
  pose proof (half_position_range (N2 mod K) K).
  destruct (Z.eq_dec (N1 / K) (N2 / K)) as [Heq|Hne]; [|lia].
  rewrite Heq. apply Zplus_le_compat_l, half_position_mono.
  pose proof (Z.mod_pos_bound N1 K HK).
  pose proof (Z.mod_eq N1 K ltac:(lia)). pose proof (Z.mod_eq N2 K ltac:(lia)).
  lia.
Qed.

Lemma half_position_scale (r K c : Z) :
  0 < c -> half_position (r * c) (K * c) = half_position r K.
Proof.
  intros Hc. unfold half_position.
  destruct (Z.eqb_spec r 0) as [->|Hr].
  - reflexivity.
  - destruct (Z.eqb_spec (r * c) 0) as [H0|_]; [nia|].
    destruct (Z.compare_spec (2 * (r * c)) (K * c)),
      (Z.compare_spec (2 * r) K); try reflexivity; nia.
Qed.

Lemma sticky_quotient_scale (N K c : Z) :
  0 < K -> 0 < c -> sticky_quotient (N * c) (K * c) = sticky_quotient N K.
Proof.
  intros HK Hc. unfold sticky_quotient.
  rewrite Z.div_mul_cancel_r by lia.
  rewrite Z.mul_mod_distr_r by lia.
  rewrite half_position_scale by lia. reflexivity.
Qed.

Lemma sticky_quotient_multiple (m K : Z) :
  0 < K -> sticky_quotient (m * K) K = 4 * m.
Proof.
  intros HK. unfold sticky_quotient.
  rewrite Z.div_mul, Z.mod_mul by lia. unfold half_position. simpl. lia.
Qed.

(** Doubling the denominator shifts one bit out. *)
Lemma sticky_quotient_double (N K : Z) :
  0 < K -> sticky_quotient N (K * 2) = sticky_half (sticky_quotient N K).
Proof.
  intros HK. unfold sticky_half.
  rewrite sticky_quotient_div, sticky_quotient_mod.
  unfold sticky_quotient.
  rewrite <- Z.div_div by lia.
  rewrite Z.rem_mul_r by lia.
  pose proof (Z.mod_pos_bound N K HK) as Hr.
  pose proof (Z.mod_pos_bound (N / K) 2 ltac:(lia)) as Hb.
  pose proof (Z.div_mod (N / K) 2 ltac:(lia)) as Hq.
  set (q := N / K) in *. set (r := N mod K) in *.
  unfold half_position.
  destruct (Z.eqb_spec r 0) as [Hr0|Hr0].
  - rewrite Hr0. simpl (0 =? 0).
    assert (q mod 2 = 0 \/ q mod 2 = 1) as [Hm|Hm] by lia; rewrite Hm.
    + replace (0 + K * 0) with 0 by lia. simpl; lia.
    + replace (0 + K * 1) with K by lia.
      destruct (Z.eqb_spec K 0); [lia|].
      destruct (Z.compare_spec (2 * K) (K * 2)); simpl; lia.
  - assert (q mod 2 = 0 \/ q mod 2 = 1) as [Hm|Hm] by lia; rewrite Hm.
    + replace (r + K * 0) with r by lia.
      destruct (Z.eqb_spec r 0); [lia|].
      destruct (Z.compare_spec (2 * r) (K * 2)); try lia.
      destruct (Z.compare_spec (2 * r) K); simpl; lia.
    + destruct (Z.eqb_spec (r + K * 1) 0); [lia|].
      destruct (Z.compare_spec (2 * (r + K * 1)) (K * 2)); try lia.
      destruct (Z.compare_spec (2 * r) K); simpl; lia.
Qed.

(** ** What [shr_1] and [round_nearest_even] compute *)

Lemma sticky_half_add (m c : Z) :
  0 <= c <= 3 -> sticky_half (4 * m + c) = 2 * m + (if c =? 0 then 0 else 1).
Proof.
  intros Hc. unfold sticky_half.
  replace ((4 * m + c) / 4) with m
    by (apply (Z.div_unique _ 4 _ c); lia).
  replace ((4 * m + c) mod 4) with c
    by (apply (Z.mod_unique _ 4 m); lia).
  reflexivity.
Qed.

Lemma shr_1_value (mrs : shr_record) :
  0 <= shr_m mrs ->
  shr_value (shr_1 mrs) = sticky_half (shr_value mrs) /\ 0 <= shr_m (shr_1 mrs).
Proof.
  destruct mrs as [m r s]. simpl shr_m. intros Hm. unfold shr_value.
  destruct m as [|[p|p|]|p]; try lia;
    destruct r, s; cbn [shr_1 shr_m shr_r shr_s orb];
    rewrite <- !Z.add_assoc, sticky_half_add by lia; simpl (_ =? _); split; lia.
Qed.

Lemma pow2_xO (p : positive) : 2 ^ Zpos p~0 = 2 ^ Zpos p * 2 ^ Zpos p.
Proof.
  replace (Zpos p~0) with (Zpos p + Zpos p) by lia.
  apply Z.pow_add_r; lia.
Qed.

Lemma pow2_xI (p : positive) : 2 ^ Zpos p~1 = 2 * (2 ^ Zpos p * 2 ^ Zpos p).
Proof.
  replace (Zpos p~1) with (Z.succ (Zpos p + Zpos p)) by lia.
  rewrite Z.pow_succ_r, Z.pow_add_r by lia. reflexivity.
Qed.

(** Shifting [p] bits out of the record of [N / K] gives the record of
    [N / (K * 2 ^ p)]. *)
Lemma iter_shr_1_value (N : Z) (p : positive) :
  forall (K : Z) (mrs : shr_record),
    0 < K -> 0 <= shr_m mrs -> shr_value mrs = sticky_quotient N K ->
    shr_value (SpecFloat.iter_pos shr_1 p mrs) = sticky_quotient N (K * 2 ^ Zpos p)
    /\ 0 <= shr_m (SpecFloat.iter_pos shr_1 p mrs).
Proof.
  assert (Hstep : forall K mrs, 0 < K -> 0 <= shr_m mrs ->
            shr_value mrs = sticky_quotient N K ->
            shr_value (shr_1 mrs) = sticky_quotient N (K * 2)
            /\ 0 <= shr_m (shr_1 mrs)).
  { intros K mrs HK Hm HW. destruct (shr_1_value mrs Hm) as [H1 H2].
    split; [|exact H2]. rewrite H1, HW. symmetry.
    apply sticky_quotient_double, HK. }
  induction p as [p IH|p IH|]; intros K mrs HK Hm HW; simpl SpecFloat.iter_pos.
  - destruct (Hstep K mrs HK Hm HW) as [H1 H2].
    destruct (IH (K * 2) _ ltac:(lia) H2 H1) as [H3 H4].
    assert (H2p : 0 < 2 ^ Zpos p) by (apply Z.pow_pos_nonneg; lia).
    destruct (IH (K * 2 * 2 ^ Zpos p) _ ltac:(nia) H4 H3) as [H5 H6].
    split; [|exact H6]. rewrite H5. f_equal. rewrite pow2_xI. lia.
  - destruct (IH K _ HK Hm HW) as [H3 H4].
    assert (H2p : 0 < 2 ^ Zpos p) by (apply Z.pow_pos_nonneg; lia).
    destruct (IH (K * 2 ^ Zpos p) _ ltac:(nia) H4 H3) as [H5 H6].
    split; [|exact H6]. rewrite H5. f_equal. rewrite pow2_xO. lia.
  - destruct (Hstep K mrs HK Hm HW) as [H1 H2]. split; [|exact H2].
    rewrite H1. reflexivity.
Qed.

Lemma shr_record_of_loc_value (q r K : Z) :
  shr_value (shr_record_of_loc q (location_of r K)) = 4 * q + half_position r K.
Proof.
  unfold location_of, half_position, shr_value.
  destruct (r =? 0); [simpl; lia|]. destruct (2 * r ?= K); simpl; lia.
Qed.

Lemma shr_m_of_loc (q : Z) (l : location) : shr_m (shr_record_of_loc q l) = q.
Proof. destruct l as [|[]]; reflexivity. Qed.

Lemma nearest_even_add (m c : Z) :
  0 <= c <= 3 ->
  nearest_even (4 * m + c)
  = if c <=? 1 then m
    else if c =? 2 then (if Z.even m then m else m + 1) else m + 1.
Proof.
  intros Hc. unfold nearest_even.
  replace ((4 * m + c) / 4) with m
    by (apply (Z.div_unique _ 4 _ c); lia).
  replace ((4 * m + c) mod 4) with c
    by (apply (Z.mod_unique _ 4 m); lia).
  reflexivity.
Qed.

Lemma round_nearest_even_value (mrs : shr_record) :
  round_nearest_even (shr_m mrs) (loc_of_shr_record mrs)
  = nearest_even (shr_value mrs).
Proof.
  destruct mrs as [m r s]. unfold shr_value. simpl shr_m.
  destruct r, s; cbn [shr_r shr_s loc_of_shr_record round_nearest_even];
    rewrite <- Z.add_assoc, nearest_even_add by lia; reflexivity.
Qed.

Lemma nearest_even_bounds (W : Z) : W / 4 <= nearest_even W <= W / 4 + 1.
Proof.
  unfold nearest_even.
  destruct (W mod 4 <=? 1); [lia|].
  destruct (W mod 4 =? 2); [|lia]. destruct (Z.even (W / 4)); lia.
Qed.

Lemma nearest_even_exact (m : Z) : nearest_even (4 * m) = m.
Proof.
  unfold nearest_even. rewrite Z.mul_comm, Z.mod_mul, Z.div_mul by lia.
  reflexivity.
Qed.

Lemma nearest_even_mono (W1 W2 : Z) :
  W1 <= W2 -> nearest_even W1 <= nearest_even W2.
Proof.
  intros HW.
  pose proof (Z.div_le_mono W1 W2 4 ltac:(lia) HW) as Hq.
  pose proof (nearest_even_bounds W1). pose proof (nearest_even_bounds W2).
  destruct (Z.eq_dec (W1 / 4) (W2 / 4)) as [Heq|Hne]; [|lia].
  assert (Hc : W1 mod 4 <= W2 mod 4).
  { pose proof (Z.mod_eq W1 4 ltac:(lia)). pose proof (Z.mod_eq W2 4 ltac:(lia)).
    lia. }
  pose proof (Z.mod_pos_bound W1 4 ltac:(lia)).
  pose proof (Z.mod_pos_bound W2 4 ltac:(lia)).
  unfold nearest_even. rewrite Heq.
  destruct (Z.leb_spec (W1 mod 4) 1), (Z.leb_spec (W2 mod 4) 1); try lia.
  - destruct (Z.eqb_spec (W2 mod 4) 2); [|lia]. destruct (Z.even (W2 / 4)); lia.
  - destruct (Z.eqb_spec (W1 mod 4) 2), (Z.eqb_spec (W2 mod 4) 2); try lia.
    destruct (Z.even (W2 / 4)); lia.
Qed.

(** ** Digits *)

Lemma digits2_pos_bounds (p : positive) :
  2 ^ (Zpos (digits2_pos p) - 1) <= Zpos p < 2 ^ Zpos (digits2_pos p).
Proof.
  induction p as [p IH|p IH|]; simpl digits2_pos.
  - rewrite Pos2Z.inj_succ.
    replace (Z.succ (Zpos (digits2_pos p)) - 1) with (Zpos (digits2_pos p) - 1 + 1)
      by lia.
    rewrite Z.pow_succ_r, Z.pow_add_r by lia. lia.
  - rewrite Pos2Z.inj_succ.
    replace (Z.succ (Zpos (digits2_pos p)) - 1) with (Zpos (digits2_pos p) - 1 + 1)
      by lia.
    rewrite Z.pow_succ_r, Z.pow_add_r by lia. lia.
  - simpl. lia.
Qed.

Lemma Zdigits2_nonneg (q : Z) : 0 <= q -> 0 <= Zdigits2 q.
Proof. destruct q; simpl; lia. Qed.

Lemma Zdigits2_upper (q : Z) : 0 <= q -> q < 2 ^ Zdigits2 q.
Proof.
  destruct q as [|p|p]; intros Hq; [simpl; lia| |lia].
  apply digits2_pos_bounds.
Qed.

Lemma Zdigits2_lower (q : Z) : 0 < q -> 2 ^ (Zdigits2 q - 1) <= q.
Proof.
  destruct q as [|p|p]; intros Hq; [lia| |lia].
  apply digits2_pos_bounds.
Qed.

Lemma Zdigits2_pos (q : Z) : 0 < q -> 0 < Zdigits2 q.
Proof. destruct q; simpl; lia. Qed.

Lemma Zdigits2_ge (q d : Z) : 0 <= d -> 2 ^ d <= q -> d < Zdigits2 q.
Proof.
  intros Hd Hq.
  assert (0 < q) by (pose proof (Z.pow_pos_nonneg 2 d); lia).
  pose proof (Zdigits2_upper q ltac:(lia)).
  apply (Z.pow_lt_mono_r_iff 2); [lia|apply Zdigits2_nonneg; lia|lia].
Qed.

Lemma Zdigits2_le (q d : Z) : 0 <= d -> 0 <= q < 2 ^ d -> Zdigits2 q <= d.
Proof.
  intros Hd Hq.
  destruct (Z.eq_dec q 0) as [->|Hq0]; [simpl; lia|].
  pose proof (Zdigits2_lower q ltac:(lia)).
  pose proof (Zdigits2_pos q ltac:(lia)).
  assert (Zdigits2 q - 1 < d); [|lia].
  apply (Z.pow_lt_mono_r_iff 2); lia.
Qed.

(** ** Exponents *)

Lemma fexp_eq (x : Z) : fexp prec emax x = Z.max (x - 53) (-1074).
Proof. reflexivity. Qed.

Lemma pow2_pos (a : Z) : 0 <= a -> 0 < 2 ^ a.
Proof. intros Ha. apply Z.pow_pos_nonneg; lia. Qed.

Lemma pow2_add (a b : Z) : 0 <= a -> 0 <= b -> 2 ^ (a + b) = 2 ^ a * 2 ^ b.
Proof. intros Ha Hb. apply Z.pow_add_r; assumption. Qed.

Lemma pow2_le (a b : Z) : 0 <= a <= b -> 2 ^ a <= 2 ^ b.
Proof. intros H. apply Z.pow_le_mono_r; lia. Qed.

Lemma pow2_lt_inv (a b : Z) : 0 <= a -> 0 <= b -> 2 ^ a < 2 ^ b -> a < b.
Proof. intros Ha Hb H. apply (Z.pow_lt_mono_r_iff 2); lia. Qed.

(** The quotient [N / K] has as many digits as the value has binary
    orders. *)
Lemma quotient_upper (N K : Z) :
  0 < K -> 0 <= N -> N < K * 2 ^ Zdigits2 (N / K).
Proof.
  intros HK HN.
  pose proof (Z.div_pos N K HN HK) as Hq.
  pose proof (Zdigits2_upper (N / K) Hq).
  pose proof (Z.mod_pos_bound N K HK). pose proof (Z.div_mod N K ltac:(lia)).
  nia.
Qed.

Lemma quotient_lower (N K : Z) :
  0 < K -> 0 < N / K -> K * 2 ^ (Zdigits2 (N / K) - 1) <= N.
Proof.
  intros HK Hq.
  pose proof (Zdigits2_lower (N / K) Hq).
  assert (HN : 0 <= N).
  { destruct (Z.lt_ge_cases N 0) as [Hneg|]; [|assumption].
    pose proof (Z.div_lt_upper_bound N K 0 HK ltac:(lia)). lia. }
  pose proof (Z.mod_pos_bound N K HK). pose proof (Z.div_mod N K ltac:(lia)).
  nia.
Qed.

Lemma scaled_pos (K a : Z) : 0 < K -> 0 <= a -> 0 < K * 2 ^ a.
Proof. intros HK Ha. apply Z.mul_pos_pos; [exact HK|apply pow2_pos, Ha]. Qed.

Lemma fexp_cases (x : Z) :
  -1074 <= fexp prec emax x /\ x - 53 <= fexp prec emax x
  /\ (fexp prec emax x = -1074 \/ fexp prec emax x = x - 53).
Proof. rewrite fexp_eq. lia. Qed.

Lemma fexp_mono (x y : Z) : x <= y -> fexp prec emax x <= fexp prec emax y.
Proof. rewrite !fexp_eq. lia. Qed.

(** What the digits of the quotient say about the value [N / K * 2 ^ e],
    scaled by [2 ^ B] to an integer. *)
Lemma magnitude_facts (N K e B : Z) :
  0 < K -> 0 <= N -> e <= rounded_exponent N K e -> 0 <= e + B ->
  let mag := Zdigits2 (N / K) + e in
  0 <= mag + B
  /\ N * 2 ^ (e + B) < K * 2 ^ (mag + B)
  /\ ((0 <= mag - 1 + B /\ K * 2 ^ (mag - 1 + B) <= N * 2 ^ (e + B))
      \/ rounded_exponent N K e = -1074).
Proof.
  intros HK HN HE HB mag.
  pose proof (quotient_upper N K HK HN) as HU.
  pose proof (quotient_lower N K HK) as HL.
  pose proof (Z.div_pos N K HN HK) as Hq.
  pose proof (Zdigits2_nonneg _ Hq) as Hd.
  pose proof (Zdigits2_pos (N / K)) as Hd'.
  unfold rounded_exponent in *. subst mag.
  set (q := N / K) in *. clearbody q. set (d := Zdigits2 q) in *.
  pose proof (pow2_pos (e + B) HB) as Hp.
  split; [lia|]. split.
  - replace (d + e + B) with (d + (e + B)) by lia.
    rewrite (pow2_add d (e + B)) by lia.
    rewrite Z.mul_assoc. apply Z.mul_lt_mono_pos_r; lia.
  - destruct (Z.eq_dec q 0) as [Hq0|Hq0].
    + right. assert (d = 0) by (unfold d; rewrite Hq0; reflexivity).
      clearbody d. subst d. rewrite fexp_eq in *. lia.
    + left. specialize (Hd' ltac:(lia)). specialize (HL ltac:(lia)).
      clearbody d. split; [lia|].
      replace (d + e - 1 + B) with (d - 1 + (e + B)) by lia.
      rewrite (pow2_add (d - 1) (e + B)) by lia.
      rewrite Z.mul_assoc. apply Z.mul_le_mono_nonneg_r; lia.
Qed.

(** ** One rounding step

    A step brings a value to the exponent of its magnitude and rounds the
    mantissa there, by any rounding [r] of quotients that is monotone, does
    not see a common factor and is exact on multiples. Such a step is
    monotone in the value: in the exponent it chooses, and in the value it
    returns. *)

Section Stage.

Variable r : Z -> Z -> Z.
Hypothesis r_mono : forall N1 N2 K, 0 < K -> N1 <= N2 -> r N1 K <= r N2 K.
Hypothesis r_scale : forall N K c, 0 < K -> 0 < c -> r (N * c) (K * c) = r N K.
Hypothesis r_multiple : forall m K, 0 < K -> r (m * K) K = m.

Lemma rounded_scaled (N K e B : Z) :
  0 < K -> e <= rounded_exponent N K e -> 0 <= e + B ->
  rounded r N K e = r (N * 2 ^ (e + B)) (K * 2 ^ (rounded_exponent N K e + B)).
Proof.
  intros HK HE HB. unfold rounded.
  set (E := rounded_exponent N K e) in *. clearbody E.
  rewrite <- (r_scale N (K * 2 ^ (E - e)) (2 ^ (e + B))).
  - f_equal. rewrite <- Z.mul_assoc, <- pow2_add by lia. do 2 f_equal. lia.
  - apply scaled_pos; lia.
  - apply pow2_pos, HB.
Qed.

(** Two values at different exponents are parted by a power of two that
    both roundings keep. *)
Lemma rounded_core (v1 v2 K mag1 mag2 B : Z) :
  0 < K ->
  0 <= mag1 + B -> 0 <= mag2 + B ->
  0 <= fexp prec emax mag1 + B -> 0 <= fexp prec emax mag2 + B ->
  v1 < K * 2 ^ (mag1 + B) -> v2 < K * 2 ^ (mag2 + B) ->
  (0 <= mag1 - 1 + B /\ K * 2 ^ (mag1 - 1 + B) <= v1)
  \/ fexp prec emax mag1 = -1074 ->
  (0 <= mag2 - 1 + B /\ K * 2 ^ (mag2 - 1 + B) <= v2)
  \/ fexp prec emax mag2 = -1074 ->
  v1 <= v2 ->
  fexp prec emax mag1 <= fexp prec emax mag2
  /\ r v1 (K * 2 ^ (fexp prec emax mag1 + B)) * 2 ^ (fexp prec emax mag1 + B)
     <= r v2 (K * 2 ^ (fexp prec emax mag2 + B)) * 2 ^ (fexp prec emax mag2 + B).
Proof.
  intros HK Hm1 Hm2 HB1 HB2 HU1 HU2 HL1 HL2 Hval.
  pose proof (fexp_cases mag1) as (Hf1 & Hf1' & Hc1).
  pose proof (fexp_cases mag2) as (Hf2 & Hf2' & Hc2).
  pose proof (fexp_mono mag1 mag2) as Hmono.
  set (E1 := fexp prec emax mag1) in *. set (E2 := fexp prec emax mag2) in *.
  clearbody E1 E2.
  pose proof (pow2_pos (E1 + B) HB1) as Hp1.
  pose proof (pow2_pos (E2 + B) HB2) as Hp2.
  pose proof (scaled_pos K (E1 + B) HK HB1) as HK1.
  pose proof (scaled_pos K (E2 + B) HK HB2) as HK2.
  assert (Hmag : E1 = -1074 \/ mag1 <= mag2).
  { destruct HL1 as [[Hn1 HL1]|HL1]; [right|left; exact HL1].
    assert (Hpow : 2 ^ (mag1 - 1 + B) < 2 ^ (mag2 + B)).
    { apply (Z.mul_lt_mono_pos_l K); [exact HK|]. lia. }
    apply pow2_lt_inv in Hpow; lia. }
  assert (HE : E1 <= E2) by (destruct Hmag; lia).
  split; [exact HE|].
  destruct (Z.eq_dec E1 E2) as [Heq|Hne].
  - rewrite Heq. apply Z.mul_le_mono_nonneg_r; [lia|].
    apply r_mono; [exact HK2|exact Hval].
  - assert (HE2 : E2 = mag2 - 53) by lia.
    assert (Hlt : mag1 <= mag2 - 1) by lia.
    destruct HL2 as [[Hn2 HL2]|HL2]; [|lia].
    set (P := 2 ^ (mag2 - 1 + B)) in *.
    assert (HP1 : P = 2 ^ (mag2 - 1 - E1) * 2 ^ (E1 + B)).
    { unfold P. rewrite <- pow2_add by lia. f_equal. lia. }
    assert (HP2 : P = 2 ^ (mag2 - 1 - E2) * 2 ^ (E2 + B)).
    { unfold P. rewrite <- pow2_add by lia. f_equal. lia. }
    assert (Hv1 : v1 <= K * P).
    { assert (2 ^ (mag1 + B) <= P) by (apply pow2_le; lia).
      apply Z.le_trans with (K * 2 ^ (mag1 + B)); [lia|].
      apply Z.mul_le_mono_nonneg_l; lia. }
    clearbody P.
    assert (Hout1 : r v1 (K * 2 ^ (E1 + B)) <= 2 ^ (mag2 - 1 - E1)).
    { rewrite <- (r_multiple (2 ^ (mag2 - 1 - E1)) (K * 2 ^ (E1 + B)) HK1).
      apply r_mono; [exact HK1|]. rewrite HP1 in Hv1. lia. }
    assert (Hout2 : 2 ^ (mag2 - 1 - E2) <= r v2 (K * 2 ^ (E2 + B))).
    { rewrite <- (r_multiple (2 ^ (mag2 - 1 - E2)) (K * 2 ^ (E2 + B)) HK2) at 1.
      apply r_mono; [exact HK2|]. rewrite HP2 in HL2. lia. }
    apply Z.le_trans with P.
    + rewrite HP1. apply Z.mul_le_mono_nonneg_r; lia.
    + rewrite HP2. apply Z.mul_le_mono_nonneg_r; lia.
Qed.

Lemma rounded_mono (N1 N2 K e1 e2 B : Z) :
  0 < K -> 0 <= N1 -> 0 <= N2 ->
  e1 <= rounded_exponent N1 K e1 -> e2 <= rounded_exponent N2 K e2 ->
  0 <= e1 + B -> 0 <= e2 + B ->
  N1 * 2 ^ (e1 + B) <= N2 * 2 ^ (e2 + B) ->
  rounded_exponent N1 K e1 <= rounded_exponent N2 K e2
  /\ rounded r N1 K e1 * 2 ^ (rounded_exponent N1 K e1 + B)
     <= rounded r N2 K e2 * 2 ^ (rounded_exponent N2 K e2 + B).
Proof.
  intros HK HN1 HN2 HE1 HE2 HB1 HB2 Hval.
  rewrite (rounded_scaled N1 K e1 B), (rounded_scaled N2 K e2 B) by assumption.
  destruct (magnitude_facts N1 K e1 B HK HN1 HE1 HB1) as (Hm1 & HU1 & HL1).
  destruct (magnitude_facts N2 K e2 B HK HN2 HE2 HB2) as (Hm2 & HU2 & HL2).
  unfold rounded_exponent in *.
  apply rounded_core; try assumption; lia.
Qed.

End Stage.

Lemma nearest_mono (N1 N2 K : Z) : 0 < K -> N1 <= N2 -> nearest N1 K <= nearest N2 K.
Proof.
  intros HK HN. apply nearest_even_mono, sticky_quotient_mono; assumption.
Qed.

Lemma nearest_scale (N K c : Z) :
  0 < K -> 0 < c -> nearest (N * c) (K * c) = nearest N K.
Proof.
  intros HK Hc. unfold nearest. rewrite sticky_quotient_scale by assumption.
  reflexivity.
Qed.

Lemma nearest_multiple (m K : Z) : 0 < K -> nearest (m * K) K = m.
Proof.
  intros HK. unfold nearest. rewrite sticky_quotient_multiple by assumption.
  apply nearest_even_exact.
Qed.

Lemma nearest_floor (N K : Z) : N / K <= nearest N K.
Proof.
  unfold nearest. pose proof (nearest_even_bounds (sticky_quotient N K)) as H.
  rewrite sticky_quotient_div in H. lia.
Qed.

Lemma Zdiv_scale (N K c : Z) : 0 < K -> 0 < c -> N * c / (K * c) = N / K.
Proof. intros HK Hc. apply Z.div_mul_cancel_r; lia. Qed.

Lemma Zdiv_multiple (m K : Z) : 0 < K -> m * K / K = m.
Proof. intros HK. apply Z.div_mul. lia. Qed.

Lemma Zdiv_mono_pos (N1 N2 K : Z) : 0 < K -> N1 <= N2 -> N1 / K <= N2 / K.
Proof. intros HK HN. apply Z.div_le_mono; assumption. Qed.

(** ** The two shifts of [binary_round_aux] *)

Lemma shr_m_value (mrs : shr_record) : shr_m mrs = shr_value mrs / 4.
Proof.
  unfold shr_value. rewrite <- Z.add_assoc.
  apply (Z.div_unique _ 4 _ ((if shr_r mrs then 2 else 0) + (if shr_s mrs then 1 else 0)));
    destruct (shr_r mrs), (shr_s mrs); lia.
Qed.

Lemma shr_fexp_value (N K e : Z) :
  0 < K -> 0 <= N -> e <= rounded_exponent N K e ->
  exists mrs : shr_record,
    shr_fexp prec emax (N / K) e (location_of (N mod K) K)
    = (mrs, rounded_exponent N K e)
    /\ shr_value mrs = sticky_quotient N (K * 2 ^ (rounded_exponent N K e - e))
    /\ 0 <= shr_m mrs.
Proof.
  intros HK HN HE. unfold shr_fexp. fold (rounded_exponent N K e).
  set (E := rounded_exponent N K e) in *. clearbody E.
  pose proof (Z.div_pos N K HN HK) as Hq.
  assert (H0 : shr_value (shr_record_of_loc (N / K) (location_of (N mod K) K))
               = sticky_quotient N K)
    by apply shr_record_of_loc_value.
  assert (Hm : 0 <= shr_m (shr_record_of_loc (N / K) (location_of (N mod K) K)))
    by (rewrite shr_m_of_loc; exact Hq).
  set (mrs := shr_record_of_loc (N / K) (location_of (N mod K) K)) in *.
  clearbody mrs.
  destruct (E - e) as [|p|p] eqn:Hn; [| |lia]; unfold shr.
  - exists mrs. split; [f_equal; lia|]. split; [|exact Hm].
    rewrite H0. f_equal. simpl. lia.
  - destruct (iter_shr_1_value N p K mrs HK Hm H0) as [H1 H2].
    exists (SpecFloat.iter_pos shr_1 p mrs).
    split; [f_equal; lia|]. split; [exact H1|exact H2].
Qed.

Lemma rounded_nearest_nonneg (N K e : Z) :
  0 < K -> 0 <= N -> e <= rounded_exponent N K e -> 0 <= rounded nearest N K e.
Proof.
  intros HK HN HE. unfold rounded.
  pose proof (nearest_floor N (K * 2 ^ (rounded_exponent N K e - e))).
  pose proof (scaled_pos K (rounded_exponent N K e - e) HK ltac:(lia)).
  pose proof (Z.div_pos N _ HN H0). lia.
Qed.

(** The rounded mantissa is as precise as its exponent asks. *)
Lemma rounded_nearest_exponent (N K e : Z) :
  0 < K -> 0 <= N -> e <= rounded_exponent N K e ->
  rounded_exponent N K e
  <= rounded_exponent (rounded nearest N K e) 1 (rounded_exponent N K e).
Proof.
  intros HK HN HE.
  pose proof (rounded_nearest_nonneg N K e HK HN HE) as Hm.
  unfold rounded in *.
  assert (HEdef : rounded_exponent N K e = fexp prec emax (Zdigits2 (N / K) + e))
    by reflexivity.
  set (E := rounded_exponent N K e) in *. clearbody E.
  set (m1 := nearest N (K * 2 ^ (E - e))) in *.
  unfold rounded_exponent. rewrite Z.div_1_r.
  pose proof (fexp_cases (Zdigits2 m1 + E)) as (Hf & Hf' & _).
  pose proof (Zdigits2_nonneg _ Hm) as Hd.
  pose proof (fexp_cases (Zdigits2 (N / K) + e)) as (Hg & Hg' & [Hc|Hc]);
    rewrite <- HEdef in *; [lia|].
  pose proof (Z.div_pos N K HN HK) as Hq.
  destruct (Z.eq_dec (N / K) 0) as [Hq0|Hq0].
  { rewrite Hq0 in *. simpl Zdigits2 in *. lia. }
  pose proof (Zdigits2_lower (N / K) ltac:(lia)) as Hlow.
  set (d := Zdigits2 (N / K)) in *.
  assert (Hd53 : 53 <= d) by lia.
  assert (Hn : E - e = d - 53) by lia.
  assert (H52 : 2 ^ 52 <= m1).
  { eapply Z.le_trans; [|apply nearest_floor].
    rewrite <- Z.div_div by (try apply pow2_pos; lia).
    rewrite Hn.
    replace (2 ^ 52) with (2 ^ (d - 1) / 2 ^ (d - 53)).
    - apply Z.div_le_mono; [apply pow2_pos; lia|exact Hlow].
    - rewrite <- Z.pow_sub_r by lia. f_equal. lia. }
  pose proof (Zdigits2_ge _ 52 ltac:(lia) H52). lia.
Qed.

(** [binary_round_aux] on a positive value is [round_pos], when the value
    comes at least as precise as its exponent asks. *)
Lemma binary_round_aux_round_pos (N K e : Z) :
  0 < K -> 0 <= N -> e <= rounded_exponent N K e ->
  binary_round_aux prec emax false (N / K) e (location_of (N mod K) K)
  = round_pos N K e.
Proof.
  intros HK HN HE.
  destruct (shr_fexp_value N K e HK HN HE) as (mrs & H1 & HW1 & Hm1).
  unfold binary_round_aux. rewrite H1.
  rewrite round_nearest_even_value, HW1.
  fold (nearest N (K * 2 ^ (rounded_exponent N K e - e))).
  fold (rounded nearest N K e).
  pose proof (rounded_nearest_nonneg N K e HK HN HE) as Hm.
  pose proof (rounded_nearest_exponent N K e HK HN HE) as HE'.
  set (m1 := rounded nearest N K e) in *.
  set (E1 := rounded_exponent N K e) in *.
  destruct (shr_fexp_value m1 1 E1 ltac:(lia) Hm HE') as (mrs' & H2 & HW2 & Hm2).
  rewrite Z.div_1_r, Z.mod_1_r in H2. change (location_of 0 1) with loc_Exact in H2.
  rewrite H2. rewrite (shr_m_value mrs'), HW2, sticky_quotient_div.
  unfold round_pos. cbv zeta. fold E1. fold m1. unfold rounded. reflexivity.
Qed.

Lemma binary_round_aux_exact (N e : Z) :
  0 <= N -> e <= rounded_exponent N 1 e ->
  binary_round_aux prec emax false N e loc_Exact = round_pos N 1 e.
Proof.
  intros HN HE.
  rewrite <- (binary_round_aux_round_pos N 1 e) by (assumption || lia).
  rewrite Z.div_1_r, Z.mod_1_r. reflexivity.
Qed.

(** The shape of a rounded positive value. *)
Lemma round_pos_cases (N K e : Z) :
  0 < K -> 0 <= N -> e <= rounded_exponent N K e ->
  round_pos N K e = S754_zero false
  \/ round_pos N K e = S754_infinity false
  \/ exists m e', round_pos N K e = S754_finite false m e'.
Proof.
  intros HK HN HE. unfold round_pos.
  pose proof (rounded_nearest_nonneg N K e HK HN HE) as Hm.
  set (m1 := rounded nearest N K e) in *.
  set (E1 := rounded_exponent N K e) in *.
  assert (H2 : 0 <= rounded Z.div m1 1 E1).
  { unfold rounded. apply Z.div_pos; [exact Hm|].
    apply scaled_pos; [lia|].
    pose proof (rounded_nearest_exponent N K e HK HN HE). fold m1 E1 in H. lia. }
  destruct (rounded Z.div m1 1 E1) as [|m|m]; [tauto| |lia].
  destruct (_ <=? _); eauto.
Qed.

Lemma rounded_exponent_scale (N K e c : Z) :
  0 < K -> 0 < c -> rounded_exponent (N * c) (K * c) e = rounded_exponent N K e.
Proof.
  intros HK Hc. unfold rounded_exponent. rewrite Zdiv_scale by assumption.
  reflexivity.
Qed.

Lemma rounded_nearest_scale (N K e c : Z) :
  0 < K -> 0 < c -> e <= rounded_exponent N K e ->
  rounded nearest (N * c) (K * c) e = rounded nearest N K e.
Proof.
  intros HK Hc HE. unfold rounded.
  rewrite rounded_exponent_scale by assumption.
  replace (K * c * 2 ^ (rounded_exponent N K e - e))
    with (K * 2 ^ (rounded_exponent N K e - e) * c) by lia.
  apply nearest_scale; [|exact Hc]. apply scaled_pos; lia.
Qed.

Lemma round_pos_scale (N K e c : Z) :
  0 < K -> 0 < c -> e <= rounded_exponent N K e ->
  round_pos (N * c) (K * c) e = round_pos N K e.
Proof.
  intros HK Hc HE. unfold round_pos.
  rewrite rounded_nearest_scale, rounded_exponent_scale by assumption.
  reflexivity.
Qed.

(** ** Rounding is monotone *)

(** [binary_round_aux] is monotone on positive values: one step to the
    nearest, one that truncates nothing. *)
Lemma round_pos_mono (N1 N2 K e1 e2 B : Z) :
  0 < K -> 0 <= N1 -> 0 <= N2 ->
  e1 <= rounded_exponent N1 K e1 -> e2 <= rounded_exponent N2 K e2 ->
  0 <= e1 + B -> 0 <= e2 + B ->
  N1 * 2 ^ (e1 + B) <= N2 * 2 ^ (e2 + B) ->
  SFleb (round_pos N1 K e1) (round_pos N2 K e2) = true.
Proof.
  intros HK HN1 HN2 HE1 HE2 HB1 HB2 Hval.
  destruct (rounded_mono nearest nearest_mono nearest_scale nearest_multiple
              N1 N2 K e1 e2 B HK HN1 HN2 HE1 HE2 HB1 HB2 Hval) as [HE Hv].
  pose proof (rounded_nearest_nonneg N1 K e1 HK HN1 HE1) as Hm1.
  pose proof (rounded_nearest_nonneg N2 K e2 HK HN2 HE2) as Hm2.
  pose proof (rounded_nearest_exponent N1 K e1 HK HN1 HE1) as HE1'.
  pose proof (rounded_nearest_exponent N2 K e2 HK HN2 HE2) as HE2'.
  unfold round_pos.
  set (m1 := rounded nearest N1 K e1) in *. set (m2 := rounded nearest N2 K e2) in *.
  set (E1 := rounded_exponent N1 K e1) in *. set (E2 := rounded_exponent N2 K e2) in *.
  clearbody m1 m2 E1 E2.
  destruct (rounded_mono Z.div Zdiv_mono_pos Zdiv_scale Zdiv_multiple
              m1 m2 1 E1 E2 B ltac:(lia) Hm1 Hm2 HE1' HE2' ltac:(lia) ltac:(lia) Hv)
    as [HF Hw].
  assert (Hn1 : 0 <= rounded Z.div m1 1 E1).
  { unfold rounded. apply Z.div_pos; [exact Hm1|]. apply scaled_pos; lia. }
  assert (Hn2 : 0 <= rounded Z.div m2 1 E2).
  { unfold rounded. apply Z.div_pos; [exact Hm2|]. apply scaled_pos; lia. }
  set (F1 := rounded_exponent m1 1 E1) in *. set (F2 := rounded_exponent m2 1 E2) in *.
  clearbody F1 F2.
  pose proof (pow2_pos (F1 + B) ltac:(lia)) as Hp1.
  pose proof (pow2_pos (F2 + B) ltac:(lia)) as Hp2.
  destruct (rounded Z.div m1 1 E1) as [|a|a]; [|clear Hn1|lia].
  - destruct (rounded Z.div m2 1 E2) as [|b|b]; [reflexivity| |lia].
    destruct (F2 <=? emax - prec); reflexivity.
  - destruct (rounded Z.div m2 1 E2) as [|b|b]; [|clear Hn2|lia].
    + exfalso. assert (0 < Zpos a * 2 ^ (F1 + B)) by (apply Z.mul_pos_pos; lia).
      lia.
    + destruct (Z.leb_spec F1 (emax - prec)), (Z.leb_spec F2 (emax - prec));
        try reflexivity; [|lia].
      unfold SFleb, SFcompare.
      destruct (Z.compare_spec F1 F2) as [Heq|Hlt|Hgt]; [|reflexivity|lia].
      subst F2. assert (Hab : Zpos a <= Zpos b).
      { apply (Z.mul_le_mono_pos_r _ _ (2 ^ (F1 + B))); assumption. }
      change (Pos.compare_cont Eq a b) with (Pos.compare a b).
      destruct (Pos.compare_spec a b); try reflexivity. lia.
Qed.

(** The same for values over different denominators. *)
Lemma round_pos_le (N1 K1 e1 N2 K2 e2 B : Z) :
  0 < K1 -> 0 < K2 -> 0 <= N1 -> 0 <= N2 ->
  e1 <= rounded_exponent N1 K1 e1 -> e2 <= rounded_exponent N2 K2 e2 ->
  0 <= e1 + B -> 0 <= e2 + B ->
  N1 * 2 ^ (e1 + B) * K2 <= N2 * 2 ^ (e2 + B) * K1 ->
  SFleb (round_pos N1 K1 e1) (round_pos N2 K2 e2) = true.
Proof.
  intros HK1 HK2 HN1 HN2 HE1 HE2 HB1 HB2 Hval.
  rewrite <- (round_pos_scale N1 K1 e1 K2), <- (round_pos_scale N2 K2 e2 K1)
    by assumption.
  replace (K2 * K1) with (K1 * K2) by lia.
  apply (round_pos_mono _ _ _ _ _ B); try lia.
  - rewrite rounded_exponent_scale by assumption. exact HE1.
  - replace (K1 * K2) with (K2 * K1) by lia.
    rewrite rounded_exponent_scale by assumption. exact HE2.
Qed.

(** ** Multiplication and division of positive numbers *)

Lemma canonical_exponent (m : positive) (e : Z) :
  canonical_mantissa prec emax m e = true ->
  fexp prec emax (Zpos (digits2_pos m) + e) = e.
Proof. unfold canonical_mantissa. apply Z.eqb_eq. Qed.

(** Canonical numbers compare as their values do. *)
Lemma SFleb_value (m1 m2 : positive) (e1 e2 b : Z) :
  canonical_mantissa prec emax m1 e1 = true ->
  canonical_mantissa prec emax m2 e2 = true ->
  SFleb (S754_finite false m1 e1) (S754_finite false m2 e2) = true ->
  0 <= e1 + b -> 0 <= e2 + b ->
  Zpos m1 * 2 ^ (e1 + b) <= Zpos m2 * 2 ^ (e2 + b).
Proof.
  intros Hc1%canonical_exponent Hc2%canonical_exponent Hle Hb1 Hb2.
  pose proof (digits2_pos_bounds m1) as [_ Hu1].
  pose proof (digits2_pos_bounds m2) as [Hl2 _].
  set (d1 := Zpos (digits2_pos m1)) in *. set (d2 := Zpos (digits2_pos m2)) in *.
  assert (Hd1 : 0 < d1) by (unfold d1; lia).
  assert (Hd2 : 0 < d2) by (unfold d2; lia).
  clearbody d1 d2. unfold SFleb, SFcompare in Hle.
  pose proof (pow2_pos (e1 + b) Hb1) as Hp1.
  pose proof (pow2_pos (e2 + b) Hb2) as Hp2.
  destruct (Z.compare_spec e1 e2) as [Heq|Hlt|Hgt]; [| |discriminate].
  - subst e2. apply Z.mul_le_mono_nonneg_r; [lia|].
    change (Pos.compare_cont Eq m1 m2) with (Pos.compare m1 m2) in Hle.
    destruct (Pos.compare_spec m1 m2); try discriminate; lia.
  - assert (Hmag : d1 + e1 <= d2 - 1 + e2).
    { destruct (Z.le_gt_cases (d2 + e2) (d1 + e1)) as [Hge|Hgt]; [|lia].
      apply fexp_mono in Hge. rewrite Hc1, Hc2 in Hge. lia. }
    apply Z.le_trans with (2 ^ (d1 + (e1 + b))).
    + rewrite (pow2_add d1 (e1 + b)) by lia. apply Z.mul_le_mono_nonneg_r; lia.
    + apply Z.le_trans with (2 ^ (d2 - 1 + (e2 + b))).
      * apply pow2_le. lia.
      * rewrite (pow2_add (d2 - 1) (e2 + b)) by lia.
        apply Z.mul_le_mono_nonneg_r; lia.
Qed.

Lemma Zdigits2_mul (m1 m2 : positive) :
  Zpos (digits2_pos m1) + Zpos (digits2_pos m2) - 1
  <= Zdigits2 (Zpos m1 * Zpos m2).
Proof.
  pose proof (digits2_pos_bounds m1) as [Hl1 _].
  pose proof (digits2_pos_bounds m2) as [Hl2 _].
  set (d1 := Zpos (digits2_pos m1)) in *. set (d2 := Zpos (digits2_pos m2)) in *.
  assert (Hd1 : 0 < d1) by (unfold d1; lia).
  assert (Hd2 : 0 < d2) by (unfold d2; lia).
  clearbody d1 d2.
  assert (H : 2 ^ (d1 - 1 + (d2 - 1)) <= Zpos m1 * Zpos m2).
  { rewrite pow2_add by lia.
    pose proof (pow2_pos (d1 - 1)). pose proof (pow2_pos (d2 - 1)).
    apply Z.mul_le_mono_nonneg; lia. }
  apply Zdigits2_ge in H; lia.
Qed.

Lemma SFmul_round_pos (m1 m2 : positive) (e1 e2 : Z) :
  canonical_mantissa prec emax m1 e1 = true ->
  canonical_mantissa prec emax m2 e2 = true ->
  SFmul prec emax (S754_finite false m1 e1) (S754_finite false m2 e2)
  = round_pos (Zpos m1 * Zpos m2) 1 (e1 + e2)
  /\ e1 + e2 <= rounded_exponent (Zpos m1 * Zpos m2) 1 (e1 + e2).
Proof.
  intros Hc1%canonical_exponent Hc2%canonical_exponent.
  assert (HE : e1 + e2 <= rounded_exponent (Zpos m1 * Zpos m2) 1 (e1 + e2)).
  { unfold rounded_exponent. rewrite Z.div_1_r.
    pose proof (Zdigits2_mul m1 m2) as Hd.
    set (D := Zdigits2 (Zpos m1 * Zpos m2)) in *.
    set (d1 := Zpos (digits2_pos m1)) in *. set (d2 := Zpos (digits2_pos m2)) in *.
    assert (Hd1 : 0 < d1) by (unfold d1; lia).
    assert (Hd2 : 0 < d2) by (unfold d2; lia).
    clearbody D d1 d2. rewrite fexp_eq in *. lia. }
  split; [|exact HE].
  unfold SFmul. simpl xorb.
  change (Zpos (m1 * m2)) with (Zpos m1 * Zpos m2).
  apply binary_round_aux_exact; [lia|exact HE].
Qed.

Lemma new_location_eq (K r : Z) :
  0 <= r < K -> new_location K r = location_of r K.
Proof.
  intros Hr. unfold new_location, location_of.
  destruct (Z.even K) eqn:Heven.
  - reflexivity.
  - unfold new_location_odd. destruct (r =? 0); [reflexivity|].
    assert (Hodd : Z.odd K = true) by (rewrite <- Z.negb_even, Heven; reflexivity).
    apply Z.odd_spec in Hodd as [j Hj].
    destruct (Z.compare_spec (2 * r + 1) K), (Z.compare_spec (2 * r) K);
      try reflexivity; lia.
Qed.

Lemma SFdiv_round_pos (m1 m2 : positive) (e1 e2 : Z) :
  let e' := div_exponent m1 e1 m2 e2 in
  let N := Zpos m1 * 2 ^ (e1 - e2 - e') in
  SFdiv prec emax (S754_finite false m1 e1) (S754_finite false m2 e2)
  = round_pos N (Zpos m2) e'
  /\ e' <= rounded_exponent N (Zpos m2) e'
  /\ 0 <= e1 - e2 - e'.
Proof.
  intros e' N.
  assert (Hs : 0 <= e1 - e2 - e') by (unfold e', div_exponent; lia).
  assert (HN : 0 < N) by (apply scaled_pos; lia).
  assert (HE : e' <= rounded_exponent N (Zpos m2) e').
  { unfold rounded_exponent.
    pose proof (fexp_cases (Zdigits2 (N / Zpos m2) + e')) as (Hf & Hf' & _).
    destruct (Z.le_gt_cases e' (-1074)) as [Hlow|Hhigh]; [lia|].
    pose proof (digits2_pos_bounds m1) as [Hl1 _].
    pose proof (digits2_pos_bounds m2) as [_ Hu2].
    assert (Hs' : 53 + Zpos (digits2_pos m2) - Zpos (digits2_pos m1)
                  <= e1 - e2 - e').
    { unfold e', div_exponent in Hhigh |- *. rewrite fexp_eq in Hhigh |- *. lia. }
    set (d1 := Zpos (digits2_pos m1)) in *. set (d2 := Zpos (digits2_pos m2)) in *.
    assert (Hd1 : 0 < d1) by (unfold d1; lia).
    assert (Hd2 : 0 < d2) by (unfold d2; lia).
    clearbody d1 d2. unfold N in *.
    set (s := e1 - e2 - e') in *. clearbody s.
    assert (H52 : 2 ^ 52 <= Zpos m1 * 2 ^ s / Zpos m2).
    { apply Z.div_le_lower_bound; [lia|].
      apply Z.le_trans with (2 ^ d2 * 2 ^ 52); [apply Z.mul_le_mono_nonneg_r; lia|].
      rewrite <- pow2_add by lia.
      apply Z.le_trans with (2 ^ (d1 - 1 + s)); [apply pow2_le; lia|].
      rewrite (pow2_add (d1 - 1) s) by lia.
      apply Z.mul_le_mono_nonneg_r; [|lia]. pose proof (pow2_pos s). lia. }
    apply Zdigits2_ge in H52; lia. }
  split; [|split; [exact HE|exact Hs]].
  rewrite <- binary_round_aux_round_pos by (assumption || lia).
  unfold SFdiv, SFdiv_core_binary. simpl xorb.
  change (Zdigits2 (Zpos m1)) with (Zpos (digits2_pos m1)).
  change (Zdigits2 (Zpos m2)) with (Zpos (digits2_pos m2)).
  fold (div_exponent m1 e1 m2 e2). fold e'.
  assert (Hm' : match e1 - e2 - e' with
                | Z0 => Zpos m1
                | Zpos _ => Z.shiftl (Zpos m1) (e1 - e2 - e')
                | Zneg _ => 0
                end = N).
  { unfold N. destruct (e1 - e2 - e') as [|p|p] eqn:Hp; [simpl; lia| |lia].
    rewrite Z.shiftl_mul_pow2 by lia. reflexivity. }
  rewrite Hm'.
  assert (Hdiv : Z.div_eucl N (Zpos m2) = (N / Zpos m2, N mod Zpos m2)).
  { unfold Z.div, Z.modulo. destruct (Z.div_eucl N (Zpos m2)). reflexivity. }
  rewrite Hdiv. rewrite new_location_eq; [reflexivity|].
  apply Z.mod_pos_bound. lia.
Qed.

Lemma valid_canonical (s : bool) (m : positive) (e : Z) :
  valid_binary (S754_finite s m e) = true ->
  canonical_mantissa prec emax m e = true.
Proof. simpl. unfold bounded. intros [H _]%andb_true_iff. exact H. Qed.

Lemma canonical_exponent_min (m : positive) (e : Z) :
  canonical_mantissa prec emax m e = true -> -1074 <= e.
Proof.
  intros H%canonical_exponent.
  pose proof (fexp_cases (Zpos (digits2_pos m) + e)). lia.
Qed.

Lemma SFleb_zero_l (s : bool) (N K e : Z) :
  0 < K -> 0 <= N -> e <= rounded_exponent N K e ->
  SFleb (S754_zero s) (round_pos N K e) = true.
Proof.
  intros HK HN HE.
  destruct (round_pos_cases N K e HK HN HE) as [->|[->|(m & e' & ->)]];
    reflexivity.
Qed.

Lemma SFleb_infinity_r (N K e : Z) :
  0 < K -> 0 <= N -> e <= rounded_exponent N K e ->
  SFleb (round_pos N K e) (S754_infinity false) = true.
Proof.
  intros HK HN HE.
  destruct (round_pos_cases N K e HK HN HE) as [->|[->|(m & e' & ->)]];
    reflexivity.
Qed.

(** Dividing by a positive number is monotone on the numbers that are not
    negative. *)
Lemma SFdiv_mono (x y : spec_float) (mc : positive) (ec : Z) :
  valid_binary x = true -> valid_binary y = true ->
  SFleb (S754_zero false) x = true -> SFleb x y = true ->
  SFleb (SFdiv prec emax x (S754_finite false mc ec))
        (SFdiv prec emax y (S754_finite false mc ec)) = true.
Proof.
  intros Hvx Hvy H0 Hle.
  destruct x as [sx|[]| |[] mx ex]; try discriminate;
    destruct y as [sy|[]| |[] my ey]; try discriminate.
  - reflexivity.
  - reflexivity.
  - destruct (SFdiv_round_pos my mc ey ec) as (-> & HE & Hs).
    apply SFleb_zero_l; [lia| |exact HE].
    apply Z.lt_le_incl, scaled_pos; lia.
  - reflexivity.
  - destruct (SFdiv_round_pos mx mc ex ec) as (-> & HE & Hs).
    apply SFleb_infinity_r; [lia| |exact HE].
    apply Z.lt_le_incl, scaled_pos; lia.
  - apply valid_canonical in Hvx, Hvy.
    destruct (SFdiv_round_pos mx mc ex ec) as (-> & HE1 & Hs1).
    destruct (SFdiv_round_pos my mc ey ec) as (-> & HE2 & Hs2).
    set (e1 := div_exponent mx ex mc ec) in *.
    set (e2 := div_exponent my ey mc ec) in *. clearbody e1 e2.
    set (B := Z.max (- e1) (- e2)).
    apply (round_pos_mono _ _ _ _ _ B);
      [lia|apply Z.lt_le_incl, scaled_pos; lia|apply Z.lt_le_incl, scaled_pos; lia
      |exact HE1|exact HE2|lia|lia|].
    rewrite <- !Z.mul_assoc, <- !pow2_add by lia.
    replace (ex - ec - e1 + (e1 + B)) with (ex + (B - ec)) by lia.
    replace (ey - ec - e2 + (e2 + B)) with (ey + (B - ec)) by lia.
    apply SFleb_value; try assumption; lia.
Qed.

(** Multiplying positive numbers is monotone in both. *)
Lemma SFmul_mono_finite (ma mb mc md : positive) (ea eb ec ed : Z) :
  canonical_mantissa prec emax ma ea = true ->
  canonical_mantissa prec emax mb eb = true ->
  canonical_mantissa prec emax mc ec = true ->
  canonical_mantissa prec emax md ed = true ->
  SFleb (S754_finite false ma ea) (S754_finite false mb eb) = true ->
  SFleb (S754_finite false mc ec) (S754_finite false md ed) = true ->
  SFleb (SFmul prec emax (S754_finite false ma ea) (S754_finite false mc ec))
        (SFmul prec emax (S754_finite false mb eb) (S754_finite false md ed)) = true.
Proof.
  intros Ha Hb Hc Hd Hab Hcd.
  destruct (SFmul_round_pos ma mc ea ec Ha Hc) as [-> HE1].
  destruct (SFmul_round_pos mb md eb ed Hb Hd) as [-> HE2].
  pose proof (canonical_exponent_min _ _ Ha). pose proof (canonical_exponent_min _ _ Hb).
  pose proof (canonical_exponent_min _ _ Hc). pose proof (canonical_exponent_min _ _ Hd).
  apply (round_pos_mono _ _ _ _ _ 2148); [lia|lia|lia|exact HE1|exact HE2|lia|lia|].
  pose proof (SFleb_value ma mb ea eb 1074 Ha Hb Hab ltac:(lia) ltac:(lia)) as Hv1.
  pose proof (SFleb_value mc md ec ed 1074 Hc Hd Hcd ltac:(lia) ltac:(lia)) as Hv2.
  replace (ea + ec + 2148) with ((ea + 1074) + (ec + 1074)) by lia.
  replace (eb + ed + 2148) with ((eb + 1074) + (ed + 1074)) by lia.
  rewrite (pow2_add (ea + 1074) (ec + 1074)), (pow2_add (eb + 1074) (ed + 1074))
    by lia.
  pose proof (pow2_pos (ea + 1074) ltac:(lia)). pose proof (pow2_pos (ec + 1074) ltac:(lia)).
  replace (Zpos ma * Zpos mc * (2 ^ (ea + 1074) * 2 ^ (ec + 1074)))
    with ((Zpos ma * 2 ^ (ea + 1074)) * (Zpos mc * 2 ^ (ec + 1074))) by ring.
  replace (Zpos mb * Zpos md * (2 ^ (eb + 1074) * 2 ^ (ed + 1074)))
    with ((Zpos mb * 2 ^ (eb + 1074)) * (Zpos md * 2 ^ (ed + 1074))) by ring.
  pose proof (scaled_pos (Zpos ma) (ea + 1074) ltac:(lia) ltac:(lia)).
  pose proof (scaled_pos (Zpos mc) (ec + 1074) ltac:(lia) ltac:(lia)).
  apply Z.mul_le_mono_nonneg; lia.
Qed.

Lemma SFmul_zero_l (s : bool) (ma mc : positive) (ea ec : Z) :
  canonical_mantissa prec emax ma ea = true ->
  canonical_mantissa prec emax mc ec = true ->
  SFleb (S754_zero s)
        (SFmul prec emax (S754_finite false ma ea) (S754_finite false mc ec)) = true.
Proof.
  intros Ha Hc. destruct (SFmul_round_pos ma mc ea ec Ha Hc) as [-> HE].
  apply SFleb_zero_l; [lia|lia|exact HE].
Qed.

Lemma SFmul_infinity_r (ma mc : positive) (ea ec : Z) :
  canonical_mantissa prec emax ma ea = true ->
  canonical_mantissa prec emax mc ec = true ->
  SFleb (SFmul prec emax (S754_finite false ma ea) (S754_finite false mc ec))
        (S754_infinity false) = true.
Proof.
  intros Ha Hc. destruct (SFmul_round_pos ma mc ea ec Ha Hc) as [-> HE].
  apply SFleb_infinity_r; [lia|lia|exact HE].
Qed.

Lemma SFleb_refl_finite (m : positive) (e : Z) :
  SFleb (S754_finite false m e) (S754_finite false m e) = true.
Proof.
  unfold SFleb, SFcompare. rewrite Z.compare_refl.
  change (Pos.compare_cont Eq m m) with (Pos.compare m m).
  rewrite Pos.compare_refl. reflexivity.
Qed.

(** A positive factor on the left. *)
Lemma SFmul_mono_r (mc : positive) (ec : Z) (x y : spec_float) :
  canonical_mantissa prec emax mc ec = true ->
  valid_binary x = true -> valid_binary y = true ->
  SFleb (S754_zero false) x = true -> SFleb x y = true ->
  SFleb (SFmul prec emax (S754_finite false mc ec) x)
        (SFmul prec emax (S754_finite false mc ec) y) = true.
Proof.
  intros Hc Hvx Hvy H0 Hle.
  destruct x as [sx|[]| |[] mx ex]; try discriminate;
    destruct y as [sy|[]| |[] my ey]; try discriminate.
  - reflexivity.
  - reflexivity.
  - apply valid_canonical in Hvy. apply SFmul_zero_l; assumption.
  - reflexivity.
  - apply valid_canonical in Hvx. apply SFmul_infinity_r; assumption.
  - apply valid_canonical in Hvx, Hvy.
    apply SFmul_mono_finite; try assumption. apply SFleb_refl_finite.
Qed.

(** Squares. *)
Lemma SFmul_square_mono (x y : spec_float) :
  valid_binary x = true -> valid_binary y = true ->
  SFleb (S754_zero false) x = true -> SFleb x y = true ->
  SFleb (SFmul prec emax x x) (SFmul prec emax y y) = true.
Proof.
  intros Hvx Hvy H0 Hle.
  destruct x as [sx|[]| |[] mx ex]; try discriminate;
    destruct y as [sy|[]| |[] my ey]; try discriminate.
  - destruct sx, sy; reflexivity.
  - destruct sx; reflexivity.
  - apply valid_canonical in Hvy.
    replace (SFmul prec emax (S754_zero sx) (S754_zero sx)) with (S754_zero false)
      by (destruct sx; reflexivity).
    apply SFmul_zero_l; assumption.
  - reflexivity.
  - apply valid_canonical in Hvx. apply SFmul_infinity_r; assumption.
  - apply valid_canonical in Hvx, Hvy.
    apply SFmul_mono_finite; assumption.
Qed.

(** ** The sign of a difference *)

Lemma iter_xO_value (m d : positive) :
  Zpos (Pos.iter xO m d) = Zpos m * 2 ^ Zpos d.
Proof.
  induction d as [|d IH] using Pos.peano_ind.
  - simpl. lia.
  - rewrite Pos.iter_succ, Pos2Z.inj_succ, Z.pow_succ_r by lia.
    rewrite Pos2Z.inj_xO, IH. lia.
Qed.

Lemma shl_align_value (m : positive) (e ez : Z) :
  ez <= e -> Zpos (fst (shl_align m e ez)) = Zpos m * 2 ^ (e - ez).
Proof.
  intros Hle. unfold shl_align.
  destruct (ez - e) as [|d|d] eqn:Hd; simpl fst.
  - replace (e - ez) with 0 by lia. lia.
  - lia.
  - rewrite iter_xO_value. f_equal. f_equal. lia.
Qed.

Lemma binary_round_aux_negative (m e : Z) (l : location) :
  SFltb (S754_zero false) (binary_round_aux prec emax true m e l) = false.
Proof.
  unfold binary_round_aux.
  destruct (shr_fexp prec emax m e l) as [mrs' e'].
  destruct (shr_fexp prec emax _ e' loc_Exact) as [mrs'' e''].
  destruct (shr_m mrs''); try reflexivity.
  destruct (e'' <=? emax - prec); reflexivity.
Qed.

Lemma SFsub_not_positive (a b : spec_float) :
  valid_binary a = true -> valid_binary b = true ->
  SFleb (S754_zero false) a = true -> SFleb a b = true ->
  SFltb (S754_zero false) (SFsub prec emax a b) = false.
Proof.
  intros Hva Hvb H0 Hle.
  destruct a as [sa|[]| |[] ma ea]; try discriminate;
    destruct b as [sb|[]| |[] mb eb]; try discriminate; try reflexivity.
  - destruct sa, sb; reflexivity.
  - apply valid_canonical in Hva, Hvb.
    unfold SFsub. cbn [cond_Zopp].
    set (ez := Z.min ea eb).
    rewrite (shl_align_value ma ea ez), (shl_align_value mb eb ez) by lia.
    pose proof (SFleb_value ma mb ea eb (- ez) Hva Hvb Hle ltac:(lia) ltac:(lia))
      as Hv.
    replace (ea + - ez) with (ea - ez) in Hv by lia.
    replace (eb + - ez) with (eb - ez) in Hv by lia.
    destruct (Zpos ma * 2 ^ (ea - ez) - Zpos mb * 2 ^ (eb - ez)) as [|p|p] eqn:Hd;
      [reflexivity|lia|].
    unfold binary_normalize, binary_round.
    destruct (shl_align p ez _) as [mz ez'].
    apply binary_round_aux_negative.
Qed.

(** ** The same on binary64 numbers *)

Lemma float_div_mono (x y c : float) (mc : positive) (ec : Z) :
  Prim2SF c = S754_finite false mc ec ->
  (0 <=? x)%float = true -> (x <=? y)%float = true ->
  (x / c <=? y / c)%float = true.
Proof.
  intros Hc H0 Hle. rewrite FloatAxioms.leb_spec in *.
  rewrite !div_spec, Hc.
  apply SFdiv_mono; try apply Prim2SF_valid; assumption.
Qed.

Lemma float_mul_mono_r (c x y : float) (mc : positive) (ec : Z) :
  Prim2SF c = S754_finite false mc ec ->
  (0 <=? x)%float = true -> (x <=? y)%float = true ->
  (c * x <=? c * y)%float = true.
Proof.
  intros Hc H0 Hle. rewrite FloatAxioms.leb_spec in *.
  rewrite !mul_spec, Hc.
  apply SFmul_mono_r; try apply Prim2SF_valid; try assumption.
  apply (valid_canonical false). rewrite <- Hc. apply Prim2SF_valid.
Qed.

Lemma float_square_mono (x y : float) :
  (0 <=? x)%float = true -> (x <=? y)%float = true ->
  (x * x <=? y * y)%float = true.
Proof.
  intros H0 Hle. rewrite FloatAxioms.leb_spec in *.
  rewrite !mul_spec.
  apply SFmul_square_mono; try apply Prim2SF_valid; assumption.
Qed.

Lemma float_sub_not_positive (a b : float) :
  (0 <=? a)%float = true -> (a <=? b)%float = true ->
  (0 <? a - b)%float = false.
Proof.
  intros H0 Hle. rewrite FloatAxioms.leb_spec in *.
  rewrite FloatAxioms.ltb_spec, sub_spec.
  apply SFsub_not_positive; try apply Prim2SF_valid; assumption.
Qed.

(** ** The order of areas *)

(** The correctly rounded square is monotone. *)
Lemma exact_runtime_monotone : monotone_pow exact_runtime.
Proof.
  intros x y s t H0 Hle Hs Ht.
  apply float_pow2_exact in Hs, Ht. subst s t.
  apply float_square_mono; assumption.
Qed.

Lemma Prim2SF_pi :
  Prim2SF Py.math_pi = S754_finite false 7074237752028440 (-51).
Proof. reflexivity. Qed.

Lemma Prim2SF_4 : Prim2SF 4 = S754_finite false 4503599627370496 (-50).
Proof. reflexivity. Qed.

Lemma Prim2SF_12 : Prim2SF 12 = S754_finite false 6755399441055744 (-49).
Proof. reflexivity. Qed.

Section Areas.

Context {rt : Runtime}.
Hypothesis pow_monotone : monotone_pow rt.

Lemma float_pow2_zero : Py.float_pow2 0 = Ok 0%float.
Proof. reflexivity. Qed.

(** The area grows with a non-negative quotient. *)
Lemma scaled_square_mono (qh ql ah al : float) :
  (0 <=? qh)%float = true -> (qh <=? ql)%float = true ->
  (s ← Py.float_pow2 qh; Ok (Py.math_pi * s / 4)%float) = Ok ah ->
  (s ← Py.float_pow2 ql; Ok (Py.math_pi * s / 4)%float) = Ok al ->
  (0 <=? ah)%float = true /\ (ah <=? al)%float = true.
Proof.
  intros H0 Hle Hh Hl. step Hh. step Hl.
  injection Hh as <-. injection Hl as <-.
  rename E into Hsh, E0 into Hsl.
  pose proof (pow_monotone 0%float qh 0%float a ltac:(reflexivity) H0 float_pow2_zero Hsh) as Hs0.
  pose proof (pow_monotone qh ql a a0 H0 Hle Hsh Hsl) as Hs.
  pose proof (float_mul_mono_r Py.math_pi 0%float a _ _ Prim2SF_pi ltac:(reflexivity) Hs0)
    as Hp0.
  change (Py.math_pi * 0)%float with 0%float in Hp0.
  pose proof (float_mul_mono_r Py.math_pi a a0 _ _ Prim2SF_pi Hs0 Hs) as Hp.
  pose proof (float_div_mono 0%float (Py.math_pi * a)%float 4%float _ _ Prim2SF_4 ltac:(reflexivity) Hp0)
    as Ha0.
  change (0 / 4)%float with 0%float in Ha0.
  split; [exact Ha0|].
  apply (float_div_mono _ _ 4%float _ _ Prim2SF_4 Hp0 Hp).
Qed.

End Areas.

(** ** Rounded values are valid numbers *)

Lemma Zdigits2_shift (m n : Z) :
  0 <= n -> 0 < m / 2 ^ n -> Zdigits2 (m / 2 ^ n) = Zdigits2 m - n.
Proof.
  intros Hn Hq.
  pose proof (pow2_pos n Hn) as Hp.
  assert (Hm : 2 ^ n <= m).
  { destruct (Z.lt_ge_cases m (2 ^ n)) as [Hlt|]; [|assumption].
    destruct (Z.lt_ge_cases m 0) as [Hneg|Hnn].
    - pose proof (Z.div_lt_upper_bound m (2 ^ n) 0 Hp ltac:(lia)). lia.
    - rewrite Z.div_small in Hq by lia. lia. }
  pose proof (Zdigits2_ge m n Hn Hm) as Hd.
  pose proof (Zdigits2_lower m ltac:(lia)) as Hl.
  pose proof (Zdigits2_upper m ltac:(lia)) as Hu.
  set (d := Zdigits2 m) in *. clearbody d.
  assert (Hlow : 2 ^ (d - 1 - n) <= m / 2 ^ n).
  { apply Z.div_le_lower_bound; [exact Hp|].
    rewrite <- pow2_add by lia. replace (n + (d - 1 - n)) with (d - 1) by lia.
    exact Hl. }
  assert (Hup : m / 2 ^ n < 2 ^ (d - n)).
  { apply Z.div_lt_upper_bound; [exact Hp|].
    rewrite <- pow2_add by lia. replace (n + (d - n)) with d by lia. exact Hu. }
  pose proof (Zdigits2_ge _ (d - 1 - n) ltac:(lia) Hlow).
  pose proof (Zdigits2_le (m / 2 ^ n) (d - n) ltac:(lia) ltac:(lia)).
  lia.
Qed.

Lemma round_pos_valid (N K e : Z) :
  0 < K -> 0 <= N -> e <= rounded_exponent N K e ->
  valid_binary (round_pos N K e) = true.
Proof.
  intros HK HN HE. unfold round_pos.
  pose proof (rounded_nearest_nonneg N K e HK HN HE) as Hm.
  pose proof (rounded_nearest_exponent N K e HK HN HE) as HE'.
  set (m1 := rounded nearest N K e) in *.
  set (E1 := rounded_exponent N K e) in *. clearbody m1 E1.
  unfold rounded.
  assert (HE2 : rounded_exponent m1 1 E1 = fexp prec emax (Zdigits2 m1 + E1)).
  { unfold rounded_exponent. rewrite Z.div_1_r. reflexivity. }
  set (E2 := rounded_exponent m1 1 E1) in *. clearbody E2.
  rewrite Z.mul_1_l.
  destruct (m1 / 2 ^ (E2 - E1)) as [|m|m] eqn:Hm2; try reflexivity.
  destruct (Z.leb_spec E2 (emax - prec)) as [Hle|Hgt]; [|reflexivity].
  simpl. unfold bounded, canonical_mantissa.
  apply andb_true_iff. split; [|apply Z.leb_le; exact Hle].
  apply Z.eqb_eq.
  change (Zpos (digits2_pos m)) with (Zdigits2 (Zpos m)).
  rewrite <- Hm2, Zdigits2_shift by lia.
  replace (Zdigits2 m1 - (E2 - E1) + E2) with (Zdigits2 m1 + E1) by lia.
  symmetry. exact HE2.
Qed.

(** ** An int divided by 12 *)

Lemma int_truediv_pos (p : positive) (q : float) :
  Py.int_truediv (Zpos p) 12 = Ok q ->
  let e' := div_exponent p 0 12 0 in
  Prim2SF q = round_pos (Zpos p * 2 ^ (0 - 0 - e')) 12 e'.
Proof.
  intros Hq e'. unfold Py.int_truediv in Hq.
  change (Zpos p <? 0) with false in Hq.
  destruct (SFdiv_round_pos p 12 0 0) as (Hdiv & HE & Hs).
  fold e' in Hdiv, HE, Hs. rewrite Hdiv in Hq.
  assert (Hvalid : valid_binary (round_pos (Zpos p * 2 ^ (0 - 0 - e')) 12 e') = true).
  { apply round_pos_valid; [lia| |exact HE]. apply Z.lt_le_incl, scaled_pos; lia. }
  assert (Hq' : q = SF2Prim (round_pos (Zpos p * 2 ^ (0 - 0 - e')) 12 e')).
  { destruct (round_pos (Zpos p * 2 ^ (0 - 0 - e')) 12 e') as [s|s| |s m e];
      try discriminate; injection Hq as <-; reflexivity. }
  rewrite Hq'. apply Prim2SF_SF2Prim. exact Hvalid.
Qed.

Lemma float_le_int_value (m : positive) (e : Z) (x : float) (p : positive) (B : Z) :
  Prim2SF x = S754_finite false m e ->
  float_le_int x (Zpos p) = true -> 0 <= B -> 0 <= e + B ->
  Zpos m * 2 ^ (e + B) <= Zpos p * 2 ^ B.
Proof.
  intros Hx Hle HB HeB. unfold float_le_int in Hle. rewrite Hx in Hle.
  cbv zeta in Hle.
  destruct (Z.leb_spec 0 e) as [He|He].
  - apply Z.leb_le in Hle. rewrite pow2_add by lia.
    rewrite Z.mul_assoc. apply Z.mul_le_mono_nonneg_r; [|exact Hle].
    pose proof (pow2_pos B HB). lia.
  - apply Z.leb_le in Hle.
    replace B with (- e + (e + B)) at 2 by lia.
    rewrite (pow2_add (- e) (e + B)) by lia.
    rewrite Z.mul_assoc. apply Z.mul_le_mono_nonneg_r; [|exact Hle].
    pose proof (pow2_pos (e + B) HeB). lia.
Qed.

Lemma float_le_int_nonneg (x : float) (n : Z) :
  (0 <=? x)%float = true -> float_le_int x n = true ->
  0 < n \/ (n = 0 /\ exists s, Prim2SF x = S754_zero s).
Proof.
  rewrite FloatAxioms.leb_spec. change (Prim2SF 0) with (S754_zero false).
  unfold float_le_int.
  destruct (Prim2SF x) as [s|[]| |[] m e]; try discriminate.
  - intros _ Hn%Z.leb_le. destruct (Z.eq_dec n 0); [right|left; lia].
    split; [assumption|]. exists s. reflexivity.
  - intros _. cbv zeta.
    destruct (Z.leb_spec 0 e) as [He|He]; intros Hle%Z.leb_le; left.
    + pose proof (scaled_pos (Zpos m) e ltac:(lia) He). lia.
    + pose proof (pow2_pos (- e) ltac:(lia)).
      destruct (Z.lt_ge_cases 0 n); [assumption|]. nia.
Qed.

Lemma quotient_of_zero (x : float) (s : bool) :
  Prim2SF x = S754_zero s -> Prim2SF (x / 12) = S754_zero s.
Proof.
  intros Hx. rewrite div_spec, Hx, Prim2SF_12. destruct s; reflexivity.
Qed.

Lemma truediv_12_int_mono (oh : float) (n : Z) (ql : float) :
  (0 <=? oh)%float = true -> float_le_int oh n = true ->
  Py.int_truediv n 12 = Ok ql ->
  (oh / 12 <=? ql)%float = true.
Proof.
  intros H0 Hle Hq.
  destruct (float_le_int_nonneg oh n H0 Hle) as [Hn|[-> [s Hs]]].
  - destruct n as [|p|p]; try lia.
    pose proof (int_truediv_pos p ql Hq) as Hql. cbv zeta in Hql.
    destruct (SFdiv_round_pos p 12 0 0) as (_ & HE2 & Hs2).
    set (e2 := div_exponent p 0 12 0) in *. clearbody e2.
    rewrite FloatAxioms.leb_spec in *. rewrite Hql, div_spec, Prim2SF_12.
    unfold SF64div.
    change (Prim2SF 0) with (S754_zero false) in H0.
    pose proof (Prim2SF_valid oh) as Hv.
    assert (HN2 : 0 <= Zpos p * 2 ^ (0 - 0 - e2))
      by (apply Z.lt_le_incl, scaled_pos; lia).
    destruct (Prim2SF oh) as [s|[]| |[] mx ex] eqn:Hx; try discriminate.
    + apply SFleb_zero_l; [lia|exact HN2|exact HE2].
    + unfold float_le_int in Hle. rewrite Hx in Hle. discriminate.
    + apply valid_canonical in Hv.
      destruct (SFdiv_round_pos mx 6755399441055744 ex (-49)) as (-> & HE1 & Hs1).
      set (e1 := div_exponent mx ex 6755399441055744 (-49)) in *. clearbody e1.
      set (B := Z.max (Z.max (- e1) (- e2)) (Z.max 0 (- ex))).
      apply (round_pos_le _ _ _ _ _ _ B);
        [lia|lia|apply Z.lt_le_incl, scaled_pos; lia|exact HN2
        |exact HE1|exact HE2|lia|lia|].
      pose proof (float_le_int_value mx ex oh p B Hx Hle ltac:(lia) ltac:(lia)) as Hv'.
      assert (HL : Zpos mx * 2 ^ (ex - -49 - e1) * 2 ^ (e1 + B)
                   = Zpos mx * 2 ^ (ex + B) * 2 ^ 49).
      { rewrite <- !Z.mul_assoc, <- !pow2_add by lia. do 2 f_equal. lia. }
      assert (HR : Zpos p * 2 ^ (0 - 0 - e2) * 2 ^ (e2 + B) = Zpos p * 2 ^ B).
      { rewrite <- !Z.mul_assoc, <- !pow2_add by lia. do 2 f_equal. lia. }
      rewrite HL, HR.
      change 6755399441055744 with (12 * 2 ^ 49).
      set (P := 2 ^ 49) in *. assert (0 < P) by (unfold P; lia). clearbody P.
      set (a := Zpos mx * 2 ^ (ex + B)) in *. set (b := Zpos p * 2 ^ B) in *.
      clearbody a b. nia.
  - injection Hq as <-. rewrite FloatAxioms.leb_spec.
    rewrite (quotient_of_zero oh s Hs). destruct s; reflexivity.
Qed.

(** The quotient by 12 keeps the order of a non-negative float and a
    number, whichever the number is. *)
Lemma truediv_12_mono (oh : float) (od : pyval) (ql : float) :
  (0 <=? oh)%float = true -> float_le oh od = true ->
  Py.truediv_12 od = Ok ql ->
  (0 <=? oh / 12)%float = true /\ (oh / 12 <=? ql)%float = true.
Proof.
  intros H0 Hle Hq. split.
  - apply (float_div_mono 0%float oh 12%float _ _ Prim2SF_12 ltac:(reflexivity) H0).
  - destruct od as [|b|n|y| | |]; try discriminate; simpl in Hle, Hq.
    + apply (truediv_12_int_mono oh (Py.int_of_bool b)); assumption.
    + apply (truediv_12_int_mono oh n); assumption.
    + injection Hq as <-.
      apply (float_div_mono oh y 12%float _ _ Prim2SF_12 H0 Hle).
Qed.

Lemma SF2Prim_opp (sf : spec_float) :
  valid_binary sf = true -> SF2Prim (SFopp sf) = (- SF2Prim sf)%float.
Proof.
  intros Hv. apply Prim2SF_inj.
  rewrite opp_spec, !Prim2SF_SF2Prim; [reflexivity|exact Hv|].
  destruct sf; exact Hv.
Qed.

(** ** Equal values round alike *)

Lemma round_pos_eq (N1 K1 e1 N2 K2 e2 B : Z) :
  0 < K1 -> 0 < K2 -> 0 <= N1 -> 0 <= N2 ->
  e1 <= rounded_exponent N1 K1 e1 -> e2 <= rounded_exponent N2 K2 e2 ->
  0 <= e1 + B -> 0 <= e2 + B ->
  N1 * 2 ^ (e1 + B) * K2 = N2 * 2 ^ (e2 + B) * K1 ->
  round_pos N1 K1 e1 = round_pos N2 K2 e2.
Proof.
  intros HK1 HK2 HN1 HN2 HE1 HE2 HB1 HB2 Hval.
  pose proof (round_pos_le N1 K1 e1 N2 K2 e2 B HK1 HK2 HN1 HN2 HE1 HE2 HB1 HB2
                ltac:(lia)) as H12.
  pose proof (round_pos_le N2 K2 e2 N1 K1 e1 B HK2 HK1 HN2 HN1 HE2 HE1 HB2 HB1
                ltac:(lia)) as H21.
  destruct (round_pos_cases N1 K1 e1 HK1 HN1 HE1) as [H1|[H1|(m1 & f1 & H1)]];
    destruct (round_pos_cases N2 K2 e2 HK2 HN2 HE2) as [H2|[H2|(m2 & f2 & H2)]];
    rewrite H1, H2 in *; try reflexivity; try discriminate.
  unfold SFleb, SFcompare in H12, H21.
  destruct (Z.compare_spec f1 f2) as [Heq|Hlt|Hgt]; try discriminate.
  - subst f2. rewrite Z.compare_refl in H21.
    change (Pos.compare_cont Eq m1 m2) with (Pos.compare m1 m2) in H12.
    change (Pos.compare_cont Eq m2 m1) with (Pos.compare m2 m1) in H21.
    destruct (Pos.compare_spec m1 m2) as [->|Hlt|Hgt]; try discriminate.
    + reflexivity.
    + destruct (Pos.compare_spec m2 m1); try discriminate; lia.
  - destruct (Z.compare_spec f2 f1); try discriminate; lia.
Qed.

(** A canonical number rounds to itself. *)
Lemma round_pos_canonical (m : positive) (e : Z) :
  canonical_mantissa prec emax m e = true -> e <= emax - prec ->
  round_pos (Zpos m) 1 e = S754_finite false m e
  /\ e <= rounded_exponent (Zpos m) 1 e.
Proof.
  intros Hc%canonical_exponent He.
  assert (HE : rounded_exponent (Zpos m) 1 e = e).
  { unfold rounded_exponent. rewrite Z.div_1_r. exact Hc. }
  split; [|lia].
  unfold round_pos, rounded. rewrite !HE, Z.sub_diag.
  change (1 * 2 ^ 0) with 1.
  replace (nearest (Zpos m) 1) with (Zpos m)
    by (symmetry; rewrite <- (Z.mul_1_r (Zpos m)) at 1; apply nearest_multiple; lia).
  rewrite HE, Z.sub_diag. change (1 * 2 ^ 0) with 1. rewrite Z.div_1_r.
  apply Z.leb_le in He. rewrite He. reflexivity.
Qed.

Lemma Zdigits2_shl (m k : Z) :
  0 < m -> 0 <= k -> Zdigits2 (m * 2 ^ k) = Zdigits2 m + k.
Proof.
  intros Hm Hk.
  pose proof (pow2_pos k Hk) as Hp.
  pose proof (Zdigits2_lower m Hm) as Hl.
  pose proof (Zdigits2_upper m ltac:(lia)) as Hu.
  pose proof (Zdigits2_pos m Hm) as Hd.
  set (d := Zdigits2 m) in *. clearbody d.
  assert (Hlow : 2 ^ (d - 1 + k) <= m * 2 ^ k).
  { rewrite pow2_add by lia. apply Z.mul_le_mono_nonneg_r; lia. }
  assert (Hup : m * 2 ^ k < 2 ^ (d + k)).
  { rewrite pow2_add by lia. apply Z.mul_lt_mono_pos_r; lia. }
  pose proof (Zdigits2_ge _ (d - 1 + k) ltac:(lia) Hlow).
  pose proof (Zdigits2_le (m * 2 ^ k) (d + k) ltac:(lia) ltac:(lia)).
  lia.
Qed.

Lemma shl_align_exponent (m : positive) (e ez : Z) :
  ez <= e -> snd (shl_align m e ez) = ez.
Proof.
  intros Hle. unfold shl_align.
  destruct (ez - e) as [|d|d] eqn:Hd; simpl snd; lia.
Qed.

(** ** An int that fits the mantissa *)

(** A positive int of at most 53 bits is a binary64 number. *)
Lemma binary_normalize_exact (p : positive) :
  Zpos (digits2_pos p) <= 53 ->
  exists (mz : positive) (ez : Z),
    binary_normalize prec emax (Zpos p) 0 false = S754_finite false mz ez
    /\ valid_binary (S754_finite false mz ez) = true
    /\ Zpos mz = Zpos p * 2 ^ (- ez) /\ -52 <= ez <= 0.
Proof.
  intros Hd.
  assert (Hd' : 0 < Zpos (digits2_pos p)) by lia.
  unfold binary_normalize, binary_round.
  set (ex' := fexp prec emax (Zpos (digits2_pos p) + 0)).
  assert (Hex : ex' = Zpos (digits2_pos p) - 53).
  { unfold ex'. rewrite fexp_eq. lia. }
  pose proof (shl_align_value p 0 ex' ltac:(lia)) as Hm.
  pose proof (shl_align_exponent p 0 ex' ltac:(lia)) as He.
  destruct (shl_align p 0 ex') as [mz ez]. simpl in Hm, He. subst ez.
  assert (Hcan : canonical_mantissa prec emax mz ex' = true).
  { unfold canonical_mantissa. apply Z.eqb_eq.
    change (Zpos (digits2_pos mz)) with (Zdigits2 (Zpos mz)).
    rewrite Hm, Zdigits2_shl by lia. simpl Zdigits2.
    rewrite fexp_eq. lia. }
  destruct (round_pos_canonical mz ex' Hcan ltac:(unfold emax, prec; lia))
    as [Hr HE].
  rewrite binary_round_aux_exact, Hr by (lia || exact HE).
  exists mz, ex'. split; [reflexivity|]. split.
  - simpl. unfold bounded. rewrite Hcan.
    apply Z.leb_le. unfold emax, prec. lia.
  - split; [rewrite Hm; f_equal; f_equal; lia|lia].
Qed.

Lemma binary_normalize_opp (p : positive) :
  binary_normalize prec emax (Zneg p) 0 false
  = SFopp (binary_normalize prec emax (Zpos p) 0 false).
Proof.
  unfold binary_normalize, binary_round.
  destruct (shl_align p 0 _) as [mz ez].
  apply (binary_round_aux_opp false).
Qed.

(** [float(n)] is exact for an int of at most 53 bits. *)
Lemma int_to_float_exact (p : positive) :
  Zpos (digits2_pos p) <= 53 ->
  exists (x : float) (mz : positive) (ez : Z),
    Py.int_to_float (Zpos p) = Ok x
    /\ Py.int_to_float (Zneg p) = Ok (- x)%float
    /\ Prim2SF x = S754_finite false mz ez
    /\ Zpos mz = Zpos p * 2 ^ (- ez) /\ -52 <= ez <= 0.
Proof.
  intros Hd.
  destruct (binary_normalize_exact p Hd) as (mz & ez & Hbn & Hv & Hm & Hez).
  exists (SF2Prim (S754_finite false mz ez)), mz, ez.
  unfold Py.int_to_float. rewrite binary_normalize_opp, Hbn. cbn [SFopp negb].
  split; [reflexivity|]. split.
  - reflexivity.
  - split; [apply Prim2SF_SF2Prim; exact Hv|]. split; assumption.
Qed.

(** Dividing a positive number by 12 gives no infinity. *)
Lemma div_12_finite (m : positive) (e : Z) :
  valid_binary (S754_finite false m e) = true ->
  SFdiv prec emax (S754_finite false m e) (S754_finite false 6755399441055744 (-49))
  <> S754_infinity false.
Proof.
  intros Hv Hinf.
  pose proof (valid_canonical _ _ _ Hv) as Hc.
  simpl in Hv. unfold bounded in Hv. apply andb_true_iff in Hv as [_ He%Z.leb_le].
  destruct (round_pos_canonical m e Hc He) as [Hself HE2].
  destruct (SFdiv_round_pos m 6755399441055744 e (-49)) as (Hdiv & HE1 & Hs1).
  set (e1 := div_exponent m e 6755399441055744 (-49)) in *. clearbody e1.
  set (B := Z.max (- e1) (- e)).
  assert (Hle : SFleb (round_pos (Zpos m * 2 ^ (e - -49 - e1)) 6755399441055744 e1)
                      (round_pos (Zpos m) 1 e) = true).
  { apply (round_pos_le _ _ _ _ _ _ B);
      [lia|lia|apply Z.lt_le_incl, scaled_pos; lia|lia|exact HE1|exact HE2|lia|lia|].
    assert (HL : Zpos m * 2 ^ (e - -49 - e1) * 2 ^ (e1 + B)
                 = Zpos m * 2 ^ (e + B) * 2 ^ 49).
    { rewrite <- !Z.mul_assoc, <- !pow2_add by lia. do 2 f_equal. lia. }
    rewrite HL. change 6755399441055744 with (12 * 2 ^ 49).
    set (P := 2 ^ 49) in *. assert (0 < P) by (unfold P; lia). clearbody P.
    pose proof (scaled_pos (Zpos m) (e + B) ltac:(lia) ltac:(lia)).
    set (a := Zpos m * 2 ^ (e + B)) in *. clearbody a. nia. }
  rewrite <- Hdiv, Hinf, Hself in Hle. discriminate.
Qed.

(** An int of at most 53 bits and its float have the same quotient by 12. *)
Lemma int_truediv_exact (p : positive) (x : float) :
  Zpos (digits2_pos p) <= 53 ->
  Py.int_to_float (Zpos p) = Ok x ->
  Py.int_truediv (Zpos p) 12 = Ok (x / 12)%float.
Proof.
  intros Hd Hx.
  destruct (int_to_float_exact p Hd) as (x' & mz & ez & Hx' & _ & Hsf & Hm & Hez).
  rewrite Hx in Hx'. injection Hx' as <-.
  pose proof (Prim2SF_valid x) as Hv. rewrite Hsf in Hv.
  assert (Hdiv : SFdiv prec emax (S754_finite false p 0) (S754_finite false 12 0)
                 = Prim2SF (x / 12)).
  { rewrite div_spec, Hsf, Prim2SF_12. unfold SF64div.
    destruct (SFdiv_round_pos p 12 0 0) as (-> & HE2 & Hs2).
    destruct (SFdiv_round_pos mz 6755399441055744 ez (-49)) as (-> & HE1 & Hs1).
    set (e2 := div_exponent p 0 12 0) in *. clearbody e2.
    set (e1 := div_exponent mz ez 6755399441055744 (-49)) in *. clearbody e1.
    set (B := Z.max (Z.max (- e1) (- e2)) 52).
    apply (round_pos_eq _ _ _ _ _ _ B);
      [lia|lia|apply Z.lt_le_incl, scaled_pos; lia
      |apply Z.lt_le_incl, scaled_pos; lia|exact HE2|exact HE1|lia|lia|].
    assert (HL : Zpos p * 2 ^ (0 - 0 - e2) * 2 ^ (e2 + B) = Zpos p * 2 ^ B).
    { rewrite <- !Z.mul_assoc, <- !pow2_add by lia. do 2 f_equal. lia. }
    assert (HR : Zpos mz * 2 ^ (ez - -49 - e1) * 2 ^ (e1 + B)
                 = Zpos p * 2 ^ B * 2 ^ 49).
    { rewrite Hm. rewrite <- !Z.mul_assoc, <- !pow2_add by lia. do 2 f_equal. lia. }
    rewrite HL, HR. change 6755399441055744 with (12 * 2 ^ 49). ring. }
  unfold Py.int_truediv. change (Zpos p <? 0) with false. rewrite Hdiv.
  assert (Hfin : Prim2SF (x / 12) <> S754_infinity false).
  { rewrite div_spec, Hsf, Prim2SF_12. apply div_12_finite. exact Hv. }
  assert (Hneg : Prim2SF (x / 12) <> S754_infinity true).
  { rewrite div_spec, Hsf, Prim2SF_12. unfold SF64div.
    destruct (SFdiv_round_pos mz 6755399441055744 ez (-49)) as (-> & HE1 & Hs1).
    assert (HN : 0 <= Zpos mz * 2 ^ (ez - -49
                                     - div_exponent mz ez 6755399441055744 (-49)))
      by (apply Z.lt_le_incl, scaled_pos; lia).
    destruct (round_pos_cases _ 6755399441055744 _ ltac:(lia) HN HE1)
      as [->|[->|(m' & e' & ->)]]; discriminate. }
  destruct (Prim2SF (x / 12)) as [s|[]| |s m e] eqn:Hq; try congruence;
    rewrite <- Hq, SF2Prim_Prim2SF; reflexivity.
Qed.

(** ** Squaring where libm is exact *)

Lemma magnitude_abs (x : float) :
  is_nan x = false -> (x =? 0)%float = false ->
  (if (x <? 0)%float then (- x)%float else x) = abs x.
Proof.
  intros Hnan Hzero. apply Prim2SF_inj.
  unfold is_nan in Hnan. rewrite FloatAxioms.eqb_spec in Hnan, Hzero.
  rewrite abs_spec, FloatAxioms.ltb_spec.
  change (Prim2SF 0) with (S754_zero false) in *.
  destruct (Prim2SF x) as [s|s| |s m e] eqn:Hx; try destruct s;
    try discriminate; cbn [SFltb SFcompare SFabs];
    rewrite ?opp_spec, ?Hx; reflexivity.
Qed.

Lemma abs_one (x : float) : abs x = 1%float -> (x * x)%float = 1%float.
Proof.
  intros Habs. apply Prim2SF_inj.
  apply (f_equal Prim2SF) in Habs. rewrite abs_spec in Habs.
  rewrite mul_spec. revert Habs.
  let sf := eval vm_compute in (Prim2SF 1) in change (Prim2SF 1) with sf.
  destruct (Prim2SF x) as [s|s| |s m e]; try discriminate.
  cbn [SFabs]. intros [= -> ->]. destruct s; vm_compute; reflexivity.
Qed.

(** Where libm returns the correctly rounded square, the power operator at
    2 is the float product. *)
Lemma float_pow2_correct {rt : Runtime} (x s : float) :
  libm_pow2 (abs x) = ((x * x)%float, false) ->
  Py.float_pow2 x = Ok s -> s = (x * x)%float.
Proof.
  intros Hlibm. unfold Py.float_pow2.
  destruct (is_nan x) eqn:Hnan.
  { intros [= <-]. apply is_nan_Prim2SF in Hnan.
    apply Prim2SF_inj. rewrite mul_spec, Hnan. reflexivity. }
  destruct (is_infinity x) eqn:Hinf.
  { intros [= <-]. apply is_infinity_Prim2SF in Hinf as [sx Hx].
    apply Prim2SF_inj. rewrite mul_spec, abs_spec, Hx. destruct sx; reflexivity. }
  destruct (x =? 0)%float eqn:Hzero.
  { intros [= <-]. apply eqb_zero_Prim2SF in Hzero as [sx Hx].
    apply Prim2SF_inj. rewrite mul_spec, Hx. destruct sx; reflexivity. }
  rewrite (magnitude_abs x Hnan Hzero).
  destruct (abs x =? 1)%float eqn:Hone.
  - intros [= <-]. apply eqb_one, abs_one in Hone. symmetry. exact Hone.
  - rewrite Hlibm. destruct (is_infinity (x * x)); [discriminate|].
    intros [= <-]. reflexivity.
Qed.

(** ** An int diameter *)

Lemma SFdiv_opp_l (m mc : positive) (e ec : Z) :
  SFdiv prec emax (S754_finite true m e) (S754_finite false mc ec)
  = SFopp (SFdiv prec emax (S754_finite false m e) (S754_finite false mc ec)).
Proof.
  unfold SFdiv.
  destruct (SFdiv_core_binary prec emax (Zpos m) e (Zpos mc) ec) as [[mz ez] lz].
  apply (binary_round_aux_opp false).
Qed.

Lemma int_truediv_neg (p : positive) (q : float) :
  Py.int_truediv (Zpos p) 12 = Ok q ->
  Py.int_truediv (Zneg p) 12 = Ok (- q)%float.
Proof.
  intros Hpos. unfold Py.int_truediv in Hpos |- *.
  change (Zpos p <? 0) with false in Hpos. change (Zneg p <? 0) with true.
  rewrite SFdiv_opp_l.
  destruct (SFdiv_round_pos p 12 0 0) as (Hdiv & HE & Hs).
  rewrite Hdiv in Hpos |- *.
  assert (Hvalid : valid_binary
                     (round_pos (Zpos p * 2 ^ (0 - 0 - div_exponent p 0 12 0)) 12
                        (div_exponent p 0 12 0)) = true).
  { apply round_pos_valid; [lia| |exact HE]. apply Z.lt_le_incl, scaled_pos; lia. }
  pose proof (SF2Prim_opp _ Hvalid) as Hopp.
  destruct (round_pos _ 12 _) as [s|s| |s m e]; try discriminate;
    injection Hpos as <-; cbn [SFopp] in Hopp |- *; rewrite Hopp; reflexivity.
Qed.

Section IntDiameter.

Context {rt : Runtime}.

(** An int of less than 53 bits gives the area of its float. *)
Lemma area_ft2_int (n : Z) :
  Z.abs n < 2 ^ 53 ->
  exists x : float,
    Py.int_to_float n = Ok x
    /\ Engine.area_ft2 (PInt n) = Engine.area_ft2 (PFloat x).
Proof.
  intros Hn.
  assert (Hdigits : forall p, Zpos p < 2 ^ 53 -> Zpos (digits2_pos p) <= 53).
  { intros p Hp. change (Zpos (digits2_pos p)) with (Zdigits2 (Zpos p)).
    apply Zdigits2_le; lia. }
  destruct n as [|p|p].
  - exists 0%float. split; reflexivity.
  - specialize (Hdigits p ltac:(lia)).
    destruct (int_to_float_exact p Hdigits) as (x & _ & _ & Hx & _).
    exists x. split; [exact Hx|].
    unfold Engine.area_ft2. cbn [Py.truediv_12].
    rewrite (int_truediv_exact p x Hdigits Hx). reflexivity.
  - specialize (Hdigits p ltac:(lia)).
    destruct (int_to_float_exact p Hdigits) as (x & _ & _ & Hx & Hneg & _).
    exists (- x)%float. split; [exact Hneg|].
    rewrite area_ft2_opp.
    unfold Engine.area_ft2. cbn [Py.truediv_12].
    rewrite (int_truediv_neg p _ (int_truediv_exact p x Hdigits Hx)).
    cbn [mbind result_bind]. rewrite float_pow2_opp. reflexivity.
Qed.

End IntDiameter.

(** ** The area helper *)

(** C3, as the code has it. [area_ft2(d)] divides [d] by 12, squares the
    quotient with Python's power operator and returns pi times the square
    over 4, for a float, an int or a bool [d], whenever the quotient and its
    square do not overflow; where the platform's [pow] gives the correctly
    rounded square of the quotient, the value is pi * (d/12 * d/12) / 4 in
    binary64. The area does not see the sign of [d]; an int of less than 53
    bits gives the area of its float; the only errors are [OverflowError]
    for a number and [TypeError] for a value that is none; and on every
    platform the area of 12, float or int, is pi / 4 and that of 0.0 is
    0.0. *)
Theorem area_ft2_formula {rt : Runtime} :
  (forall (d : pyval) (v : float),
      Engine.area_ft2 d = Ok v <->
      exists q p : float,
        Py.truediv_12 d = Ok q /\ Py.float_pow2 q = Ok p
        /\ v = (Py.math_pi * p / 4)%float)
  /\ (forall d : float, Py.truediv_12 (PFloat d) = Ok (d / 12)%float)
  /\ (forall d v : float,
         libm_pow2 (abs (d / 12)) = ((d / 12 * (d / 12))%float, false) ->
         Engine.area_ft2 (PFloat d) = Ok v ->
         v = (Py.math_pi * (d / 12 * (d / 12)) / 4)%float)
  /\ (forall d : float,
         Engine.area_ft2 (PFloat (- d)) = Engine.area_ft2 (PFloat d))
  /\ (forall n : Z, Z.abs n < 2 ^ 53 ->
         exists x : float,
           Py.int_to_float n = Ok x
           /\ Engine.area_ft2 (PInt n) = Engine.area_ft2 (PFloat x))
  /\ (forall b : bool,
         Engine.area_ft2 (PBool b) = Engine.area_ft2 (PInt (Py.int_of_bool b)))
  /\ (forall (d : pyval) (e : exn),
         Engine.area_ft2 d = Raise e ->
         (is_number (Some d) = true /\ e = OverflowError)
         \/ (is_number (Some d) = false /\ e = TypeError))
  /\ Engine.area_ft2 (PFloat 12) = Ok (Py.math_pi / 4)%float
  /\ Engine.area_ft2 (PInt 12) = Ok (Py.math_pi / 4)%float
  /\ Engine.area_ft2 (PFloat 0) = Ok 0%float.
Proof.
  split; [|split; [|split; [|split; [|split; [|split; [|split]]]]]].
  - intros d v. unfold Engine.area_ft2. rewrite bind_Ok. split.
    + intros (q & Hq & Hv). apply bind_Ok in Hv as (p & Hp & Hv).
      injection Hv as <-. exists q, p. repeat split; assumption.
    + intros (q & p & Hq & Hp & ->). exists q. split; [exact Hq|].
      rewrite Hp. reflexivity.
  - reflexivity.
  - intros d v Hlibm Hv. rewrite area_ft2_float in Hv. step Hv.
    apply (float_pow2_correct _ _ Hlibm) in E. injection Hv as <-.
    rewrite E. reflexivity.
  - apply area_ft2_opp.
  - apply area_ft2_int.
  - reflexivity.
  - intros d e Hd. unfold Engine.area_ft2 in Hd.
    apply bind_Raise_inv in Hd as [Hq|(q & Hq & Hs)].
    + destruct d; simpl in Hq;
        try (injection Hq as <-; right; split; reflexivity);
        try (apply int_truediv_Raise in Hq; left; split; [reflexivity|exact Hq]);
        discriminate.
    + apply bind_Raise_inv in Hs as [Hs|(s & _ & Hs)]; [|discriminate].
      apply float_pow2_raises in Hs. left. split; [|exact Hs].
      destruct d; simpl in Hq; try discriminate; reflexivity.
  - repeat split; reflexivity.
Qed.

(** The hole of 8.5 inches, where the correctly rounded square is what the
    platform returns, and the int 7, which gives the area of 7.0. *)
Lemma area_ft2_formula_witness :
  libm_pow2 (Runtime := exact_runtime) (abs (8.5 / 12))
  = ((8.5 / 12 * (8.5 / 12))%float, false)
  /\ Engine.area_ft2 (rt := exact_runtime) (PFloat 8.5) = Ok 0.39406262017684474%float
  /\ 0.39406262017684474%float = (Py.math_pi * (8.5 / 12 * (8.5 / 12)) / 4)%float
  /\ Z.abs 7 < 2 ^ 53
  /\ Engine.area_ft2 (rt := exact_runtime) (PInt 7)
     = Engine.area_ft2 (rt := exact_runtime) (PFloat 7).
Proof.
  destruct (area_ft2_formula (rt := exact_runtime))
    as (_ & _ & Hexact & _ & Hint & _).
  split; [reflexivity|]. split; [vm_compute; reflexivity|].
  split; [apply (Hexact 8.5%float); [reflexivity|vm_compute; reflexivity]|].
  split; [reflexivity|].
  destruct (Hint 7) as (x & Hx & Harea); [reflexivity|].
  vm_compute in Hx. injection Hx as <-. exact Harea.
Defined.

(** C3 as stated fails for a diameter whose square is past the largest
    double: the power operator raises [OverflowError] and the area has no
    value. *)
Lemma area_of_huge_diameter_raises :
  Engine.area_ft2 (rt := exact_runtime) (PFloat 1e200) = Raise OverflowError.
Proof. vm_compute. reflexivity. Qed.

(** ** The clamp *)

Section Clamp.

Context {rt : Runtime}.

(** A liner at least as wide as a hole of non-negative diameter leaves no
    positive difference of areas, where the platform's square is monotone. *)
Lemma wider_liner_area (oh : float) (od : pyval) (a_hole a_liner : float) :
  monotone_pow rt ->
  (0 <=? oh)%float = true -> float_le oh od = true ->
  Engine.area_ft2 (PFloat oh) = Ok a_hole -> Engine.area_ft2 od = Ok a_liner ->
  (0 <? a_hole - a_liner)%float = false.
Proof.
  intros Hmono H0 Hle Hah Hal.
  unfold Engine.area_ft2 in Hal. step Hal. rename a into ql, E into Hq.
  destruct (truediv_12_mono oh od ql H0 Hle Hq) as [Hq0 Hqle].
  destruct (scaled_square_mono Hmono (oh / 12)%float ql a_hole a_liner Hq0 Hqle Hah Hal)
    as [Ha0 Hale].
  apply float_sub_not_positive; assumption.
Qed.

End Clamp.




(** ** Missing sections and the other errors *)

Section Numbers.

Context {rt : Runtime}.

Lemma calculate_dp2_raises (payload : gmap string pyval)
    (find_tvd : option (float -> result float)) (e : exn) :
  is_section (payload !! "casing") = true ->
  is_section (payload !! "liner") = true ->
  is_section (payload !! "dp1") = true ->
  Engine.new_PipeSection (Py.dict_get payload "dp2" Engine.dp2_default) = Raise e ->
  Engine.calculate payload find_tvd = Raise e.
Proof.
  intros [casing Hc]%section_returns%returns_Ok
         [liner Hl]%section_returns%returns_Ok
         [dp1 Hd]%section_returns%returns_Ok Hdp2.
  unfold Engine.calculate, Engine.calculate_body.
  rewrite (bind_Ok_eq _ _ _ Hc), (bind_Ok_eq _ _ _ Hl), (bind_Ok_eq _ _ _ Hd), Hdp2.
  reflexivity.
Qed.

Lemma section_bad_keys (payload : gmap string pyval) (k : string)
    (kw : gmap string pyval) :
  bad_keys kw -> payload !! k = Some (PDict kw) ->
  Py.getitem payload k ≫= Engine.new_PipeSection = Raise TypeError.
Proof.
  intros Hbad Hk. unfold Py.getitem. rewrite Hk. simpl.
  apply bad_keys_rejected, Hbad.
Qed.

(** [float] of a number raises nothing but [OverflowError]. *)
Lemma float_of_number (v : option pyval) (dflt : pyval) (e : exn) :
  absent_or is_number v = true -> is_number (Some dflt) = true ->
  Py.float_of (default dflt v) = Raise e -> e = OverflowError.
Proof.
  intros Hv Hd.
  assert (Hnum : is_number (Some (default dflt v)) = true).
  { destruct v as [w|]; [exact Hv|exact Hd]. }
  destruct (default dflt v); try discriminate; simpl; apply int_to_float_Raise.
Qed.

Lemma area_ft2_number (v : pyval) (e : exn) :
  is_number (Some v) = true -> Engine.area_ft2 v = Raise e -> e = OverflowError.
Proof.
  intros Hv Hr. unfold Engine.area_ft2 in Hr.
  apply bind_Raise_inv in Hr as [Hq|(q & _ & Hs)].
  - destruct v; try discriminate; simpl in Hq.
    + apply int_truediv_Raise in Hq. exact Hq.
    + apply int_truediv_Raise in Hq. exact Hq.
  - apply bind_Raise_inv in Hs as [Hs|(s & _ & Hs)]; [|discriminate].
    apply float_pow2_raises in Hs. exact Hs.
Qed.

(** A well-formed request whose numbers are floats, ints or bools returns
    unless something overflows. *)
Lemma calculate_numbers (payload : gmap string pyval)
    (find_tvd : option (float -> result float)) :
  well_formed payload = true -> numeric payload = true ->
  (raises (Engine.calculate payload find_tvd) ->
   Engine.calculate payload find_tvd = Raise OverflowError)
  /\ exists od : pyval,
       field payload "liner" "od" = Some od
       /\ (returns (Engine.calculate payload find_tvd) <->
           returns (Py.float_of (default (PFloat 13.0) (field payload "mud" "ppg")))
           /\ returns (open_hole_id ← Py.float_of
                         (default (PFloat 8.5)
                            (field payload "holeOverlap" "openHoleId"));
                       Engine.area_ft2 (PFloat open_hole_id))
           /\ returns (Engine.area_ft2 od)
           /\ returns (Py.float_of
                         (default (PInt 300)
                            (field payload "holeOverlap" "linerOverlap")))
           /\ returns (Py.float_of
                         (default (PInt 200)
                            (field payload "holeOverlap" "shoeTrackLength")))).
Proof.
  intros Hwf Hnum.
  destruct (calculate_well_formed payload find_tvd Hwf) as (od & Hod & Hcalc).
  unfold numeric in Hnum. rewrite !andb_true_iff in Hnum.
  destruct Hnum as ((((Hodn & Hppg) & Hoh) & Hlo) & Hst).
  rewrite Hod in Hodn.
  pose proof (fun e => float_of_number _ (PFloat 13.0) e Hppg eq_refl) as Eppg.
  pose proof (fun e => float_of_number _ (PFloat 8.5) e Hoh eq_refl) as Eoh.
  pose proof (fun e => float_of_number _ (PInt 300) e Hlo eq_refl) as Elo.
  pose proof (fun e => float_of_number _ (PInt 200) e Hst eq_refl) as Est.
  pose proof (area_ft2_number od) as Eod.
  cut ((raises (Engine.calculate payload find_tvd) ->
        Engine.calculate payload find_tvd = Raise OverflowError)
       /\ (returns (Engine.calculate payload find_tvd) <->
           returns (Py.float_of (default (PFloat 13.0) (field payload "mud" "ppg")))
           /\ returns (open_hole_id ← Py.float_of
                         (default (PFloat 8.5)
                            (field payload "holeOverlap" "openHoleId"));
                       Engine.area_ft2 (PFloat open_hole_id))
           /\ returns (Engine.area_ft2 od)
           /\ returns (Py.float_of
                         (default (PInt 300)
                            (field payload "holeOverlap" "linerOverlap")))
           /\ returns (Py.float_of
                         (default (PInt 200)
                            (field payload "holeOverlap" "shoeTrackLength"))))).
  { intros [Hraise Hiff]. split; [exact Hraise|].
    exists od. split; [exact Hod|exact Hiff]. }
  rewrite Hcalc.
  destruct (Py.float_of (default (PFloat 13.0) (field payload "mud" "ppg")))
    as [ppg|e1]; cbn -[Engine.area_ft2].
  2:{ rewrite (Eppg e1 eq_refl). clear. intuition. }
  destruct (Py.float_of
              (default (PFloat 8.5) (field payload "holeOverlap" "openHoleId")))
    as [oh|e2]; cbn -[Engine.area_ft2].
  2:{ rewrite (Eoh e2 eq_refl). clear. intuition. }
  destruct (Engine.area_ft2 (PFloat oh)) as [ah|e3] eqn:Hah; cbn -[Engine.area_ft2].
  2:{ rewrite (area_ft2_number (PFloat oh) e3 eq_refl Hah). clear. intuition. }
  destruct (Engine.area_ft2 od) as [al|e4] eqn:Hal; cbn -[Engine.area_ft2].
  2:{ rewrite (Eod e4 Hodn eq_refl). clear. intuition. }
  destruct (Py.float_of
              (default (PInt 300) (field payload "holeOverlap" "linerOverlap")))
    as [lo|e5]; cbn -[Engine.area_ft2].
  2:{ rewrite (Elo e5 eq_refl). clear. intuition. }
  destruct (Py.float_of
              (default (PInt 200) (field payload "holeOverlap" "shoeTrackLength")))
    as [st|e6]; cbn -[Engine.area_ft2].
  2:{ rewrite (Est e6 eq_refl). clear. intuition. }
  clear. intuition.
Qed.

End Numbers.

(** C6, as the code has it. A missing [casing], [liner] or [dp1] makes
    [Engine.calculate] raise, with [KeyError] for the first one missing when
    the sections before it are accepted, and nothing is substituted. It is
    not the only error: a section dict with an unknown or a missing key
    raises [TypeError], for [casing], [liner], [dp1] and a supplied [dp2]
    alike; and a well-formed request whose numbers are floats, ints or bools
    returns unless a number overflows, [OverflowError] being then the only
    exception: it returns exactly when every [float()], both quotients by 12
    and both squares return. With float numbers that is exactly when neither
    square overflows. *)
Theorem missing_section_raises_else_returns {rt : Runtime}
    (payload : gmap string pyval) (find_tvd : option (float -> result float)) :
  (forall k : string, k ∈ ["casing"; "liner"; "dp1"] -> payload !! k = None ->
     raises (Engine.calculate payload find_tvd))
  /\ (payload !! "casing" = None ->
      Engine.calculate payload find_tvd = Raise (KeyError "casing"))
  /\ (is_section (payload !! "casing") = true -> payload !! "liner" = None ->
      Engine.calculate payload find_tvd = Raise (KeyError "liner"))
  /\ (is_section (payload !! "casing") = true ->
      is_section (payload !! "liner") = true -> payload !! "dp1" = None ->
      Engine.calculate payload find_tvd = Raise (KeyError "dp1"))
  /\ (forall kw : gmap string pyval, bad_keys kw ->
      (payload !! "casing" = Some (PDict kw) ->
       Engine.calculate payload find_tvd = Raise TypeError)
      /\ (is_section (payload !! "casing") = true ->
          payload !! "liner" = Some (PDict kw) ->
          Engine.calculate payload find_tvd = Raise TypeError)
      /\ (is_section (payload !! "casing") = true ->
          is_section (payload !! "liner") = true ->
          payload !! "dp1" = Some (PDict kw) ->
          Engine.calculate payload find_tvd = Raise TypeError)
      /\ (is_section (payload !! "casing") = true ->
          is_section (payload !! "liner") = true ->
          is_section (payload !! "dp1") = true ->
          payload !! "dp2" = Some (PDict kw) ->
          Engine.calculate payload find_tvd = Raise TypeError))
  /\ (well_formed payload = true -> numeric payload = true ->
      (raises (Engine.calculate payload find_tvd) ->
       Engine.calculate payload find_tvd = Raise OverflowError)
      /\ exists od : pyval,
           field payload "liner" "od" = Some od
           /\ (returns (Engine.calculate payload find_tvd) <->
               returns (Py.float_of
                          (default (PFloat 13.0) (field payload "mud" "ppg")))
               /\ returns (open_hole_id ← Py.float_of
                             (default (PFloat 8.5)
                                (field payload "holeOverlap" "openHoleId"));
                           Engine.area_ft2 (PFloat open_hole_id))
               /\ returns (Engine.area_ft2 od)
               /\ returns (Py.float_of
                             (default (PInt 300)
                                (field payload "holeOverlap" "linerOverlap")))
               /\ returns (Py.float_of
                             (default (PInt 200)
                                (field payload "holeOverlap" "shoeTrackLength")))))
  /\ (well_formed payload = true -> float_valued payload = true ->
      exists od open_hole_id : float,
        field payload "liner" "od" = Some (PFloat od)
        /\ default (PFloat 8.5) (field payload "holeOverlap" "openHoleId")
           = PFloat open_hole_id
        /\ (returns (Engine.calculate payload find_tvd) <->
            returns (Py.float_pow2 (open_hole_id / 12)%float)
            /\ returns (Py.float_pow2 (od / 12)%float))
        /\ (raises (Engine.calculate payload find_tvd) ->
            Engine.calculate payload find_tvd = Raise OverflowError)).
Proof.
  split; [|split; [|split; [|split; [|split; [|split]]]]].
  - intros k Hk Hmissing. apply calculate_section_raises.
    apply missing_section in Hmissing.
    apply list_elem_of_In in Hk. simpl in Hk.
    destruct Hk as [<-|[<-|[<-|[]]]]; rewrite Hmissing; simpl; tauto.
  - intros Hmissing. apply calculate_casing_raises, missing_section, Hmissing.
  - intros Hcasing Hmissing.
    apply calculate_liner_raises; [exact Hcasing|].
    apply missing_section, Hmissing.
  - intros Hcasing Hliner Hmissing.
    apply calculate_dp1_raises; [exact Hcasing|exact Hliner|].
    apply missing_section, Hmissing.
  - intros kw Hbad. split; [|split; [|split]].
    + intros Hk. apply calculate_casing_raises, (section_bad_keys _ _ kw); assumption.
    + intros Hcasing Hk. apply calculate_liner_raises; [exact Hcasing|].
      apply (section_bad_keys _ _ kw); assumption.
    + intros Hcasing Hliner Hk.
      apply calculate_dp1_raises; [exact Hcasing|exact Hliner|].
      apply (section_bad_keys _ _ kw); assumption.
    + intros Hcasing Hliner Hdp1 Hk.
      apply calculate_dp2_raises; [exact Hcasing|exact Hliner|exact Hdp1|].
      unfold Py.dict_get. rewrite Hk. simpl. apply bad_keys_rejected, Hbad.
  - apply calculate_numbers.
  - intros Hwf Hnum.
    destruct (calculate_well_formed payload find_tvd Hwf) as (od' & Hod' & ->).
    unfold float_valued in Hnum. rewrite !andb_true_iff in Hnum.
    destruct Hnum as ((((Hod & Hppg) & Hoh) & Hlo) & Hst).
    apply float_given in Hod as [od Hod].
    rewrite Hod in Hod'. injection Hod' as <-.
    apply (float_or_default _ (PFloat 13.0)), returns_Ok in Hppg as [ppg Hppg];
      [|exact I].
    apply (float_or_default _ (PInt 300)), returns_Ok in Hlo as [lo Hlo];
      [|exact I].
    apply (float_or_default _ (PInt 200)), returns_Ok in Hst as [st Hst];
      [|exact I].
    assert (Hoh' : exists x : float,
               default (PFloat 8.5) (field payload "holeOverlap" "openHoleId")
               = PFloat x).
    { destruct (field payload "holeOverlap" "openHoleId") as [[| | |x| | |]|];
        try discriminate; simpl; eauto. }
    destruct Hoh' as [oh Hoh'].
    exists od, oh. split; [exact Hod|]. split; [exact Hoh'|].
    rewrite Hppg, Hoh', Hlo, Hst. simpl. rewrite !area_ft2_float.
    destruct (Py.float_pow2 (oh / 12)) as [s1|e1] eqn:Hs1; simpl.
    + destruct (Py.float_pow2 (od / 12)) as [s2|e2] eqn:Hs2; simpl.
      * split; [tauto|contradiction].
      * apply float_pow2_raises in Hs2 as ->. split; [tauto|reflexivity].
    + apply float_pow2_raises in Hs1 as ->. split; [tauto|reflexivity].
Qed.

(** A request of ints and the end-to-end scenario of floats are well formed
    and nothing overflows: they return. Without its liner the scenario
    raises [KeyError], and with an unknown key in the casing [TypeError]. *)
Lemma missing_section_raises_else_returns_witness :
  (well_formed int_request = true /\ numeric int_request = true
   /\ returns (Engine.calculate (rt := exact_runtime) int_request None))
  /\ (well_formed full_request = true /\ float_valued full_request = true
      /\ returns (Engine.calculate (rt := exact_runtime) full_request None))
  /\ (is_section (delete "liner" full_request !! "casing") = true
      /\ delete "liner" full_request !! "liner" = None
      /\ Engine.calculate (rt := exact_runtime) (delete "liner" full_request) None
         = Raise (KeyError "liner"))
  /\ (bad_keys (<["weight" := PFloat 47.0]> (pipe 9.625))
      /\ extra_key_request !! "casing"
         = Some (PDict (<["weight" := PFloat 47.0]> (pipe 9.625)))
      /\ Engine.calculate (rt := exact_runtime) extra_key_request None
         = Raise TypeError).
Proof.
  pose proof (missing_section_raises_else_returns (rt := exact_runtime)
                int_request None) as (_ & _ & _ & _ & _ & Hints & _).
  pose proof (missing_section_raises_else_returns (rt := exact_runtime)
                full_request None) as (_ & _ & _ & _ & _ & _ & Hfloats).
  pose proof (missing_section_raises_else_returns (rt := exact_runtime)
                (delete "liner" full_request) None) as (_ & _ & Hliner & _).
  pose proof (missing_section_raises_else_returns (rt := exact_runtime)
                extra_key_request None) as (_ & _ & _ & _ & Hkeys & _).
  assert (Hbad : bad_keys (<["weight" := PFloat 47.0]> (pipe 9.625))).
  { left. exists "weight". split; [vm_compute; eauto|].
    intros Hin. apply list_elem_of_In in Hin. simpl in Hin.
    repeat (destruct Hin as [Hin|Hin]; [discriminate|]). exact Hin. }
  split; [|split; [|split]].
  - split; [vm_compute; reflexivity|]. split; [vm_compute; reflexivity|].
    destruct Hints as (_ & od & Hod & Hiff);
      [vm_compute; reflexivity|vm_compute; reflexivity|].
    apply Hiff. vm_compute in Hod. injection Hod as <-.
    vm_compute. repeat split.
  - split; [vm_compute; reflexivity|]. split; [vm_compute; reflexivity|].
    destruct Hfloats as (od & oh & Hod & Hoh & Hiff & _);
      [vm_compute; reflexivity|vm_compute; reflexivity|].
    apply Hiff.
    vm_compute in Hod. injection Hod as <-.
    vm_compute in Hoh. injection Hoh as <-.
    vm_compute. split; exact I.
  - split; [vm_compute; reflexivity|]. split; [vm_compute; reflexivity|].
    apply Hliner; vm_compute; reflexivity.
  - split; [exact Hbad|]. split; [vm_compute; reflexivity|].
    destruct (Hkeys _ Hbad) as (Hcasing & _). apply Hcasing.
    vm_compute. reflexivity.
Defined.

(** C6 as stated fails in both directions of its "if and only if": with
    all three sections present, an unknown key in the casing raises
    [TypeError], and a well-formed request with float fields raises
    [OverflowError] when a square overflows. *)
Lemma present_sections_still_raise :
  (is_Some (extra_key_request !! "casing")
   /\ is_Some (extra_key_request !! "liner")
   /\ is_Some (extra_key_request !! "dp1")
   /\ Engine.calculate (rt := exact_runtime) extra_key_request None = Raise TypeError)
  /\ (well_formed huge_od_request = true
      /\ numeric huge_od_request = true
      /\ Engine.calculate (rt := exact_runtime) huge_od_request None
         = Raise OverflowError).
Proof.
  repeat split; try (vm_compute; reflexivity); vm_compute; eauto.
Qed.
